(** * EduManage Pro: the build pipeline

    A shallow embedding of the build pipeline of the EduManage backend:
    the [Build] document and its schema, the orchestrator [BuildService],
    the request handlers [BuildController] and [DownloadController], and
    the queue manager's [add] (utils/queue.js).

    Conventions.
    - A MongoDB collection is a list of documents; a document's [_id] is
      its position in the list (documents are appended and never removed).
    - A [Date] is the number of milliseconds since the epoch, in [Z].
    - JavaScript [null] and [undefined] are both [None].
    - An [async] function is a computation in the monad [M]: it threads
      the state and either returns a value or throws a message.
    - The file system, object storage, the mailer and the clock are
      collaborators: their answers are read from an environment [Env].
    - [build.save()] writes the paths of the document whose value differs
      from the one last loaded or saved, as Mongoose does.
    - While [processBuild] awaits a database operation, the server may
      handle other requests; a run is parameterised by the requests
      served at its suspension points, each request being handled as a
      whole.
    - [Build.create] validates the document before the pre-save hooks run,
      as Mongoose does: the hook that generates the [buildId] comes too
      late for the [required] validator of that path.
    - [fs] is [require('fs').promises], which has no [createWriteStream]. *)

From stdpp Require Import base gmap list strings pretty relations.
From Stdlib Require Import ZArith Lia.

(** ** Documents *)

Inductive BuildStatus := Queued | Processing | Completed | Failed | Cancelled.

#[global] Instance BuildStatus_eq_dec : EqDecision BuildStatus.
Proof. solve_decision. Defined.

(** An element of [build.stages]. *)
Record Stage := {
  st_name : string;
  st_status : string;
  st_startedAt : option Z;
  st_completedAt : option Z;
  st_error : option string
}.

#[global] Instance Stage_eq_dec : EqDecision Stage.
Proof. solve_decision. Defined.

Record Metadata := {
  buildTime : Z;
  fileSize : Z;
  version : string;
  dependencies : list string
}.

#[global] Instance Metadata_eq_dec : EqDecision Metadata.
Proof. solve_decision. Defined.

(** The [Build] document.  The [files] sub-document of the schema is never
    read or written by the pipeline and is left out. *)
Record Build := {
  buildId : string;
  order : nat;
  school : nat;
  user : nat;
  package : string;
  status : BuildStatus;
  progress : Z;
  stages : list Stage;
  downloadUrl : option string;
  downloadCount : Z;
  lastDownloadAt : option Z;
  buildLogs : list string;
  error : option string;
  startedAt : option Z;
  completedAt : option Z;
  expiresAt : option Z;
  metadata : option Metadata;
  createdAt : Z
}.

#[global] Instance Build_eq_dec : EqDecision Build.
Proof. solve_decision. Defined.

(** The fields of [Order] the pipeline reads or writes.  [o_status] and
    [o_buildStatus] are strings: [findByIdAndUpdate] does not run the
    schema's enum validators. *)
Record Order := {
  orderId : string;
  o_user : nat;
  o_school : option nat;
  o_packageType : string;
  o_packageDuration : string;
  o_paymentStatus : string;
  o_status : string;
  o_buildStatus : string;
  o_downloadUrl : option string
}.

Record School := {
  s_name : string;
  s_createdBy : nat;
  s_status : string;
  s_metaBuildId : option string;
  s_metaDownloadUrl : option string;
  s_metaLastUpdate : option Z
}.

Record User := {
  email : string;
  fullName : string
}.

(** ** Field updates *)

Definition set_status (v : BuildStatus) (b : Build) : Build :=
  {| buildId := buildId b; order := order b; school := school b; user := user b;
     package := package b; status := v; progress := progress b;
     stages := stages b; downloadUrl := downloadUrl b;
     downloadCount := downloadCount b; lastDownloadAt := lastDownloadAt b;
     buildLogs := buildLogs b; error := error b; startedAt := startedAt b;
     completedAt := completedAt b; expiresAt := expiresAt b;
     metadata := metadata b; createdAt := createdAt b |}.

Definition set_progress (v : Z) (b : Build) : Build :=
  {| buildId := buildId b; order := order b; school := school b; user := user b;
     package := package b; status := status b; progress := v;
     stages := stages b; downloadUrl := downloadUrl b;
     downloadCount := downloadCount b; lastDownloadAt := lastDownloadAt b;
     buildLogs := buildLogs b; error := error b; startedAt := startedAt b;
     completedAt := completedAt b; expiresAt := expiresAt b;
     metadata := metadata b; createdAt := createdAt b |}.

Definition set_stages (v : list Stage) (b : Build) : Build :=
  {| buildId := buildId b; order := order b; school := school b; user := user b;
     package := package b; status := status b; progress := progress b;
     stages := v; downloadUrl := downloadUrl b;
     downloadCount := downloadCount b; lastDownloadAt := lastDownloadAt b;
     buildLogs := buildLogs b; error := error b; startedAt := startedAt b;
     completedAt := completedAt b; expiresAt := expiresAt b;
     metadata := metadata b; createdAt := createdAt b |}.

Definition set_downloadUrl (v : option string) (b : Build) : Build :=
  {| buildId := buildId b; order := order b; school := school b; user := user b;
     package := package b; status := status b; progress := progress b;
     stages := stages b; downloadUrl := v;
     downloadCount := downloadCount b; lastDownloadAt := lastDownloadAt b;
     buildLogs := buildLogs b; error := error b; startedAt := startedAt b;
     completedAt := completedAt b; expiresAt := expiresAt b;
     metadata := metadata b; createdAt := createdAt b |}.

Definition set_downloadCount (v : Z) (b : Build) : Build :=
  {| buildId := buildId b; order := order b; school := school b; user := user b;
     package := package b; status := status b; progress := progress b;
     stages := stages b; downloadUrl := downloadUrl b;
     downloadCount := v; lastDownloadAt := lastDownloadAt b;
     buildLogs := buildLogs b; error := error b; startedAt := startedAt b;
     completedAt := completedAt b; expiresAt := expiresAt b;
     metadata := metadata b; createdAt := createdAt b |}.

Definition set_lastDownloadAt (v : option Z) (b : Build) : Build :=
  {| buildId := buildId b; order := order b; school := school b; user := user b;
     package := package b; status := status b; progress := progress b;
     stages := stages b; downloadUrl := downloadUrl b;
     downloadCount := downloadCount b; lastDownloadAt := v;
     buildLogs := buildLogs b; error := error b; startedAt := startedAt b;
     completedAt := completedAt b; expiresAt := expiresAt b;
     metadata := metadata b; createdAt := createdAt b |}.

Definition set_error (v : option string) (b : Build) : Build :=
  {| buildId := buildId b; order := order b; school := school b; user := user b;
     package := package b; status := status b; progress := progress b;
     stages := stages b; downloadUrl := downloadUrl b;
     downloadCount := downloadCount b; lastDownloadAt := lastDownloadAt b;
     buildLogs := buildLogs b; error := v; startedAt := startedAt b;
     completedAt := completedAt b; expiresAt := expiresAt b;
     metadata := metadata b; createdAt := createdAt b |}.

Definition set_startedAt (v : option Z) (b : Build) : Build :=
  {| buildId := buildId b; order := order b; school := school b; user := user b;
     package := package b; status := status b; progress := progress b;
     stages := stages b; downloadUrl := downloadUrl b;
     downloadCount := downloadCount b; lastDownloadAt := lastDownloadAt b;
     buildLogs := buildLogs b; error := error b; startedAt := v;
     completedAt := completedAt b; expiresAt := expiresAt b;
     metadata := metadata b; createdAt := createdAt b |}.

Definition set_completedAt (v : option Z) (b : Build) : Build :=
  {| buildId := buildId b; order := order b; school := school b; user := user b;
     package := package b; status := status b; progress := progress b;
     stages := stages b; downloadUrl := downloadUrl b;
     downloadCount := downloadCount b; lastDownloadAt := lastDownloadAt b;
     buildLogs := buildLogs b; error := error b; startedAt := startedAt b;
     completedAt := v; expiresAt := expiresAt b;
     metadata := metadata b; createdAt := createdAt b |}.

Definition set_metadata (v : option Metadata) (b : Build) : Build :=
  {| buildId := buildId b; order := order b; school := school b; user := user b;
     package := package b; status := status b; progress := progress b;
     stages := stages b; downloadUrl := downloadUrl b;
     downloadCount := downloadCount b; lastDownloadAt := lastDownloadAt b;
     buildLogs := buildLogs b; error := error b; startedAt := startedAt b;
     completedAt := completedAt b; expiresAt := expiresAt b;
     metadata := v; createdAt := createdAt b |}.

Definition set_o_status (st bst : string) (o : Order) : Order :=
  {| orderId := orderId o; o_user := o_user o; o_school := o_school o;
     o_packageType := o_packageType o; o_packageDuration := o_packageDuration o;
     o_paymentStatus := o_paymentStatus o; o_status := st;
     o_buildStatus := bst; o_downloadUrl := o_downloadUrl o |}.

Definition set_o_downloadUrl (v : option string) (o : Order) : Order :=
  {| orderId := orderId o; o_user := o_user o; o_school := o_school o;
     o_packageType := o_packageType o; o_packageDuration := o_packageDuration o;
     o_paymentStatus := o_paymentStatus o; o_status := o_status o;
     o_buildStatus := o_buildStatus o; o_downloadUrl := v |}.

(** ** The world: database, queues, outbox, clock position *)

Record Mail := {
  m_to : string;
  m_template : string;
  m_buildId : string;
  m_downloadUrl : string
}.

Record World := {
  builds : list Build;
  orders : list Order;
  schools : list School;
  users : list User;
  jobs : list string;      (* buildIds waiting in the build queue *)
  outbox : list Mail;
  copies : list (string * string);   (* directory copies done: (source, destination) *)
  ticks : nat              (* readings of the clock so far *)
}.

Definition with_builds (v : list Build) (w : World) : World :=
  {| builds := v; orders := orders w; schools := schools w; users := users w;
     jobs := jobs w; outbox := outbox w; copies := copies w;
     ticks := ticks w |}.

Definition with_orders (v : list Order) (w : World) : World :=
  {| builds := builds w; orders := v; schools := schools w; users := users w;
     jobs := jobs w; outbox := outbox w; copies := copies w;
     ticks := ticks w |}.

Definition with_schools (v : list School) (w : World) : World :=
  {| builds := builds w; orders := orders w; schools := v; users := users w;
     jobs := jobs w; outbox := outbox w; copies := copies w;
     ticks := ticks w |}.

Definition with_jobs (v : list string) (w : World) : World :=
  {| builds := builds w; orders := orders w; schools := schools w;
     users := users w; jobs := v; outbox := outbox w; copies := copies w;
     ticks := ticks w |}.

Definition with_outbox (v : list Mail) (w : World) : World :=
  {| builds := builds w; orders := orders w; schools := schools w;
     users := users w; jobs := jobs w; outbox := v; copies := copies w;
     ticks := ticks w |}.

Definition with_copies (v : list (string * string)) (w : World) : World :=
  {| builds := builds w; orders := orders w; schools := schools w;
     users := users w; jobs := jobs w; outbox := outbox w; copies := v;
     ticks := ticks w |}.

Definition with_ticks (v : nat) (w : World) : World :=
  {| builds := builds w; orders := orders w; schools := schools w;
     users := users w; jobs := jobs w; outbox := outbox w;
     copies := copies w; ticks := v |}.

(** ** Outcomes and the state-and-exception monad *)

Inductive Outcome (A : Type) :=
| Done (a : A)
| Threw (msg : string).
Arguments Done {A} a.
Arguments Threw {A} msg.

Definition M (S A : Type) : Type := S -> Outcome A * S.

Definition ret {S A} (a : A) : M S A := fun s => (Done a, s).

Definition bind {S A B} (m : M S A) (k : A -> M S B) : M S B :=
  fun s => match m s with
           | (Done a, s') => k a s'
           | (Threw e, s') => (Threw e, s')
           end.

Definition throw {S A} (msg : string) : M S A := fun s => (Threw msg, s).

(** [try { m } catch (error) { h error }] *)
Definition tryCatch {S A} (m : M S A) (h : string -> M S A) : M S A :=
  fun s => match m s with
           | (Done a, s') => (Done a, s')
           | (Threw e, s') => h e s'
           end.

Definition get {S} : M S S := fun s => (Done s, s).
Definition modify {S} (f : S -> S) : M S unit := fun s => (Done tt, f s).

(** An awaited collaborator call whose answer the environment fixes. *)
Definition await {S A} (o : Outcome A) : M S A := fun s => (o, s).

Declare Scope js_scope.
Delimit Scope js_scope with js.
Notation "'let!' x := m 'in' k" := (bind m (fun x => k))
  (at level 10, x name, m at level 100, k at level 200,
   format "'[v' 'let!'  x  :=  m  'in' '/' k ']'") : js_scope.
Notation "'do!' m 'in' k" := (bind m (fun _ => k))
  (at level 10, m at level 100, k at level 200,
   format "'[v' 'do!'  m  'in' '/' k ']'") : js_scope.
Local Open Scope js_scope.

(** ** Environment *)

Record Env := {
  clock : nat -> Z;                     (* n-th reading of Date *)
  fsAccess : string -> Outcome unit;    (* fs.access(path) *)
  fsMkdir : string -> Outcome unit;     (* fs.mkdir(path, recursive) *)
  copyDirectoryIO : string -> string -> Outcome unit;
  configFilesIO : string -> Outcome unit;   (* the writes of configureSystem *)
  databaseFileIO : string -> Outcome unit;  (* the write of generateDatabase *)
  npmInstall : string -> Outcome unit;      (* npm install --production *)
  s3UploadFile : string -> string -> Outcome string;
  s3SignedUrl : string -> Z -> Outcome string;
  statSize : string -> Z;                   (* getFileSize, 0 on error *)
  packageDeps : string -> list string;      (* getDependencies, [] on error *)
  sendMail : Mail -> Outcome unit;
  fsRm : string -> Outcome unit             (* fs.rm(path, recursive, force) *)
}.

(** ** Responses of the request handlers *)

Inductive Response :=
| Json (code : nat) (success : bool) (message : string)
       (data : list (string * string))
| Redirect (url : string)
| NextError (msg : string).      (* next(error) *)

(** A handler body runs inside [try { ... } catch (error) { next(error) }]. *)
Definition handler (m : M World Response) (w : World) : Response * World :=
  match m w with
  | (Done r, w') => (r, w')
  | (Threw e, w') => (NextError e, w')
  end.

(** What [processBuild] and [createBuild] resolve to. *)
Record BuildResult := {
  r_success : bool;
  r_buildId : string;
  r_downloadUrl : option string;
  r_message : string
}.

Definition packageEnum : list string :=
  ["small"; "medium"; "lifetime"; "enterprise"].

(** utils/queue.js: the queues the manager creates in [init]. *)
Definition queueNames : list string := ["build"; "payment"; "email"].

Definition THIRTY_DAYS : Z := 30 * 24 * 60 * 60 * 1000.
Definition SIGNED_URL_TTL : Z := 24 * 60 * 60.

Definition packageKey (id : string) : string :=
  "builds/" +:+ id +:+ "/school-system.zip".
Definition dbKey (id : string) : string :=
  "builds/" +:+ id +:+ "/database.json".

Section Backend.

Variable env : Env.

(** [new Date()] / [Date.now()] *)
Definition now : M World Z :=
  fun w => (Done (clock env (ticks w)), with_ticks (S (ticks w)) w).

(** *** Collections *)

(** [Build.findOne({ buildId })]: the position and the document. *)
Definition Build_findOne (id : string) (w : World) : option (nat * Build) :=
  list_find (fun b => buildId b = id) (builds w).

(** [Build.findOne({ order })] *)
Definition Build_findByOrder (o : nat) (w : World) : option (nat * Build) :=
  list_find (fun b => order b = o) (builds w).

Definition Order_findById (o : nat) (w : World) : option Order := orders w !! o.
Definition School_findById (s : nat) (w : World) : option School := schools w !! s.

(** [Order.findByIdAndUpdate(id, ...)]: no document, no update. *)
Definition Order_findByIdAndUpdate (o : nat) (f : Order -> Order) : M World unit :=
  modify (fun w => with_orders (alter f o (orders w)) w).

Definition School_findByIdAndUpdate (s : nat) (f : School -> School) : M World unit :=
  modify (fun w => with_schools (alter f s (schools w)) w).

(** What the validators of the Build schema report for a document that
    [createBuild] hands to [Build.create]: no [buildId] is given, and the
    tier may be outside the enum. *)
Definition validationErrors (pkg : string) : list string :=
  ["buildId: Path `buildId` is required."] ++
  (if bool_decide (pkg ∈ packageEnum) then []
   else ["package: `" +:+ pkg +:+
         "` is not a valid enum value for path `package`."]).

Definition validationMessage (errors : list string) : string :=
  "Build validation failed: " +:+
  foldr (fun e rest => if bool_decide (rest = "") then e
                       else e +:+ ", " +:+ rest) "" errors.

(** [Build.create({ order, school, user, package, status, progress })]:
    the document is built with the schema defaults, among them
    [expiresAt] (a reading of the clock), and validated.  The hook
    [pre('save')] that would fill [buildId] in runs after validation, so
    the [required] validator of [buildId] fails: the promise is rejected
    with a [ValidationError] and nothing is stored. *)
Definition Build_create (o s u : nat) (pkg : string) : M World Build :=
  let! t0 := now in
  throw (validationMessage (validationErrors pkg)).

(** *** utils/queue.js *)

(** [QueueManager.add(queueName, data)] *)
Definition queue_add (queueName : string) (id : string) : M World unit :=
  if bool_decide (queueName ∈ queueNames) then
    if bool_decide (queueName = "build")
    then modify (fun w => with_jobs (jobs w ++ [id]) w)
    else ret tt
  else throw ("Queue " +:+ queueName +:+ " not found").

(** *** BuildService.createBuild *)

Definition createBuild (orderOid schoolOid userId : nat) : M World BuildResult :=
  tryCatch
    (let! w := get in
     match Order_findById orderOid w, School_findById schoolOid w with
     | Some order, Some _ =>
         let! build := Build_create orderOid schoolOid userId (o_packageType order) in
         ret {| r_success := true; r_buildId := buildId build;
                r_downloadUrl := None;
                r_message := "Build queued successfully" |}
     | _, _ => throw "Order or school not found"
     end)
    (fun error => throw error).

(** *** BuildController *)

(** The order of a start request: [Order.findOne({ orderId, user,
    'payment.status': 'completed', status: 'confirmed' })]. *)
Definition Order_findForStart (oid : string) (userId : nat) (w : World)
  : option (nat * Order) :=
  list_find (fun o => orderId o = oid ∧ o_user o = userId ∧
                      o_paymentStatus o = "completed" ∧
                      o_status o = "confirmed") (orders w).

(** [.populate('school')]: the [_id] of the order's school, when the
    school exists. *)
Definition populatedSchool (o : Order) (w : World) : option nat :=
  o_school o ≫= fun s => (fun _ => s) <$> School_findById s w.

Definition startBuild_body (oid : string) (userId : nat) : M World Response :=
  let! w := get in
  match Order_findForStart oid userId w with
  | None => ret (Json 400 false "Order not found or payment not completed" [])
  | Some (orderOid, order) =>
      match populatedSchool order w with
      | None => ret (Json 400 false "School not set up for this order" [])
      | Some schoolOid =>
          match Build_findByOrder orderOid w with
          | Some (_, existingBuild) =>
              ret (Json 400 false "Build already exists for this order"
                        [("buildId", buildId existingBuild)])
          | None =>
              let! build := createBuild orderOid schoolOid userId in
              do! queue_add "process-build" (r_buildId build) in
              ret (Json 200 true "Build process started"
                        [("buildId", r_buildId build)])
          end
      end
  end.

Definition startBuild (oid : string) (userId : nat) : World -> Response * World :=
  handler (startBuild_body oid userId).

(** [Build.findOne({ buildId }).populate({ path: 'order', match: { user } })]
    followed by the test [!build || !build.order]. *)
Definition findOwnedBuild (id : string) (userId : nat) (w : World)
  : option (nat * Build) :=
  match Build_findOne id w with
  | Some (i, b) =>
      match Order_findById (order b) w with
      | Some o => if bool_decide (o_user o = userId) then Some (i, b) else None
      | None => None
      end
  | None => None
  end.

(** [build.save()] of a handler: the document at position [i] is
    replaced by the handler's copy. *)
Definition Build_save (i : nat) (b : Build) : M World unit :=
  modify (fun w => with_builds (<[i := b]> (builds w)) w).

Definition notFound : Response :=
  Json 404 false "Build not found or access denied" [].

Definition retryBuild_body (id : string) (userId : nat) : M World Response :=
  let! w := get in
  match findOwnedBuild id userId w with
  | None => ret notFound
  | Some (i, build) =>
      if negb (bool_decide (status build = Failed)) then
        ret (Json 400 false "Only failed builds can be retried" [])
      else
        let build := set_status Queued build in
        let build := set_progress 0 build in
        let build := set_stages [] build in
        let build := set_error None build in
        let build := set_startedAt None build in
        let build := set_completedAt None build in
        do! Build_save i build in
        do! queue_add "process-build" id in
        ret (Json 200 true "Build retry queued" [("buildId", id)])
  end.

Definition retryBuild (id : string) (userId : nat) : World -> Response * World :=
  handler (retryBuild_body id userId).

Definition cancelBuild_body (id : string) (userId : nat) : M World Response :=
  let! w := get in
  match findOwnedBuild id userId w with
  | None => ret notFound
  | Some (i, build) =>
      if negb (bool_decide (status build ∈ [Queued; Processing])) then
        ret (Json 400 false "Only queued or processing builds can be cancelled" [])
      else
        let build := set_status Cancelled build in
        let! t := now in
        let build := set_completedAt (Some t) build in
        do! Build_save i build in
        do! Order_findByIdAndUpdate (order build)
              (set_o_status "cancelled" "cancelled") in
        ret (Json 200 true "Build cancelled successfully" [])
  end.

Definition cancelBuild (id : string) (userId : nat) : World -> Response * World :=
  handler (cancelBuild_body id userId).

(** *** BuildService.incrementDownloadCount *)

(** [Build.findOneAndUpdate({ buildId }, { $inc: { downloadCount: 1 },
    lastDownloadAt: new Date() })] *)
Definition incrementDownloadCount (id : string) : M World unit :=
  let! t := now in
  let! w := get in
  match Build_findOne id w with
  | Some (i, _) =>
      modify (fun w => with_builds
        (alter (fun b => set_lastDownloadAt (Some t)
                           (set_downloadCount (downloadCount b + 1)%Z b))
               i (builds w)) w)
  | None => ret tt
  end.

(** *** DownloadController *)


Definition downloadSystem_body (id : string) (userId : nat) : M World Response :=
  let! w := get in
  match findOwnedBuild id userId w with
  | None => ret notFound
  | Some (i, build) =>
      if negb (bool_decide (status build = Completed)) then
        ret (Json 400 false "Build is not yet completed" [])
      else
      match downloadUrl build with
      | Some url =>
          if bool_decide (url = "") then
            ret (Json 400 false "Download URL not available" [])
          else
            do! incrementDownloadCount id in
            ret (Redirect url)
      | None => ret (Json 400 false "Download URL not available" [])
      end
  end.

Definition downloadSystem (id : string) (userId : nat) : World -> Response * World :=
  handler (downloadSystem_body id userId).

(** [build.expiresAt && new Date() > build.expiresAt] *)
Definition expired (b : Build) : M World bool :=
  match expiresAt b with
  | Some e => let! t := now in ret (bool_decide (e < t)%Z)
  | None => ret false
  end.

Definition generateNewLink_body (id : string) (userId : nat) : M World Response :=
  let! w := get in
  match findOwnedBuild id userId w with
  | None => ret notFound
  | Some (i, build) =>
      if negb (bool_decide (status build = Completed)) then
        ret (Json 400 false "Build is not yet completed" [])
      else
        let! isExpired := expired build in
        if isExpired then
          ret (Json 400 false
                 "Download link has expired. Please contact support." [])
        else
          let fileKey := packageKey id in
          let! newUrl := await (s3SignedUrl env fileKey SIGNED_URL_TTL) in
          let build := set_downloadUrl (Some newUrl) build in
          do! Build_save i build in
          ret (Json 200 true "New download link generated"
                    [("downloadUrl", newUrl)])
  end.

Definition generateNewLink (id : string) (userId : nat) : World -> Response * World :=
  handler (generateNewLink_body id userId).

End Backend.

(** ** Requests that may be served while a build is running *)

Inductive Request :=
| ReqStart (oid : string) (userId : nat)
| ReqRetry (id : string) (userId : nat)
| ReqCancel (id : string) (userId : nat)
| ReqDownload (id : string) (userId : nat)
| ReqRegenerate (id : string) (userId : nat).

Definition serve (env : Env) (r : Request) : World -> Response * World :=
  match r with
  | ReqStart oid u => startBuild env oid u
  | ReqRetry id u => retryBuild id u
  | ReqCancel id u => cancelBuild env id u
  | ReqDownload id u => downloadSystem env id u
  | ReqRegenerate id u => generateNewLink env id u
  end.

(** The server handles the requests [reqs], one after the other. *)
Fixpoint serveAll (env : Env) (reqs : list Request) (w : World)
  : list Response * World :=
  match reqs with
  | [] => ([], w)
  | req :: reqs' =>
      let (resp, w1) := serve env req w in
      let (resps, w2) := serveAll env reqs' w1 in
      (resp :: resps, w2)
  end.

(** ** The orchestrator: BuildService.processBuild *)

(** The local variable [build] of [processBuild]: the position of the
    document in the collection, the in-memory document, and the values it
    had when it was last loaded or saved. *)
Record Doc := {
  pos : nat;
  mem : Build;
  base : Build
}.

(** The value [build.save()] leaves in a path of the stored document: the
    in-memory value when the path is modified, the stored value otherwise. *)
Definition written {A} `{EqDecision A} (f : Build -> A) (b m d : Build) : A :=
  if decide (f m = f b) then f d else f m.

(** [build.save()] writes the modified paths only.  [processBuild] assigns
    to eight paths; the others are never modified. *)
Definition writeModified (b m d : Build) : Build :=
  {| buildId := buildId d; order := order d; school := school d; user := user d;
     package := package d;
     status := written status b m d;
     progress := written progress b m d;
     stages := written stages b m d;
     downloadUrl := written downloadUrl b m d;
     downloadCount := downloadCount d; lastDownloadAt := lastDownloadAt d;
     buildLogs := buildLogs d;
     error := written error b m d;
     startedAt := written startedAt b m d;
     completedAt := written completedAt b m d;
     expiresAt := expiresAt d;
     metadata := written metadata b m d;
     createdAt := createdAt d |}.

(** The state of one call of [processBuild]: the world and the local
    variable [build].  Two further components only observe the run: every
    version of the document that a save has persisted, and the responses
    to the requests served meanwhile, both oldest first. *)
Record Run := {
  world : World;
  var_build : option Doc;
  saved : list Build;
  served : list Response
}.

Definition with_world (v : World) (r : Run) : Run :=
  {| world := v; var_build := var_build r; saved := saved r; served := served r |}.

Definition startRun (w : World) : Run :=
  {| world := w; var_build := None; saved := []; served := [] |}.

(** A computation on the world, inside a run. *)
Definition liftW {A} (m : M World A) : M Run A :=
  fun r => match m (world r) with (o, w') => (o, with_world w' r) end.

Definition templateDir : string := "templates".
Definition buildsDir : string := "builds".
Definition path_join (a b : string) : string := a +:+ "/" +:+ b.

Definition nullDeref {S A} (prop : string) : M S A :=
  throw ("Cannot read properties of null (reading '" +:+ prop +:+ "')").

Section Orchestrator.

Variable env : Env.

(** [conc k]: the requests that the server handles while the run
    is suspended at point [k].  A run is suspended whenever it awaits,
    and what another request then finds in the database depends on the
    database operations of the run that came before; so there is a point
    after each of them, numbered in the order of the program text:
    0 after [Build.findOne], 1 after the first save, 2 after the school
    and 3 after the order has been read, 4, 6, 8, 10, 12 and 14 after the
    save that starts a stage (while the work of the stage is awaited), 5,
    7, 9, 11, 13 and 15 after the save of its progress, 16 after the save
    of the completed build, 17 and 18 after the updates of order and
    school, and in the [catch] block 19 after the save and 20 after the
    update of the order. *)
Variable conc : nat -> list Request.

Definition yield (k : nat) : M Run unit :=
  fun r => match conc k with
           | [] => (Done tt, r)
           | reqs =>
               let (resps, w') := serveAll env reqs (world r) in
               (Done tt, {| world := w'; var_build := var_build r;
                            saved := saved r;
                            served := served r ++ resps |})
           end.

(** [build.f = v] *)
Definition assign (upd : Build -> Build) : M Run unit :=
  fun r => match var_build r with
           | Some d =>
               (Done tt,
                {| world := world r;
                   var_build := Some {| pos := pos d; mem := upd (mem d);
                                        base := base d |};
                   saved := saved r; served := served r |})
           | None => (Done tt, r)
           end.

(** [build.save()] *)
Definition save : M Run unit :=
  fun r => match var_build r with
           | Some d =>
               let bs := alter (writeModified (base d) (mem d)) (pos d)
                               (builds (world r)) in
               (Done tt,
                {| world := with_builds bs (world r);
                   var_build := Some {| pos := pos d; mem := mem d;
                                        base := mem d |};
                   saved := saved r ++ option_list (bs !! pos d);
                   served := served r |})
           | None => (Done tt, r)
           end.

Definition theBuild : M Run Build :=
  fun r => match var_build r with
           | Some d => (Done (mem d), r)
           | None => (Threw "Cannot read properties of undefined", r)
           end.

Definition addBuildStage (name description : string) : M Run Stage :=
  let! t := liftW (now env) in
  let stage := {| st_name := name; st_status := "processing";
                  st_startedAt := Some t; st_completedAt := None;
                  st_error := None |} in
  let! build := theBuild in
  do! assign (set_stages (stages build ++ [stage])) in
  do! save in
  ret stage.

(** [build.stages.find(s => s.name === name && !s.completedAt)] and the
    update of the stage found. *)
Fixpoint completeFirst (name : string) (t : Z) (l : list Stage)
  : option (list Stage) :=
  match l with
  | [] => None
  | s :: l' =>
      if bool_decide (st_name s = name ∧ st_completedAt s = None) then
        Some ({| st_name := st_name s; st_status := "completed";
                 st_startedAt := st_startedAt s; st_completedAt := Some t;
                 st_error := st_error s |} :: l')
      else (fun r => s :: r) <$> completeFirst name t l'
  end.

Definition completeBuildStage (name : string) : M Run unit :=
  let! build := theBuild in
  match list_find (fun s => st_name s = name ∧ st_completedAt s = None)
                  (stages build) with
  | Some _ =>
      let! t := liftW (now env) in
      match completeFirst name t (stages build) with
      | Some l => do! assign (set_stages l) in save
      | None => ret tt
      end
  | None => ret tt
  end.

Definition copyDirectory (source destination : string) : M Run unit :=
  do! await (copyDirectoryIO env source destination) in
  liftW (modify (fun w => with_copies (copies w ++ [(source, destination)]) w)).

(** [templatePath] is declared [const]: the assignment in the [catch]
    block throws a [TypeError]. *)
Definition copyTemplate (packageType destination : string) : M Run unit :=
  let templatePath := path_join templateDir packageType in
  do! tryCatch (await (fsAccess env templatePath))
        (fun _ => throw "Assignment to constant variable.") in
  copyDirectory templatePath destination.

Definition exists_ (o : Outcome unit) : bool :=
  match o with Done _ => true | Threw _ => false end.

Definition configureSystem (buildPath : string)
    (school : option (School * option User)) (order : option Order)
  : M Run unit :=
  do! await (fsMkdir env (path_join buildPath "config")) in
  match school with
  | None => nullDeref "_id"
  | Some (_, createdBy) =>
      match order with
      | None => nullDeref "package"
      | Some _ =>
          match createdBy with
          | None => nullDeref "email"
          | Some _ => await (configFilesIO env buildPath)
          end
      end
  end.

Definition generateDatabase (buildPath : string)
    (school : option (School * option User)) (order : option Order)
  : M Run string :=
  let dbPath := path_join buildPath "database" in
  do! await (fsMkdir env dbPath) in
  match school with
  | None => nullDeref "createdBy"
  | Some (_, createdBy) =>
      match createdBy with
      | None => nullDeref "email"
      | Some _ =>
          match order with
          | None => nullDeref "package"
          | Some _ =>
              let dbFile := path_join dbPath "initial-data.json" in
              do! await (databaseFileIO env dbFile) in
              ret dbFile
          end
      end
  end.

Definition installDependencies (buildPath : string) : M Run unit :=
  let packageJsonPath := path_join buildPath "package.json" in
  if exists_ (fsAccess env packageJsonPath) then
    tryCatch (await (npmInstall env buildPath)) (fun _ => ret tt)
  else ret tt.

(** [fs] is [require('fs').promises]: it has no [createWriteStream], and
    the call throws a [TypeError] before the archiver is set up. *)
Definition createPackage (id buildPath : string) : M Run string :=
  let outputPath := path_join buildsDir (id +:+ ".zip") in
  throw "fs.createWriteStream is not a function".

Definition uploadToStorage (id packageFile dbFile : string) : M Run string :=
  tryCatch
    (do! await (s3UploadFile env packageFile (packageKey id)) in
     do! await (s3UploadFile env dbFile (dbKey id)) in
     let! signedUrl := await (s3SignedUrl env (packageKey id) SIGNED_URL_TTL) in
     ret signedUrl)
    (fun error => throw error).

Definition sendBuildCompletionNotification (m : Mail) : M Run unit :=
  do! await (sendMail env m) in
  liftW (modify (fun w => with_outbox (outbox w ++ [m]) w)).

(** Failing to remove the build directory is logged, not raised. *)
Definition cleanupBuild (buildPath : string) : M Run unit :=
  tryCatch (await (fsRm env buildPath)) (fun _ => ret tt).

(** [School.findById(id).populate('createdBy', 'email fullName')] *)
Definition School_findPopulated (s : nat) (w : World)
  : option (School * option User) :=
  (fun sc => (sc, users w !! s_createdBy sc)) <$> School_findById s w.

Definition theWorld : M Run World := fun r => (Done (world r), r).

(** [build = await Build.findOne(...)] *)
Definition setBuild (found : nat * Build) : M Run unit :=
  fun r => (Done tt,
            {| world := world r;
               var_build := Some {| pos := fst found; mem := snd found;
                                    base := snd found |};
               saved := saved r; served := served r |}).

(** The six stages and the completion of the build: the [try] block of
    [processBuild] from the point where the build is marked as processing. *)
Definition processBuild_stages (id : string) : M Run BuildResult :=
  let! build := theBuild in
  (* Fetch school and order data *)
  let! w := theWorld in
  let theSchool := School_findPopulated (school build) w in
  do! yield 2 in
  let! w := theWorld in
  let theOrder := Order_findById (order build) w in
  do! yield 3 in
  (* Create build directory *)
  let buildPath := path_join buildsDir id in
  do! await (fsMkdir env buildPath) in
  (* Stage 1: Copy template *)
  do! addBuildStage "copy_template" "Copying template files..." in
  do! yield 4 in
  do! copyTemplate (package build) buildPath in
  do! assign (set_progress 20) in
  do! save in
  do! yield 5 in
  (* Stage 2: Configure system *)
  do! addBuildStage "configuration" "Configuring system..." in
  do! yield 6 in
  do! configureSystem buildPath theSchool theOrder in
  do! assign (set_progress 40) in
  do! save in
  do! yield 7 in
  (* Stage 3: Generate database *)
  do! addBuildStage "database" "Generating database..." in
  do! yield 8 in
  let! dbFile := generateDatabase buildPath theSchool theOrder in
  do! assign (set_progress 60) in
  do! save in
  do! yield 9 in
  (* Stage 4: Install dependencies *)
  do! addBuildStage "dependencies" "Installing dependencies..." in
  do! yield 10 in
  do! installDependencies buildPath in
  do! assign (set_progress 80) in
  do! save in
  do! yield 11 in
  (* Stage 5: Create package *)
  do! addBuildStage "packaging" "Creating package..." in
  do! yield 12 in
  let! packageFile := createPackage id buildPath in
  do! assign (set_progress 90) in
  do! save in
  do! yield 13 in
  (* Stage 6: Upload to storage *)
  do! addBuildStage "upload" "Uploading to storage..." in
  do! yield 14 in
  let! url := uploadToStorage id packageFile dbFile in
  do! assign (set_progress 100) in
  do! save in
  do! yield 15 in
  (* Update build with success *)
  do! assign (set_status Completed) in
  let! t := liftW (now env) in
  do! assign (set_completedAt (Some t)) in
  do! assign (set_downloadUrl (Some url)) in
  let! build := theBuild in
  do! assign (set_metadata (Some
        {| buildTime := (t - default 0 (startedAt build))%Z;
           fileSize := statSize env packageFile;
           version := "1.0.0";
           dependencies := packageDeps env buildPath |})) in
  do! save in
  do! yield 16 in
  (* Update order *)
  do! liftW (Order_findByIdAndUpdate (order build)
        (fun o => set_o_downloadUrl (Some url)
                    (set_o_status "completed" "completed" o))) in
  do! yield 17 in
  (* Update school *)
  let! t' := liftW (now env) in
  do! liftW (School_findByIdAndUpdate (school build)
        (fun sc => {| s_name := s_name sc; s_createdBy := s_createdBy sc;
                      s_status := "active";
                      s_metaBuildId := Some id;
                      s_metaDownloadUrl := Some url;
                      s_metaLastUpdate := Some t' |})) in
  do! yield 18 in
  (* Send completion email *)
  match theSchool with
  | None => nullDeref "name"
  | Some (sc, createdBy) =>
      match createdBy with
      | None => nullDeref "email"
      | Some u =>
          do! sendBuildCompletionNotification
                {| m_to := email u; m_template := "build-complete";
                   m_buildId := id; m_downloadUrl := url |} in
          (* Clean up local files *)
          do! cleanupBuild buildPath in
          ret {| r_success := true; r_buildId := id;
                 r_downloadUrl := Some url;
                 r_message := "Build completed successfully" |}
      end
  end.

(** The statements under [// Update build status]: the build is marked
    as processing and saved. *)
Definition markProcessing : M Run unit :=
  do! assign (set_status Processing) in
  let! t := liftW (now env) in
  do! assign (set_startedAt (Some t)) in
  do! assign (set_stages []) in
  save.

Definition processBuild_try (id : string) : M Run BuildResult :=
  let! w := theWorld in
  match Build_findOne id w with
  | None => throw "Build not found"
  | Some found =>
      do! setBuild found in
      do! yield 0 in
      do! markProcessing in
      do! yield 1 in
      processBuild_stages id
  end.

Definition processBuild_catch (error : string) : M Run BuildResult :=
  fun r =>
    match var_build r with
    | Some d =>
        let build := mem d in
        (do! assign (set_status Failed) in
         do! assign (set_error (Some error)) in
         let! t := liftW (now env) in
         do! assign (set_completedAt (Some t)) in
         do! save in
         do! yield 19 in
         do! liftW (Order_findByIdAndUpdate (order build)
               (set_o_status "failed" "failed")) in
         do! yield 20 in
         throw error) r
    | None => throw error r
    end.

(** The whole run, with the record of what it persisted. *)
Definition processBuild_run (id : string) (w : World) : Outcome BuildResult * Run :=
  tryCatch (processBuild_try id) processBuild_catch (startRun w).

Definition processBuild (id : string) (w : World) : Outcome BuildResult * World :=
  match processBuild_run id w with (o, r) => (o, world r) end.

End Orchestrator.

(** A run during which no other request is served. *)
Definition alone : nat -> list Request := fun _ => [].

(** * Specification-side definitions *)

(** Everything but the clock position is the same. *)
Definition same_data (w w' : World) : Prop :=
  builds w' = builds w /\ orders w' = orders w /\ schools w' = schools w /\
  users w' = users w /\ jobs w' = jobs w /\ outbox w' = outbox w /\
  copies w' = copies w.

(** What the specification calls [resetForRetry()]: the run-scoped fields
    are cleared, every other field is kept. *)
Definition resetForRetry (b : Build) : Build :=
  {| buildId := buildId b; order := order b; school := school b; user := user b;
     package := package b; status := Queued; progress := 0;
     stages := []; downloadUrl := downloadUrl b;
     downloadCount := downloadCount b; lastDownloadAt := lastDownloadAt b;
     buildLogs := buildLogs b; error := None; startedAt := None;
     completedAt := None; expiresAt := expiresAt b;
     metadata := metadata b; createdAt := createdAt b |}.

(** A build cancelled at time [t]. *)
Definition cancelled (t : Z) (b : Build) : Build :=
  set_completedAt (Some t) (set_status Cancelled b).

(** A build downloaded once more, at time [t]. *)
Definition downloaded (t : Z) (b : Build) : Build :=
  set_lastDownloadAt (Some t) (set_downloadCount (downloadCount b + 1)%Z b).

(** [expiresAt] has passed at time [t]. *)
Definition expiredAt (t : Z) (b : Build) : bool :=
  match expiresAt b with
  | Some e => bool_decide (e < t)%Z
  | None => false
  end.

(** ** Triples for the state-and-exception monad *)

(** From a state in [P], [m] either returns [a] in a state in [Q a] or
    throws [e] in a state in [E e]. *)
Definition triple {S A} (P : S -> Prop) (m : M S A)
    (Q : A -> S -> Prop) (E : string -> S -> Prop) : Prop :=
  forall s, P s ->
    match m s with
    | (Done a, s') => Q a s'
    | (Threw e, s') => E e s'
    end.

(** [K] holds of the state after [m], however [m] ends. *)
Definition preserves {S A} (K : S -> Prop) (m : M S A) : Prop :=
  forall s, K s -> K (snd (m s)).

(** [m] never returns: from every state it throws. *)
Definition throws {S A} (m : M S A) : Prop :=
  forall s, exists e s', m s = (Threw e, s').

(** A build with its run-scoped paths blanked: what is left are the paths
    that [processBuild] never assigns. *)
Definition frame (b : Build) : Build :=
  {| buildId := buildId b; order := order b; school := school b; user := user b;
     package := package b; status := Queued; progress := 0;
     stages := []; downloadUrl := None;
     downloadCount := downloadCount b; lastDownloadAt := lastDownloadAt b;
     buildLogs := buildLogs b; error := None; startedAt := None;
     completedAt := None; expiresAt := expiresAt b;
     metadata := None; createdAt := createdAt b |}.

(** The state of a run that nothing interferes with: the variable [build]
    holds document [i], the stored document is the one last saved, and all
    other documents are those of the world [w0] the run started in.  [X]
    is what is known of the in-memory document, the stored one and the
    world at the current point of the run. *)
Definition tracking (w0 : World) (i : nat) (b : Build)
    (X : Build -> Build -> World -> Prop) (r : Run) : Prop :=
  exists m st,
    var_build r = Some {| pos := i; mem := m; base := st |} /\
    builds (world r) = <[i := st]> (builds w0) /\
    frame m = frame b /\ frame st = frame b /\
    X m st (world r).

(** [X] does not depend on the parts of the world a run may change
    outside the documents it updates. *)
Definition wstable (X : Build -> Build -> World -> Prop) : Prop :=
  forall m st w w',
    orders w' = orders w -> schools w' = schools w -> users w' = users w ->
    X m st w -> X m st w'.

(** [X] survives a save, after which the stored document is the one in
    memory. *)
Definition sstable (X : Build -> Build -> World -> Prop) : Prop :=
  forall m st w, X m st w -> X m m w.

(** What the collaborators may raise ([Ee]) and what object storage may
    return as a signed URL ([Eu]). *)
Record Raises (Ee Eu : string -> Prop) (env : Env) : Prop := {
  raises_mkdir : forall p e, fsMkdir env p = Threw e -> Ee e;
  raises_copy : forall p q e, copyDirectoryIO env p q = Threw e -> Ee e;
  raises_config : forall p e, configFilesIO env p = Threw e -> Ee e;
  raises_database : forall p e, databaseFileIO env p = Threw e -> Ee e;
  raises_stream : Ee "fs.createWriteStream is not a function";
  raises_upload : forall p q e, s3UploadFile env p q = Threw e -> Ee e;
  raises_signed : forall k t e, s3SignedUrl env k t = Threw e -> Ee e;
  returns_signed : forall k t u, s3SignedUrl env k t = Done u -> Eu u;
  raises_mail : forall m e, sendMail env m = Threw e -> Ee e;
  raises_const : Ee "Assignment to constant variable.";
  raises_null : forall prop,
    Ee ("Cannot read properties of null (reading '" +:+ prop +:+ "')")
}.

(** The shape of the specification of a stage: the invariant is kept, and
    what is raised is in [Ee]. *)
Definition keeps {A} (w0 : World) (i : nat) (b : Build) (Ee : string -> Prop)
    (X : Build -> Build -> World -> Prop) (m : M Run A) : Prop :=
  triple (tracking w0 i b X) m (fun _ => tracking w0 i b X)
         (fun e r => Ee e /\ tracking w0 i b X r).

(** ** Phases of a run *)

(** The six stages, in order. *)
Definition stageNames : list string :=
  ["copy_template"; "configuration"; "database"; "dependencies";
   "packaging"; "upload"].

(** In the stages: no download URL has been assigned and the orders are
    untouched. *)
Definition inStages (w0 : World) (b : Build) : Build -> Build -> World -> Prop :=
  fun m _ w => downloadUrl m = downloadUrl b /\ orders w = orders w0.

(** A stage that has been started and not completed. *)
Definition openStage (s : Stage) : Prop :=
  st_status s = "processing" /\ st_completedAt s = None.

(** The first [k] stages have been started, in order, and none of them
    has been completed. *)
Definition stagesOpen (k : nat) (m : Build) : Prop :=
  st_name <$> stages m = take k stageNames /\ Forall openStage (stages m).

(** In stage [k]: the first [k] stages are open, and schools and users
    are those of [w0]. *)
Definition atStage (w0 : World) (k : nat) (m : Build) (w : World) : Prop :=
  stagesOpen k m /\ schools w = schools w0 /\ users w = users w0.

(** In stage [k], with progress [p]. *)
Definition staged (w0 : World) (b : Build) (k : nat) (p : Z)
  : Build -> Build -> World -> Prop :=
  fun m st w => inStages w0 b m st w /\ atStage w0 k m w /\ progress m = p.

(** After the [catch] block of a run that raised [e]. *)
Definition failedWith (w0 : World) (b : Build) (e : string)
  : Build -> Build -> World -> Prop :=
  fun m st w =>
    st = m /\ status m = Failed /\ error m = Some e /\
    is_Some (completedAt m) /\ downloadUrl m = downloadUrl b /\
    orders w = alter (set_o_status "failed" "failed") (order b) (orders w0).

(** A property of the record of persisted versions. *)
Definition onSaved (Ks : list Build -> Prop) (r : Run) : Prop := Ks (saved r).

(** [P], and the progress values persisted so far are [sv]. *)
Definition withLog (P : Run -> Prop) (sv : list Z) (r : Run) : Prop :=
  P r /\ progress <$> saved r = sv.

(** The first version that the run has persisted has status processing. *)
Definition firstProcessing : Run -> Prop :=
  onSaved (fun l => exists d l', l = d :: l' /\ status d = Processing).

(** ** The record invariant and the operations *)

Definition nonEmpty (s : string) : Prop := s <> "".

(** The collaborators raise errors that carry a message and object storage
    signs non-empty URLs. *)
Definition EnvOk (env : Env) : Prop := Raises nonEmpty nonEmpty env.




(** What a request handler may do to a stored build. *)
Definition handlerChange (env : Env) (req : Request) (b b' : Build) : Prop :=
  match req with
  | ReqStart _ _ => False
  | ReqRetry id _ => status b = Failed /\ b' = resetForRetry b /\ buildId b = id
  | ReqCancel id _ =>
      (status b = Queued \/ status b = Processing) /\
      exists t, b' = cancelled t b
  | ReqDownload id _ =>
      status b = Completed /\ exists t, b' = downloaded t b
  | ReqRegenerate id _ =>
      status b = Completed /\
      exists url, s3SignedUrl env (packageKey id) SIGNED_URL_TTL = Done url /\
                  b' = set_downloadUrl (Some url) b
  end.

(** * Scenarios *)

(** An environment in which the clock advances by a second per reading,
    the listed tiers have a template directory, and the file system,
    object storage and the mailer do what they are asked. *)
Definition scenarioEnv (t0 : Z) (tiers : list string) : Env :=
  {| clock := fun n => (t0 + Z.of_nat n * 1000)%Z;
     fsAccess := fun p =>
       if bool_decide (p ∈ (path_join templateDir <$> tiers)) then Done tt
       else Threw ("ENOENT: no such file or directory, access '" +:+ p +:+ "'");
     fsMkdir := fun _ => Done tt;
     copyDirectoryIO := fun _ _ => Done tt;
     configFilesIO := fun _ => Done tt;
     databaseFileIO := fun _ => Done tt;
     npmInstall := fun _ => Done tt;
     s3UploadFile := fun _ key =>
       Done ("https://bucket.s3.amazonaws.com/" +:+ key);
     s3SignedUrl := fun key ttl =>
       Done ("https://bucket.s3.amazonaws.com/" +:+ key +:+
             "?X-Amz-Expires=" +:+ pretty ttl);
     statSize := fun _ => 1024%Z;
     packageDeps := fun _ => [];
     sendMail := fun _ => Done tt;
     fsRm := fun _ => Done tt |}.

Definition okEnv : Env := scenarioEnv 1700000000000 ["medium"].


(** The same as [okEnv], forty days later. *)
Definition lateEnv : Env := scenarioEnv 1703456000000 ["medium"].

(** Order ORD-001, tier medium, paid and confirmed, its school set up,
    and no build. *)
Definition world0 : World :=
  {| builds := [];
     orders := [ {| orderId := "ORD-001"; o_user := 0; o_school := Some 0;
                    o_packageType := "medium"; o_packageDuration := "annually";
                    o_paymentStatus := "completed"; o_status := "confirmed";
                    o_buildStatus := "pending"; o_downloadUrl := None |} ];
     schools := [ {| s_name := "Hill School"; s_createdBy := 0;
                     s_status := "pending"; s_metaBuildId := None;
                     s_metaDownloadUrl := None; s_metaLastUpdate := None |} ];
     users := [ {| email := "head@hill.example"; fullName := "Head Teacher" |} ];
     jobs := []; outbox := []; copies := []; ticks := 0 |}.

Definition id1 : string := "BLD-1700000001000-A1B2C3".

(** A queued build for ORD-001, as the schema describes a new build: no
    run has touched it, and it expires thirty days after its creation. *)
Definition queuedBuild : Build :=
  {| buildId := id1; order := 0; school := 0; user := 0;
     package := "medium"; status := Queued; progress := 0;
     stages := []; downloadUrl := None; downloadCount := 0;
     lastDownloadAt := None; buildLogs := []; error := None;
     startedAt := None; completedAt := None;
     expiresAt := Some 1702592000000%Z;
     metadata := None; createdAt := 1700000001000 |}.

(** A database in which that build is stored. *)
Definition worldQueued : World := with_builds [queuedBuild] (with_ticks 3 world0).

Definition url1 : string :=
  "https://bucket.s3.amazonaws.com/builds/BLD-1700000001000-A1B2C3/school-system.zip?X-Amz-Expires=86400".

(** The build of ORD-001 completed: progress 100, the six stages, a
    download URL and the metadata of the package. *)
Definition completedBuild : Build :=
  {| buildId := id1; order := 0; school := 0; user := 0;
     package := "medium"; status := Completed; progress := 100;
     stages :=
       (fun st : string * Z =>
          {| st_name := fst st; st_status := "processing";
             st_startedAt := Some (snd st); st_completedAt := None;
             st_error := None |}) <$>
       [("copy_template", 1700000004000); ("configuration", 1700000005000);
        ("database", 1700000006000); ("dependencies", 1700000007000);
        ("packaging", 1700000008000); ("upload", 1700000009000)]%Z;
     downloadUrl := Some url1; downloadCount := 0;
     lastDownloadAt := None; buildLogs := []; error := None;
     startedAt := Some 1700000003000%Z;
     completedAt := Some 1700000010000%Z;
     expiresAt := Some 1702592000000%Z;
     metadata := Some {| buildTime := 7000; fileSize := 1024;
                         version := "1.0.0"; dependencies := [] |};
     createdAt := 1700000001000 |}.

(** A database in which the build of ORD-001 is stored as completed, with
    the order and the school updated and the completion mail sent. *)
Definition worldCompleted : World :=
  {| builds := [completedBuild];
     orders := [ {| orderId := "ORD-001"; o_user := 0; o_school := Some 0;
                    o_packageType := "medium"; o_packageDuration := "annually";
                    o_paymentStatus := "completed"; o_status := "completed";
                    o_buildStatus := "completed";
                    o_downloadUrl := Some url1 |} ];
     schools := [ {| s_name := "Hill School"; s_createdBy := 0;
                     s_status := "active"; s_metaBuildId := Some id1;
                     s_metaDownloadUrl := Some url1;
                     s_metaLastUpdate := Some 1700000011000%Z |} ];
     users := [ {| email := "head@hill.example"; fullName := "Head Teacher" |} ];
     jobs := [];
     outbox := [ {| m_to := "head@hill.example"; m_template := "build-complete";
                    m_buildId := id1; m_downloadUrl := url1 |} ];
     copies := [("templates/medium", "builds/BLD-1700000001000-A1B2C3")];
     ticks := 12 |}.

(** The owner cancels the build while the run is suspended at point [k]. *)
Definition cancelAt (k : nat) : nat -> list Request :=
  fun n => if bool_decide (n = k) then [ReqCancel id1 0] else [].


(** * Further definitions *)

(** models/Order.js: the values the schema allows for [buildStatus]. *)
Definition orderBuildStatusEnum : list string :=
  ["pending"; "building"; "completed"; "failed"].

(** What [Build.create] reports for a document that only lacks its
    [buildId]. *)
Definition buildIdRequired : string :=
  "Build validation failed: buildId: Path `buildId` is required.".

(** [n] download requests by the same user, one after the other. *)
Definition downloadTimes (env : Env) (id : string) (userId : nat) (n : nat)
  : World -> World :=
  Nat.iter n (fun w => snd (downloadSystem env id userId w)).

(** A request about build [id] by user [u]. *)
Definition aboutBuild (id : string) (u : nat) (req : Request) : Prop :=
  req = ReqRetry id u \/ req = ReqCancel id u \/
  req = ReqDownload id u \/ req = ReqRegenerate id u.

(** ** Any sequence of operations *)

(** The paths that identify a build: no operation assigns to them. *)
Definition sameIdentity (b b' : Build) : Prop :=
  buildId b' = buildId b /\ order b' = order b /\ school b' = school b /\
  user b' = user b /\ package b' = package b /\
  createdAt b' = createdAt b /\ expiresAt b' = expiresAt b.

(** From [w] to [w'] no build has been removed or has changed its
    identity, and no download counter has gone down. *)
Definition grows (w w' : World) : Prop :=
  forall j b, builds w !! j = Some b ->
    exists b', builds w' !! j = Some b' /\ sameIdentity b b' /\
               (downloadCount b <= downloadCount b')%Z.

(** The operations on the world, a dispatch being a run during which any
    requests may be served. *)
Inductive anyStep : World -> World -> Prop :=
| any_create env o s u w :
    anyStep w (snd (createBuild env o s u w))
| any_request env req w :
    anyStep w (snd (serve env req w))
| any_dispatch env conc id w :
    anyStep w (snd (processBuild env conc id w)).

(** The builds of [w'] are those of [w], one for one and with the same
    [buildId]s. *)
Definition sameBuilds (w w' : World) : Prop :=
  buildId <$> builds w' = buildId <$> builds w.

(** ** Properties of the state of a run *)

(** The world of the run satisfies [Kw]. *)
Definition inWorld (Kw : World -> Prop) (r : Run) : Prop := Kw (world r).

(** The mails sent so far are [v]. *)
Definition outboxIs (v : list Mail) (r : Run) : Prop := outbox (world r) = v.

(** An update of the in-memory document that leaves alone the paths that
    no run assigns and does not complete the build. *)
Definition quietUpdate (upd : Build -> Build) : Prop :=
  forall m, frame (upd m) = frame m /\
            (status m <> Completed -> status (upd m) <> Completed).

(** The build [b] with the paths assigned that [processBuild] assigns
    before its first save, at time [t]. *)
Definition processingAt (t : Z) (b : Build) : Build :=
  set_stages [] (set_startedAt (Some t) (set_status Processing b)).

(** The state of a run that has just found the build [b] at [i]. *)
Definition foundRun (w : World) (i : nat) (b : Build) : Run :=
  {| world := w; var_build := Some {| pos := i; mem := b; base := b |};
     saved := []; served := [] |}.

(** ** A run never completes a build *)

(** The build [id] is stored at [i] and is not completed, and it is the
    document that the variable [build] holds, not completed either. *)
Definition notCompleted (id : string) (i : nat) (r : Run) : Prop :=
  (exists st, Build_findOne id (world r) = Some (i, st) /\
              status st <> Completed) /\
  exists d, var_build r = Some d /\ pos d = i /\ status (mem d) <> Completed.

(** The same, when every response so far satisfies [Ps] and no version
    persisted so far is completed. *)
Definition sound (Ps : Response -> Prop) (id : string) (i : nat) (r : Run)
  : Prop :=
  Forall Ps (served r) /\
  Forall (fun d => status d <> Completed) (saved r) /\
  notCompleted id i r.

(** Between [Build.findOne] and the first save of a run on the build [b]
    found at [i]: the variable [build] holds [b], and the stored build is
    not completed unless [b] was. *)
Definition justLoaded (Ps : Response -> Prop) (id : string) (i : nat)
    (b : Build) (r : Run) : Prop :=
  Forall Ps (served r) /\ saved r = [] /\
  (exists st, Build_findOne id (world r) = Some (i, st) /\
              (status b <> Completed -> status st <> Completed)) /\
  var_build r = Some {| pos := i; mem := b; base := b |}.

(** ** A run whose stage operations succeed *)

(** The file operations of the first three stages succeed for the build
    [id] of tier [pkg]. *)
Definition stagesSucceed (env : Env) (id pkg : string) : Prop :=
  fsMkdir env (path_join buildsDir id) = Done tt /\
  fsAccess env (path_join templateDir pkg) = Done tt /\
  copyDirectoryIO env (path_join templateDir pkg) (path_join buildsDir id)
    = Done tt /\
  fsMkdir env (path_join (path_join buildsDir id) "config") = Done tt /\
  configFilesIO env (path_join buildsDir id) = Done tt /\
  fsMkdir env (path_join (path_join buildsDir id) "database") = Done tt /\
  databaseFileIO env
    (path_join (path_join (path_join buildsDir id) "database")
       "initial-data.json") = Done tt.

(** What [createPackage] throws. *)
Definition noWriteStream : string := "fs.createWriteStream is not a function".

(** The progress values that such a run persists for a build that had
    progress [p0]: each is persisted when it is assigned and again when
    the next stage is started, and the last of them once more in the
    [catch] block. *)
Definition progressLog (p0 : Z) : list Z :=
  [p0; p0; 20; 20; 40; 40; 60; 60; 80; 80; 80]%Z.

(** ** What the specification requires of a run that ends completed *)



(** ** A run on a build whose school or order is missing *)

(** The school of the build with its creator, and the order, as
    [processBuild] loads them: one of them is missing. *)
Definition dangling (b : Build) (w : World) : Prop :=
  School_findPopulated (school b) w = None \/
  (exists sc, School_findPopulated (school b) w = Some (sc, None)) \/
  Order_findById (order b) w = None.

(** The errors that can end a run of build [id] of tier [pkg] before the
    configuration is written: the build directory or its [config]
    directory cannot be made, the template cannot be copied, or the
    fallback assigns to the constant. *)
Definition earlyError (env : Env) (id pkg : string) (e : string) : Prop :=
  fsMkdir env (path_join buildsDir id) = Threw e \/
  e = "Assignment to constant variable." \/
  copyDirectoryIO env (path_join templateDir pkg) (path_join buildsDir id)
    = Threw e \/
  fsMkdir env (path_join (path_join buildsDir id) "config") = Threw e.

(** A [TypeError] for a property read from [null]. *)
Definition nullError (e : string) : Prop :=
  exists prop, e = "Cannot read properties of null (reading '" +:+ prop +:+ "')".

(** The variable [build] holds a document of the order, school and tier
    of [b]; schools and users are those of [w0], and the orders are as
    many as those of [w0]. *)
Definition loaded (w0 : World) (b : Build) (r : Run) : Prop :=
  length (orders (world r)) = length (orders w0) /\
  schools (world r) = schools w0 /\
  users (world r) = users w0 /\
  exists d, var_build r = Some d /\ school (mem d) = school b /\
            order (mem d) = order b /\ package (mem d) = package b.

(** ** Downloads during a run *)

Definition notRedirect (resp : Response) : Prop :=
  forall url, resp <> Redirect url.

(** The download requests served during the run are for build [id]. *)
Definition downloadsOf (id : string) (conc : nat -> list Request) : Prop :=
  forall k id' u, ReqDownload id' u ∈ conc k -> id' = id.

(** None of them is served at point 0, between [Build.findOne] and the
    first save of the run. *)
Definition afterFirstSave (id : string) (conc : nat -> list Request) : Prop :=
  forall u, ReqDownload id u ∉ conc 0.

(** ** Status, download information and availability *)

(** models/Build.js, the virtual [estimatedTimeRemaining]: two seconds
    for each percent that is left, while the build is processing. *)
Definition estimatedTimeRemaining (b : Build) : Z :=
  if negb (bool_decide (status b = Processing)) then 0%Z
  else
    let averageTimePerPercent := 2000%Z in
    ((100 - progress b) * averageTimePerPercent / 1000)%Z.

(** What [BuildService.getBuildStatus] returns.  Of the populated school
    the name is kept, of the populated order its [orderId] and tier. *)
Record StatusView := {
  v_buildId : string;
  v_status : BuildStatus;
  v_progress : Z;
  v_stages : list Stage;
  v_downloadUrl : option string;
  v_downloadCount : Z;
  v_createdAt : Z;
  v_startedAt : option Z;
  v_completedAt : option Z;
  v_estimatedTimeRemaining : Z;
  v_school : option string;
  v_order : option (string * string)
}.

(** The answer of a handler that sends data: [res.status(200).json({
    success: true, data })], [res.status(code).json({ success: false,
    message })] or [next(error)]. *)
Inductive Reply (A : Type) :=
| Ok (data : A)
| Refused (code : nat) (message : string)
| Next (msg : string).
Arguments Ok {A} data.
Arguments Refused {A} code message.
Arguments Next {A} msg.

Definition reply {A} (m : M World (Reply A)) (w : World) : Reply A * World :=
  match m w with
  | (Done r, w') => (r, w')
  | (Threw e, w') => (Next e, w')
  end.

Module BuildService.

(** [getBuildStatus(buildId)] *)
Definition getBuildStatus (id : string) : M World StatusView :=
  let! w := get in
  match Build_findOne id w with
  | None => throw "Build not found"
  | Some (_, build) =>
      ret {| v_buildId := buildId build;
             v_status := status build;
             v_progress := progress build;
             v_stages := stages build;
             v_downloadUrl := downloadUrl build;
             v_downloadCount := downloadCount build;
             v_createdAt := createdAt build;
             v_startedAt := startedAt build;
             v_completedAt := completedAt build;
             v_estimatedTimeRemaining := estimatedTimeRemaining build;
             v_school := s_name <$> School_findById (school build) w;
             v_order := (fun o => (orderId o, o_packageType o)) <$>
                          Order_findById (order build) w |}
  end.

End BuildService.

Module BuildController.

(** [getBuildStatus(req, res, next)]: the order is populated if it is the
    user's, the school if the user created it, and both are required. *)
Definition getBuildStatus (id : string) (userId : nat)
  : World -> Reply StatusView * World :=
  reply
    (let! w := get in
     let populatedOrder (b : Build) :=
       match Order_findById (order b) w with
       | Some o => if bool_decide (o_user o = userId) then Some o else None
       | None => None
       end in
     let populatedSchool (b : Build) :=
       match School_findById (school b) w with
       | Some sc => if bool_decide (s_createdBy sc = userId) then Some sc else None
       | None => None
       end in
     match Build_findOne id w with
     | None => ret (Refused 404 "Build not found or access denied")
     | Some (_, build) =>
         match populatedOrder build, populatedSchool build with
         | Some _, Some _ =>
             let! status := BuildService.getBuildStatus id in
             ret (Ok status)
         | _, _ => ret (Refused 404 "Build not found or access denied")
         end
     end).

End BuildController.

(** The receiver of a method of a controller: the controller, when the
    method is called on it; [undefined], when the function is handed to
    the router and called by it. *)
Inductive Receiver := Controller | Undefined.

(** The keys every object inherits from [Object.prototype]. *)
Definition objectPrototypeKeys : list string :=
  ["constructor"; "__defineGetter__"; "__defineSetter__"; "hasOwnProperty";
   "__lookupGetter__"; "__lookupSetter__"; "isPrototypeOf";
   "propertyIsEnumerable"; "toString"; "valueOf"; "__proto__";
   "toLocaleString"].

(** An installation guide, named by the key it has in [guides]; a lookup
    with an inherited key yields the inherited member. *)
Inductive Guide :=
| GuideSmall | GuideMedium | GuideLifetime | GuideEnterprise
| Inherited (key : string).

(** What [getDownloadInfo] sends. *)
Record DownloadInfo := {
  i_buildId : string;
  i_schoolName : option string;
  i_package : option string;
  i_status : BuildStatus;
  i_downloadUrl : option string;
  i_downloadCount : Z;
  i_lastDownloadAt : option Z;
  i_fileSize : option Z;
  i_version : option string;
  i_expiresAt : option Z;
  i_installationGuide : Guide
}.

(** The value of [isAvailable] in [verifyDownload]: a boolean, or the
    falsy [downloadUrl] that ended the conjunction. *)
Inductive Availability :=
| Available (yes : bool)
| NoUrl                   (* undefined: the key is left out of the JSON *)
| EmptyUrl.               (* the empty string *)

(** What [verifyDownload] sends. *)
Record Verification := {
  available : Availability;
  vf_status : BuildStatus;
  vf_expiresAt : option Z;
  vf_downloadCount : Z
}.

Module DownloadController.

Section Handlers.

Variable env : Env.

(** The [package] path of a school document, which the record [School]
    leaves out. *)
Variable schoolPackage : School -> string.

(** [getInstallationGuide(packageType)]: [guides[packageType] ||
    guides.small]. *)
Definition getInstallationGuide (packageType : option string) : Guide :=
  match packageType with
  | Some p =>
      if bool_decide (p = "small") then GuideSmall
      else if bool_decide (p = "medium") then GuideMedium
      else if bool_decide (p = "lifetime") then GuideLifetime
      else if bool_decide (p = "enterprise") then GuideEnterprise
      else if bool_decide (p ∈ objectPrototypeKeys) then Inherited p
      else GuideSmall
  | None => GuideSmall
  end.

(** [this.getInstallationGuide(...)] *)
Definition call_getInstallationGuide (this : Receiver)
    (packageType : option string) : M World Guide :=
  match this with
  | Controller => ret (getInstallationGuide packageType)
  | Undefined =>
      throw "Cannot read properties of undefined (reading 'getInstallationGuide')"
  end.

(** [getDownloadInfo(req, res, next)] *)
Definition getDownloadInfo (this : Receiver) (id : string) (userId : nat)
  : World -> Reply DownloadInfo * World :=
  reply
    (let! w := get in
     match findOwnedBuild id userId w with
     | None => ret (Refused 404 "Build not found or access denied")
     | Some (_, build) =>
         let theSchool := School_findById (school build) w in
         let! guide :=
           call_getInstallationGuide this (schoolPackage <$> theSchool) in
         ret (Ok {| i_buildId := buildId build;
                    i_schoolName := s_name <$> theSchool;
                    i_package := schoolPackage <$> theSchool;
                    i_status := status build;
                    i_downloadUrl :=
                      if bool_decide (status build = Completed)
                      then downloadUrl build else None;
                    i_downloadCount := downloadCount build;
                    i_lastDownloadAt := lastDownloadAt build;
                    i_fileSize := fileSize <$> metadata build;
                    i_version := version <$> metadata build;
                    i_expiresAt := expiresAt build;
                    i_installationGuide := guide |})
     end).

(** [verifyDownload(req, res, next)]: no user is required. *)
Definition verifyDownload (id : string) : World -> Reply Verification * World :=
  reply
    (let! w := get in
     match Build_findOne id w with
     | None => ret (Refused 404 "Build not found")
     | Some (_, build) =>
         let! isAvailable :=
           if negb (bool_decide (status build = Completed)) then
             ret (Available false)
           else
             match downloadUrl build with
             | None => ret NoUrl
             | Some url =>
                 if bool_decide (url = "") then ret EmptyUrl
                 else
                   match expiresAt build with
                   | None => ret (Available true)
                   | Some e =>
                       let! t := now env in
                       ret (Available (bool_decide (t < e)%Z))
                   end
             end in
         ret (Ok {| available := isAvailable;
                    vf_status := status build;
                    vf_expiresAt := expiresAt build;
                    vf_downloadCount := downloadCount build |})
     end).

End Handlers.

End DownloadController.

(** routes/downloads.js: [router.get('/info/:buildId', authenticate,
    downloadController.getDownloadInfo)].  The router calls the function
    it was given, with no receiver. *)
Definition route_getDownloadInfo (schoolPackage : School -> string)
  : string -> nat -> World -> Reply DownloadInfo * World :=
  DownloadController.getDownloadInfo schoolPackage Undefined.

(** A download is requested while the run is suspended at point [k]. *)
Definition downloadAt (id : string) (u k : nat) : nat -> list Request :=
  fun n => if bool_decide (n = k) then [ReqDownload id u] else [].

(** The world [worldQueued] without its schools. *)
Definition worldNoSchool : World := with_schools [] worldQueued.

(** The environment [okEnv] with the clock set so that its next reading
    in [worldCompleted] is the instant the build expires. *)
Definition atExpiry : Env :=
  scenarioEnv (1702592000000 - Z.of_nat (ticks worldCompleted) * 1000)
              ["medium"].


(** A run on [worldQueued] that has loaded the build. *)
Definition loadedRun : Run :=
  {| world := worldQueued;
     var_build := Some {| pos := 0; mem := queuedBuild; base := queuedBuild |};
     saved := []; served := [] |}.

(** ** The file system and [copyDirectory]

    The directory copy of [BuildService] on a model of the file system: a
    finite map from paths to what is there.  A path is the list of its
    components, so that [path.join(p, name)] is [p ++ [name]].  There
    are regular files and directories only, and the operations fail only
    for the reasons that the state of the file system gives. *)

Module Fs.

Inductive Kind :=
| IsFile (data : string)
| IsDir.

#[global] Instance Kind_eq_dec : EqDecision Kind.
Proof. solve_decision. Defined.

Abbreviation Path := (list string) (only parsing).

Abbreviation Disk := (gmap (list string) Kind) (only parsing).

(** [entry.isDirectory()] *)
Definition isDirectory (k : Kind) : bool :=
  match k with IsDir => true | IsFile _ => false end.

(** The rest of [q] after [p], when [q] is at or below [p]. *)
Fixpoint stripPrefix (p q : Path) : option Path :=
  match p, q with
  | [], _ => Some q
  | x :: p', y :: q' => if bool_decide (x = y) then stripPrefix p' q' else None
  | _ :: _, [] => None
  end.

(** The root is a directory and what exists is in a directory. *)
Definition wf (d : Disk) : Prop :=
  d !! [] = Some IsDir /\
  forall p x, is_Some (d !! (p ++ [x])) -> d !! p = Some IsDir.

(** [fs.mkdir(path, { recursive: true })], from the directory [at_]
    down: a directory that exists is left alone, one that is missing is
    made, and a file in the way is an error. *)
Fixpoint mkdirFrom (at_ rest : Path) (d : Disk) : Outcome Disk :=
  match d !! at_ with
  | Some (IsFile _) =>
      Threw (match rest with
             | [] => "EEXIST: file already exists, mkdir"
             | _ => "ENOTDIR: not a directory, mkdir"
             end)
  | _ =>
      let d' := <[at_ := IsDir]> d in
      match rest with
      | [] => Done d'
      | x :: rest' => mkdirFrom (at_ ++ [x]) rest' d'
      end
  end.

Definition mkdir (p : Path) : M Disk unit :=
  fun d => match mkdirFrom [] p d with
           | Done d' => (Done tt, d')
           | Threw e => (Threw e, d)
           end.

(** The entries of directory [p]. *)
Definition children (d : Disk) (p : Path) : list (string * Kind) :=
  omap (fun e : Path * Kind =>
          match stripPrefix p (fst e) with
          | Some [x] => Some (x, snd e)
          | _ => None
          end)
       (map_to_list d).

(** [fs.readdir(path, { withFileTypes: true })]: the name of each entry
    and whether it is a directory. *)
Definition readdir (p : Path) : M Disk (list (string * bool)) :=
  fun d => match d !! p with
           | Some IsDir =>
               (Done ((fun e => (fst e, isDirectory (snd e))) <$> children d p), d)
           | Some (IsFile _) => (Threw "ENOTDIR: not a directory, scandir", d)
           | None => (Threw "ENOENT: no such file or directory, scandir", d)
           end.

(** The directory a path is in. *)
Definition dirname (p : Path) : option Path :=
  match reverse p with
  | [] => None
  | _ :: r => Some (reverse r)
  end.

(** [fs.copyFile(src, dest)]: [dest] is created or overwritten. *)
Definition copyFile (src dest : Path) : M Disk unit :=
  fun d =>
    match d !! src with
    | None => (Threw "ENOENT: no such file or directory, copyfile", d)
    | Some IsDir => (Threw "EISDIR: illegal operation on a directory, copyfile", d)
    | Some (IsFile data) =>
        match d !! dest with
        | Some IsDir =>
            (Threw "EISDIR: illegal operation on a directory, copyfile", d)
        | _ =>
            match dirname dest ≫= fun q => d !! q with
            | Some IsDir => (Done tt, <[dest := IsFile data]> d)
            | Some (IsFile _) => (Threw "ENOTDIR: not a directory, copyfile", d)
            | None => (Threw "ENOENT: no such file or directory, copyfile", d)
            end
        end
    end.

(** A computation that may not come to an end: [None] when the fuel has
    run out. *)
Definition MF (A : Type) : Type := Disk -> option (Outcome A * Disk).

Definition liftF {A} (m : M Disk A) : MF A := fun d => Some (m d).

Definition bindF {A B} (m : MF A) (k : A -> MF B) : MF B :=
  fun d => match m d with
           | Some (Done a, d') => k a d'
           | Some (Threw e, d') => Some (Threw e, d')
           | None => None
           end.

(** [for (const entry of entries) { await body(entry) }] *)
Fixpoint forEach {A} (entries : list A) (body : A -> MF unit) : MF unit :=
  match entries with
  | [] => fun d => Some (Done tt, d)
  | entry :: rest => bindF (body entry) (fun _ => forEach rest body)
  end.

(** [BuildService.copyDirectory(source, destination)] *)
Fixpoint copyDirectory (fuel : nat) (source destination : Path) : MF unit :=
  match fuel with
  | 0 => fun _ => None
  | S fuel' =>
      bindF (liftF (mkdir destination)) (fun _ =>
      bindF (liftF (readdir source)) (fun entries =>
      forEach entries (fun entry =>
        let srcPath := source ++ [fst entry] in
        let destPath := destination ++ [fst entry] in
        if snd entry then copyDirectory fuel' srcPath destPath
        else liftF (copyFile srcPath destPath))))
  end.

(** What is at [q] after [source] has been copied to [destination]: below
    the destination what the source has at the same relative path, if
    anything; the destination and the directories above it; and
    otherwise what was there. *)
Definition copied (d : Disk) (source destination q : Path) : option Kind :=
  match stripPrefix destination q with
  | Some rel =>
      match d !! (source ++ rel) with
      | Some k => Some k
      | None => d !! q
      end
  | None =>
      if bool_decide (is_Some (stripPrefix q destination)) then Some IsDir
      else d !! q
  end.

(** The same when only the entries [names] of the source have been
    copied, into a destination that exists. *)
Definition copiedOf (d : Disk) (source destination : Path)
    (names : list string) (q : Path) : option Kind :=
  match stripPrefix destination q with
  | Some (x :: rel) =>
      if bool_decide (x ∈ names) then
        match d !! (source ++ x :: rel) with
        | Some k => Some k
        | None => d !! q
        end
      else d !! q
  | _ => d !! q
  end.

(** Nothing is [n] or more levels below [p]. *)
Definition shallow (d : Disk) (p : Path) (n : nat) : Prop :=
  forall rel, n <= length rel -> d !! (p ++ rel) = None.

(** Neither path is at or below the other. *)
Definition apart (p q : Path) : Prop :=
  stripPrefix p q = None /\ stripPrefix q p = None.

(** No file is in the way of the directory [p]. *)
Definition clearFor (d : Disk) (p : Path) : Prop :=
  forall q data, is_Some (stripPrefix q p) -> d !! q <> Some (IsFile data).

(** What is below the destination at the relative path of something of
    the source is of the same sort: a directory for a directory, a file
    for a file. *)
Definition compatible (d : Disk) (source destination : Path) : Prop :=
  forall rel k k',
    d !! (source ++ rel) = Some k -> d !! (destination ++ rel) = Some k' ->
    isDirectory k = isDirectory k'.

(** What [copyDirectory] with fuel [n] is expected to do. *)
Definition copiesWith (n : nat) : Prop :=
  forall (source destination : Path) (d : Disk),
    wf d -> d !! source = Some IsDir ->
    apart source destination ->
    clearFor d destination ->
    compatible d source destination ->
    shallow d source n ->
    exists d', copyDirectory n source destination d = Some (Done tt, d') /\
               wf d' /\
               forall q, d' !! q = copied d source destination q.

(** One more than the length of the longest path: fuel that is enough
    for any copy. *)
Definition depth (d : Disk) : nat :=
  S (max_list (length <$> (fst <$> map_to_list d))).

(** The checks of [wf], [clearFor] and [compatible]. *)
Definition wfb (d : Disk) : bool :=
  bool_decide (d !! [] = Some IsDir) &&
  forallb (fun e : list string * Kind =>
             match dirname (fst e) with
             | Some p => bool_decide (d !! p = Some IsDir)
             | None => true
             end)
          (map_to_list d).

Definition clearForb (d : Disk) (p : Path) : bool :=
  forallb (fun n => match d !! take n p with
                    | Some (IsFile _) => false
                    | _ => true
                    end)
          (seq 0 (S (length p))).

Definition compatibleb (d : Disk) (source destination : Path) : bool :=
  forallb (fun e : list string * Kind =>
             match stripPrefix source (fst e) with
             | Some rel =>
                 match d !! (destination ++ rel) with
                 | Some k' => bool_decide (isDirectory (snd e) = isDirectory k')
                 | None => true
                 end
             | None => true
             end)
          (map_to_list d).

(** A template with a file and a directory with a file in it, and a
    directory for the builds with what an earlier build left. *)
Definition disk0 : Disk :=
  list_to_map
    [ ([], IsDir);
      (["templates"], IsDir);
      (["templates"; "small"], IsDir);
      (["templates"; "small"; "index.js"], IsFile "app");
      (["templates"; "small"; "config"], IsDir);
      (["templates"; "small"; "config"; "db.json"], IsFile "{}");
      (["builds"], IsDir);
      (["builds"; "BLD-1"], IsDir);
      (["builds"; "BLD-1"; "index.js"], IsFile "old");
      (["builds"; "BLD-1"; "stale.log"], IsFile "log") ].

End Fs.

(** * Request handlers *)

Lemma queue_add_process_build (id : string) :
  queue_add "process-build" id = throw "Queue process-build not found".
Proof. reflexivity. Qed.

Lemma Build_findOne_Some id w i b :
  Build_findOne id w = Some (i, b) -> builds w !! i = Some b /\ buildId b = id.
Proof.
  unfold Build_findOne. intros H. apply list_find_Some in H. tauto.
Qed.

Lemma findOwnedBuild_Some id u w i b :
  findOwnedBuild id u w = Some (i, b) ->
  Build_findOne id w = Some (i, b) /\
  exists o, orders w !! order b = Some o /\ o_user o = u.
Proof.
  unfold findOwnedBuild, Order_findById.
  destruct (Build_findOne id w) as [[j c]|]; [|discriminate].
  destruct (orders w !! order c) as [o|] eqn:Ho; [|discriminate].
  case_bool_decide; [|discriminate].
  intros [= -> ->]. eauto.
Qed.

Lemma findOwnedBuild_lookup id u w i b :
  findOwnedBuild id u w = Some (i, b) -> builds w !! i = Some b.
Proof.
  intros H. apply findOwnedBuild_Some in H as [H _].
  apply Build_findOne_Some in H as [H _]. exact H.
Qed.

Lemma retryBuild_effect (id : string) (userId : nat) (w : World) :
  match findOwnedBuild id userId w with
  | None => retryBuild id userId w = (notFound, w)
  | Some (i, b) =>
      if decide (status b = Failed) then
        retryBuild id userId w =
          (NextError "Queue process-build not found",
           with_builds (<[i := resetForRetry b]> (builds w)) w)
      else
        retryBuild id userId w =
          (Json 400 false "Only failed builds can be retried" [], w)
  end.
Proof.
  unfold retryBuild, handler, retryBuild_body, bind, get.
  destruct (findOwnedBuild id userId w) as [[i b]|]; [|reflexivity].
  destruct (decide (status b = Failed)) as [Hs|Hs].
  - rewrite bool_decide_eq_true_2 by done. simpl. reflexivity.
  - rewrite bool_decide_eq_false_2 by done. reflexivity.
Qed.

Lemma cancelBuild_effect (env : Env) (id : string) (userId : nat) (w : World) :
  match findOwnedBuild id userId w with
  | None => cancelBuild env id userId w = (notFound, w)
  | Some (i, b) =>
      if decide (status b = Queued \/ status b = Processing) then
        cancelBuild env id userId w =
          (Json 200 true "Build cancelled successfully" [],
           with_orders
             (alter (set_o_status "cancelled" "cancelled") (order b) (orders w))
             (with_builds (<[i := cancelled (clock env (ticks w)) b]> (builds w))
                (with_ticks (S (ticks w)) w)))
      else
        cancelBuild env id userId w =
          (Json 400 false "Only queued or processing builds can be cancelled" [],
           w)
  end.
Proof.
  unfold cancelBuild, handler, cancelBuild_body, bind, get.
  destruct (findOwnedBuild id userId w) as [[i b]|]; [|reflexivity].
  destruct (decide (status b = Queued \/ status b = Processing)) as [Hs|Hs].
  - rewrite bool_decide_eq_true_2
      by (destruct Hs as [-> | ->]; repeat constructor).
    reflexivity.
  - rewrite bool_decide_eq_false_2; [reflexivity|].
    intros Hin. apply Hs.
    apply list_elem_of_In in Hin. simpl in Hin. intuition.
Qed.

Lemma incrementDownloadCount_found env id w i b :
  Build_findOne id w = Some (i, b) ->
  incrementDownloadCount env id w =
    (Done tt,
     with_builds (<[i := downloaded (clock env (ticks w)) b]> (builds w))
                 (with_ticks (S (ticks w)) w)).
Proof.
  intros Hf. unfold incrementDownloadCount, bind, now, get. simpl.
  unfold Build_findOne in *. simpl. rewrite Hf. unfold modify. simpl.
  apply list_find_Some in Hf as (Hi & _ & _).
  f_equal. f_equal.
  apply list_eq. intros j. rewrite list_lookup_alter, list_lookup_insert.
  destruct (decide (i = j)) as [->|].
  - rewrite Hi. rewrite decide_True; [done|]. split; [done|].
    by eapply lookup_lt_Some.
  - rewrite decide_False; [done|]. tauto.
Qed.

(** A download of a completed build with a URL is served and counted;
    [expiresAt] is not consulted. *)
Lemma downloadSystem_counts env id userId w i b url :
  findOwnedBuild id userId w = Some (i, b) ->
  status b = Completed ->
  downloadUrl b = Some url ->
  url <> "" ->
  downloadSystem env id userId w =
    (Redirect url,
     with_builds (<[i := downloaded (clock env (ticks w)) b]> (builds w))
                 (with_ticks (S (ticks w)) w)).
Proof.
  intros Hf Hs Hu Hne.
  unfold downloadSystem, handler, downloadSystem_body, bind, get.
  rewrite Hf. rewrite bool_decide_eq_true_2 by done. simpl.
  rewrite Hu. rewrite bool_decide_eq_false_2 by done.
  apply findOwnedBuild_Some in Hf as [Hf _].
  rewrite (incrementDownloadCount_found _ _ _ _ _ Hf). reflexivity.
Qed.

Lemma generateNewLink_effect (env : Env) (id : string) (userId : nat) (w : World) :
  let res := generateNewLink env id userId w in
  match findOwnedBuild id userId w with
  | None => res = (notFound, w)
  | Some (i, b) =>
      if decide (status b = Completed) then
        if expiredAt (clock env (ticks w)) b then
          fst res =
            Json 400 false "Download link has expired. Please contact support." []
          /\ same_data w (snd res)
        else
          match s3SignedUrl env (packageKey (buildId b)) SIGNED_URL_TTL with
          | Done newUrl =>
              fst res =
                Json 200 true "New download link generated"
                     [("downloadUrl", newUrl)]
              /\ builds (snd res) =
                   <[i := set_downloadUrl (Some newUrl) b]> (builds w)
              /\ orders (snd res) = orders w
              /\ schools (snd res) = schools w
              /\ users (snd res) = users w
              /\ jobs (snd res) = jobs w
              /\ outbox (snd res) = outbox w
          | Threw e => fst res = NextError e /\ same_data w (snd res)
          end
      else res = (Json 400 false "Build is not yet completed" [], w)
  end.
Proof.
  unfold generateNewLink, handler, generateNewLink_body, bind, get. simpl.
  destruct (findOwnedBuild id userId w) as [[i b]|] eqn:Hf; [|reflexivity].
  apply findOwnedBuild_Some in Hf as [Hf _].
  apply Build_findOne_Some in Hf as [_ <-].
  destruct (decide (status b = Completed)) as [Hs|Hs].
  2:{ rewrite bool_decide_eq_false_2 by done. reflexivity. }
  rewrite bool_decide_eq_true_2 by done. simpl.
  unfold expired, expiredAt.
  destruct (expiresAt b) as [e|] eqn:He.
  - unfold bind, now, ret. simpl.
    destruct (bool_decide (e < clock env (ticks w))%Z).
    + simpl. unfold same_data. simpl. tauto.
    + unfold await.
      destruct (s3SignedUrl env _ _); simpl; unfold same_data; simpl; tauto.
  - unfold ret. simpl. unfold await.
    destruct (s3SignedUrl env _ _); simpl; unfold same_data; simpl; tauto.
Qed.

(** [Build.create] never stores anything. *)
Lemma Build_create_spec env o s u pkg w :
  Build_create env o s u pkg w =
    (Threw (validationMessage (validationErrors pkg)),
     with_ticks (S (ticks w)) w).
Proof. reflexivity. Qed.

Lemma validationMessage_valid pkg :
  pkg ∈ packageEnum -> validationMessage (validationErrors pkg) = buildIdRequired.
Proof.
  intros H. unfold validationErrors. rewrite bool_decide_eq_true_2 by exact H.
  reflexivity.
Qed.

(** Nor does [createBuild]: it throws, whatever it is given. *)
Lemma createBuild_spec env o s u w :
  exists e w', createBuild env o s u w = (Threw e, w') /\ same_data w w'.
Proof.
  unfold createBuild, tryCatch, bind, get.
  destruct (Order_findById o w) as [od|]; cbn.
  2:{ eexists _, _. split; [reflexivity|]. unfold same_data. tauto. }
  destruct (School_findById s w); cbn.
  2:{ eexists _, _. split; [reflexivity|]. unfold same_data. tauto. }
  eexists _, _. split; [reflexivity|]. unfold same_data. cbn. tauto.
Qed.

(** For an order and a school that exist and a tier of the schema: the
    validation error, and nothing stored. *)
Lemma createBuild_rejection env o s u w ord :
  Order_findById o w = Some ord ->
  is_Some (School_findById s w) ->
  o_packageType ord ∈ packageEnum ->
  createBuild env o s u w =
    (Threw buildIdRequired, with_ticks (S (ticks w)) w).
Proof.
  intros Ho [sc Hs] Hp. unfold createBuild, tryCatch, bind, get.
  rewrite Ho, Hs. rewrite Build_create_spec.
  by rewrite (validationMessage_valid _ Hp).
Qed.

Lemma startBuild_effect (env : Env) (oid : string) (userId : nat) (w : World) :
  let res := startBuild env oid userId w in
  match Order_findForStart oid userId w with
  | None =>
      res = (Json 400 false "Order not found or payment not completed" [], w)
  | Some (orderOid, o) =>
      match Build_findByOrder orderOid w with
      | Some (_, existing) =>
          snd res = w /\
          (is_Some (populatedSchool o w) ->
           fst res = Json 400 false "Build already exists for this order"
                          [("buildId", buildId existing)])
      | None =>
          same_data w (snd res) /\
          (is_Some (populatedSchool o w) -> exists e, fst res = NextError e)
      end
  end.
Proof.
  unfold startBuild, handler, startBuild_body, bind, get. cbv zeta beta.
  destruct (Order_findForStart oid userId w) as [[orderOid o]|]; [|reflexivity].
  destruct (Build_findByOrder orderOid w) as [[j existing]|] eqn:Hb.
  - destruct (populatedSchool o w) as [sch|]; simpl.
    + split; [reflexivity|]. intros _. reflexivity.
    + split; [reflexivity|]. intros [? [=]].
  - destruct (populatedSchool o w) as [sch|]; cbv beta iota.
    2:{ split; [unfold same_data; tauto|]. intros [? [=]]. }
    destruct (createBuild_spec env orderOid sch userId w) as (e & w' & -> & H).
    cbn. eauto.
Qed.

(** A handler leaves the builds as they are or changes one stored build
    as [handlerChange] says. *)
Lemma serve_effect env req w :
  builds (snd (serve env req w)) = builds w \/
  (exists i b b', builds w !! i = Some b /\
                  builds (snd (serve env req w)) = <[i := b']> (builds w) /\
                  handlerChange env req b b').
Proof.
  destruct req as [oid u|id u|id u|id u|id u]; cbn [serve handlerChange].
  - left. pose proof (startBuild_effect env oid u w) as H. cbv zeta in H.
    destruct (Order_findForStart oid u w) as [[orderOid o]|].
    + destruct (Build_findByOrder orderOid w) as [[j ex]|].
      * by destruct H as [-> _].
      * destruct H as [H _]. unfold same_data in H. tauto.
    + by rewrite H.
  - pose proof (retryBuild_effect id u w) as H.
    destruct (findOwnedBuild id u w) as [[i b]|] eqn:Hf.
    + pose proof Hf as Hf'. apply findOwnedBuild_Some in Hf' as [Hf' _].
      apply Build_findOne_Some in Hf' as [_ Hid].
      apply findOwnedBuild_lookup in Hf.
      destruct (decide (status b = Failed)).
      * right. exists i, b, (resetForRetry b). rewrite H. auto.
      * left. by rewrite H.
    + left. by rewrite H.
  - pose proof (cancelBuild_effect env id u w) as H.
    destruct (findOwnedBuild id u w) as [[i b]|] eqn:Hf.
    + apply findOwnedBuild_lookup in Hf.
      destruct (decide (status b = Queued \/ status b = Processing)).
      * right. exists i, b, (cancelled (clock env (ticks w)) b).
        rewrite H. cbn. eauto.
      * left. by rewrite H.
    + left. by rewrite H.
  - unfold downloadSystem, handler, downloadSystem_body, bind, get.
    destruct (findOwnedBuild id u w) as [[i b]|] eqn:Hf; [|by left].
    destruct (decide (status b = Completed)) as [Hs|Hs].
    2:{ rewrite bool_decide_eq_false_2 by done. by left. }
    rewrite bool_decide_eq_true_2 by done. cbn [negb].
    destruct (downloadUrl b) as [url|] eqn:Hu; [|by left].
    destruct (decide (url = "")) as [He|He].
    { rewrite bool_decide_eq_true_2 by done. by left. }
    rewrite bool_decide_eq_false_2 by done.
    pose proof Hf as Hf'. apply findOwnedBuild_Some in Hf' as [Hf' _].
    rewrite (incrementDownloadCount_found _ _ _ _ _ Hf').
    right. apply findOwnedBuild_lookup in Hf.
    eexists i, b, _. cbn. eauto.
  - pose proof (generateNewLink_effect env id u w) as H. cbv zeta in H.
    destruct (findOwnedBuild id u w) as [[i b]|] eqn:Hf.
    2:{ left. by rewrite H. }
    pose proof Hf as Hf'. apply findOwnedBuild_Some in Hf' as [Hf' _].
    apply Build_findOne_Some in Hf' as [Hi Hid].
    destruct (decide (status b = Completed)) as [Hs|Hs].
    2:{ left. by rewrite H. }
    destruct (expiredAt _ b).
    { destruct H as (_ & Hb & _). by left. }
    rewrite <- Hid.
    destruct (s3SignedUrl env (packageKey (buildId b)) SIGNED_URL_TTL)
      as [url|e] eqn:Hsig.
    + destruct H as (_ & Hb & _). right.
      exists i, b, (set_downloadUrl (Some url) b).
      rewrite Hid in *. eauto 6.
    + destruct H as (_ & Hb & _). left. rewrite Hid in *. exact Hb.
Qed.

(** No handler changes the status of a completed, failed or cancelled
    build, except a retry of a failed one. *)
Lemma serve_terminal env req w i b :
  builds w !! i = Some b ->
  status b = Completed \/ status b = Failed \/ status b = Cancelled ->
  exists b', builds (snd (serve env req w)) !! i = Some b' /\
    (status b' = status b \/
     (status b = Failed /\ status b' = Queued /\
      exists u, req = ReqRetry (buildId b) u)).
Proof.
  intros Hi Hterm.
  destruct (serve_effect env req w) as [->|(j & c & c' & Hj & -> & Hc)].
  - exists b. split; [exact Hi|by left].
  - destruct (decide (j = i)) as [->|Hne].
    2:{ exists b. split; [|by left]. by rewrite list_lookup_insert_ne. }
    rewrite Hi in Hj. injection Hj as <-.
    exists c'. split.
    { apply list_lookup_insert_eq. by eapply lookup_lt_Some. }
    destruct req as [oid u|id u|id u|id u|id u]; cbn in Hc.
    + destruct Hc.
    + destruct Hc as (Hs & -> & <-). right. eauto.
    + destruct Hc as [[Hs|Hs] _]; rewrite Hs in Hterm;
        destruct Hterm as [?|[?|?]]; discriminate.
    + destruct Hc as [_ [t ->]]. by left.
    + destruct Hc as [_ (url & _ & ->)]. by left.
Qed.

(** * Reasoning about runs *)

Lemma triple_ret {S A} (P : S -> Prop) (a : A) (Q : A -> S -> Prop) E :
  (forall s, P s -> Q a s) -> triple P (ret a) Q E.
Proof. intros H s Hs. simpl. auto. Qed.

Lemma triple_throw {S A} (P : S -> Prop) (e : string) (Q : A -> S -> Prop) E :
  (forall s, P s -> E e s) -> triple P (throw e) Q E.
Proof. intros H s Hs. simpl. auto. Qed.

Lemma triple_bind {S A B} (P : S -> Prop) (m : M S A) (k : A -> M S B)
    (Q1 : A -> S -> Prop) (Q : B -> S -> Prop) E :
  triple P m Q1 E ->
  (forall a, triple (Q1 a) (k a) Q E) ->
  triple P (bind m k) Q E.
Proof.
  intros Hm Hk s Hs. unfold bind. specialize (Hm s Hs).
  destruct (m s) as [[a|e] s']; [|exact Hm].
  apply (Hk a s' Hm).
Qed.

Lemma triple_tryCatch {S A} (P : S -> Prop) (m : M S A) (h : string -> M S A)
    (Q : A -> S -> Prop) (E1 E : string -> S -> Prop) :
  triple P m Q E1 ->
  (forall e, triple (E1 e) (h e) Q E) ->
  triple P (tryCatch m h) Q E.
Proof.
  intros Hm Hh s Hs. unfold tryCatch. specialize (Hm s Hs).
  destruct (m s) as [[a|e] s']; [exact Hm|].
  apply (Hh e s' Hm).
Qed.

Lemma triple_conseq {S A} (P P' : S -> Prop) (m : M S A)
    (Q Q' : A -> S -> Prop) (E E' : string -> S -> Prop) :
  triple P' m Q' E' ->
  (forall s, P s -> P' s) ->
  (forall a s, Q' a s -> Q a s) ->
  (forall e s, E' e s -> E e s) ->
  triple P m Q E.
Proof.
  intros Hm HP HQ HE s Hs. specialize (Hm s (HP s Hs)).
  destruct (m s) as [[a|e] s']; auto.
Qed.

Lemma triple_pure {S A} (phi : Prop) (P : S -> Prop) (m : M S A) Q E :
  (phi -> triple P m Q E) -> triple (fun s => phi /\ P s) m Q E.
Proof. intros H s [Hphi Hs]. apply (H Hphi s Hs). Qed.

Lemma triple_await {S A} (P : S -> Prop) (o : Outcome A) :
  triple P (await o) (fun a s => o = Done a /\ P s) (fun e s => o = Threw e /\ P s).
Proof. intros s Hs. unfold await. destruct o; auto. Qed.

Lemma frame_fields m b :
  frame m = frame b ->
  buildId m = buildId b /\ order m = order b /\ school m = school b /\
  user m = user b /\ package m = package b /\
  downloadCount m = downloadCount b /\ lastDownloadAt m = lastDownloadAt b /\
  buildLogs m = buildLogs b /\ expiresAt m = expiresAt b /\
  createdAt m = createdAt b.
Proof. unfold frame. intros [=]. tauto. Qed.

Lemma writeModified_self st m :
  frame m = frame st -> writeModified st m st = m.
Proof.
  intros H. apply frame_fields in H.
  destruct m, st. simpl in *.
  destruct H as (-> & -> & -> & -> & -> & -> & -> & -> & -> & ->).
  unfold writeModified, written. simpl.
  repeat case_decide; subst; reflexivity.
Qed.

Lemma alter_insert_same {A} (f : A -> A) (l : list A) i x :
  alter f i (<[i := x]> l) = <[i := f x]> l.
Proof.
  apply list_eq. intros j.
  rewrite list_lookup_alter, !list_lookup_insert.
  destruct (decide (i = j)) as [->|]; [|by rewrite !decide_False by tauto].
  destruct (decide (j < length l)).
  - by rewrite !decide_True by tauto.
  - rewrite !decide_False by tauto.
    rewrite lookup_ge_None_2 by lia. done.
Qed.

Section Tracking.

Variable env : Env.
Variables (w0 : World) (i : nat) (b : Build).

Lemma tracking_mono (X X' : Build -> Build -> World -> Prop) r :
  (forall m st w, X m st w -> X' m st w) -> tracking w0 i b X r -> tracking w0 i b X' r.
Proof. intros H (m & st & ? & ? & ? & ? & ?). exists m, st. auto 6. Qed.

Lemma triple_assign X X' upd (E : string -> Run -> Prop) :
  (forall m, frame (upd m) = frame m) ->
  (forall m st w, frame m = frame b -> X m st w -> X' (upd m) st w) ->
  triple (tracking w0 i b X) (assign upd) (fun _ => tracking w0 i b X') E.
Proof.
  intros Hf HX r (m & st & Hv & Hb & Hfm & Hfs & Hx).
  unfold assign. rewrite Hv. simpl.
  exists (upd m), st. simpl. rewrite Hf. auto 6.
Qed.

Lemma triple_save X X' (E : string -> Run -> Prop) :
  (forall m st w bs, frame m = frame b -> X m st w -> X' m m (with_builds bs w)) ->
  triple (tracking w0 i b X) save (fun _ => tracking w0 i b X') E.
Proof.
  intros HX r (m & st & Hv & Hb & Hfm & Hfs & Hx).
  unfold save. rewrite Hv. simpl.
  exists m, m. simpl. split; [done|]. split.
  { rewrite Hb, alter_insert_same, writeModified_self by congruence. done. }
  split; [done|]. split; [done|]. eapply HX; eauto.
Qed.

Lemma triple_liftW {A} X X' (c : M World A) (Q : A -> Run -> Prop)
    (E : string -> Run -> Prop) :
  (forall w, builds (snd (c w)) = builds w) ->
  (forall m st w, X m st w -> X' m st (snd (c w))) ->
  (forall w, exists a, fst (c w) = Done a) ->
  (forall a r, tracking w0 i b X' r -> Q a r) ->
  triple (tracking w0 i b X) (liftW c) Q E.
Proof.
  intros Hb HX Hd HQ r (m & st & Hv & Hbs & Hfm & Hfs & Hx).
  unfold liftW. specialize (Hb (world r)). specialize (HX m st (world r) Hx).
  destruct (Hd (world r)) as [a Ha].
  destruct (c (world r)) as [o w']. simpl in *. subst o.
  apply HQ. exists m, st. simpl. rewrite Hb. auto 6.
Qed.

Lemma triple_theBuild X (E : string -> Run -> Prop) :
  triple (tracking w0 i b X) theBuild (fun bld r => frame bld = frame b /\ tracking w0 i b X r) E.
Proof.
  intros r (m & st & Hv & Hbs & Hfm & Hfs & Hx).
  unfold theBuild. rewrite Hv. simpl. split; [done|].
  exists m, st. auto 6.
Qed.

Lemma triple_theWorld X (E : string -> Run -> Prop) :
  triple (tracking w0 i b X) theWorld
    (fun w r => (exists m st, X m st w) /\ tracking w0 i b X r) E.
Proof.
  intros r (m & st & Hv & Hbs & Hfm & Hfs & Hx).
  unfold theWorld. split; [eauto|]. exists m, st. auto 6.
Qed.

Lemma triple_yield_alone {P : Run -> Prop} k (E : string -> Run -> Prop) :
  triple P (yield env alone k) (fun _ => P) E.
Proof. intros r Hr. exact Hr. Qed.

End Tracking.

Section Stages.

Variable env : Env.
Variables (w0 : World) (i : nat) (b : Build).
Variables (Ee Eu : string -> Prop).
Hypothesis HR : Raises Ee Eu env.

Variable X : Build -> Build -> World -> Prop.
Hypothesis Xw : wstable X.
Hypothesis Xs : sstable X.

Lemma keeps_now (Q : Z -> Run -> Prop) E :
  (forall t r, tracking w0 i b X r -> Q t r) ->
  triple (tracking w0 i b X) (liftW (now env)) Q E.
Proof.
  intros HQ. apply triple_liftW with (X' := X).
  - reflexivity.
  - intros m st w. apply Xw; reflexivity.
  - intros w. eexists. reflexivity.
  - exact HQ.
Qed.

Lemma keeps_assign upd E :
  (forall m, frame (upd m) = frame m) ->
  (forall m st w, X m st w -> X (upd m) st w) ->
  triple (tracking w0 i b X) (assign upd) (fun _ => tracking w0 i b X) E.
Proof. intros Hf Hx. apply triple_assign; auto. Qed.

Lemma keeps_save E :
  triple (tracking w0 i b X) save (fun _ => tracking w0 i b X) E.
Proof.
  apply triple_save. intros m st w bs _ Hx.
  eapply Xw; [..|eapply Xs; exact Hx]; reflexivity.
Qed.

Lemma keeps_await {A} (o : Outcome A) (Q : A -> Run -> Prop) :
  (forall e, o = Threw e -> Ee e) ->
  (forall a r, o = Done a -> tracking w0 i b X r -> Q a r) ->
  triple (tracking w0 i b X) (await o) Q (fun e r => Ee e /\ tracking w0 i b X r).
Proof.
  intros He HQ. eapply triple_conseq; [apply triple_await|..]; simpl.
  - intros s Hs; exact Hs.
  - intros a s [-> H]. auto.
  - intros e s [-> H]. auto.
Qed.

Lemma keeps_modifyW (c : World -> World) E :
  (forall w, builds (c w) = builds w) ->
  (forall w, orders (c w) = orders w) ->
  (forall w, schools (c w) = schools w) ->
  (forall w, users (c w) = users w) ->
  triple (tracking w0 i b X) (liftW (modify c)) (fun _ => tracking w0 i b X) E.
Proof.
  intros Hb Ho Hs Hu. apply triple_liftW with (X' := X).
  - exact Hb.
  - intros m st w. apply Xw; [apply Ho|apply Hs|apply Hu].
  - intros w. eexists. reflexivity.
  - intros a r Hr. exact Hr.
Qed.

Lemma keeps_addBuildStage (X' : Build -> Build -> World -> Prop) name d E :
  wstable X' -> sstable X' ->
  (forall m st w l t, X m st w ->
     X' (set_stages (l ++ [{| st_name := name; st_status := "processing";
                              st_startedAt := Some t; st_completedAt := None;
                              st_error := None |}]) m) st w) ->
  triple (tracking w0 i b X) (addBuildStage env name d) (fun _ => tracking w0 i b X') E.
Proof.
  intros Hw Hs HX. unfold addBuildStage.
  eapply triple_bind; [apply keeps_now; intros t r Hr; exact Hr|]. intros t.
  eapply triple_bind; [apply triple_theBuild|]. intros build; cbv beta.
  apply (triple_pure (frame build = frame b)). intros _.
  eapply triple_bind.
  { apply triple_assign with (X' := X'); [reflexivity|]. intros; apply HX; auto. }
  intros ?; cbv beta.
  eapply triple_bind.
  { apply triple_save with (X' := X'). intros m st w bs ? Hx.
    eapply Hw; [..|eapply Hs; exact Hx]; reflexivity. }
  intros ?; cbv beta. apply triple_ret. auto.
Qed.

Lemma keeps_copyDirectory p q : keeps w0 i b Ee X (copyDirectory env p q).
Proof.
  unfold copyDirectory.
  eapply triple_bind.
  { apply keeps_await with (Q := fun _ => tracking w0 i b X); [apply HR|auto]. }
  intros ?; cbv beta. apply keeps_modifyW; reflexivity.
Qed.

Lemma keeps_copyTemplate p q : keeps w0 i b Ee X (copyTemplate env p q).
Proof.
  unfold copyTemplate. cbv zeta.
  eapply triple_bind; [|intros ?; apply keeps_copyDirectory].
  eapply triple_tryCatch with (E1 := fun _ => tracking w0 i b X).
  - intros r Hr. unfold await. destruct (fsAccess env _); exact Hr.
  - intros e. apply triple_throw. intros r Hr. split; [apply HR|exact Hr].
Qed.

Lemma keeps_nullDeref {A} prop (Q : A -> Run -> Prop) :
  triple (tracking w0 i b X) (nullDeref prop) Q (fun e r => Ee e /\ tracking w0 i b X r).
Proof. apply triple_throw. intros r Hr. split; [apply HR|exact Hr]. Qed.

Lemma keeps_configureSystem p sc o :
  keeps w0 i b Ee X (configureSystem env p sc o).
Proof.
  unfold configureSystem.
  eapply triple_bind.
  { apply keeps_await with (Q := fun _ => tracking w0 i b X); [apply HR|auto]. }
  intros ?; cbv beta.
  destruct sc as [[? [?|]]|]; try apply keeps_nullDeref;
    destruct o; try apply keeps_nullDeref.
  apply keeps_await; [apply HR|auto].
Qed.

Lemma keeps_generateDatabase p sc o :
  triple (tracking w0 i b X) (generateDatabase env p sc o) (fun _ => tracking w0 i b X)
         (fun e r => Ee e /\ tracking w0 i b X r).
Proof.
  unfold generateDatabase. cbv zeta.
  eapply triple_bind.
  { apply keeps_await with (Q := fun _ => tracking w0 i b X); [apply HR|auto]. }
  intros ?; cbv beta.
  destruct sc as [[? [?|]]|]; try apply keeps_nullDeref;
    destruct o; try apply keeps_nullDeref.
  eapply triple_bind.
  { apply keeps_await with (Q := fun _ => tracking w0 i b X); [apply HR|auto]. }
  intros ?; cbv beta. apply triple_ret. auto.
Qed.

Lemma keeps_installDependencies p E :
  triple (tracking w0 i b X) (installDependencies env p) (fun _ => tracking w0 i b X) E.
Proof.
  unfold installDependencies. cbv zeta.
  destruct (exists_ _); [|apply triple_ret; auto].
  intros r Hr. unfold tryCatch, await. destruct (npmInstall env p); exact Hr.
Qed.

Lemma keeps_createPackage {A} id p (Q : A -> Run -> Prop)
    (k : string -> M Run A) :
  triple (tracking w0 i b X) (bind (createPackage id p) k) Q
         (fun e r => Ee e /\ tracking w0 i b X r).
Proof.
  intros r Hr. unfold createPackage, bind, throw. cbv zeta.
  split; [apply HR|exact Hr].
Qed.

End Stages.

(** ** What a run keeps, whatever is served meanwhile *)

Lemma triple_preserves {S A} (K : S -> Prop) (m : M S A) :
  preserves K m -> triple K m (fun _ => K) (fun _ => K).
Proof.
  intros H s Hs. specialize (H s Hs). destruct (m s) as [[a|e] s']; exact H.
Qed.

Lemma preserves_bind {S A B} (K : S -> Prop) (m : M S A) (k : A -> M S B) :
  preserves K m -> (forall a, preserves K (k a)) -> preserves K (bind m k).
Proof.
  intros Hm Hk s Hs. unfold bind. specialize (Hm s Hs).
  destruct (m s) as [[a|e] s']; [apply Hk|]; exact Hm.
Qed.

Lemma preserves_tryCatch {S A} (K : S -> Prop) (m : M S A) (h : string -> M S A) :
  preserves K m -> (forall e, preserves K (h e)) -> preserves K (tryCatch m h).
Proof.
  intros Hm Hh s Hs. unfold tryCatch. specialize (Hm s Hs).
  destruct (m s) as [[a|e] s']; [|apply Hh]; exact Hm.
Qed.

Lemma preserves_ret {S A} (K : S -> Prop) (a : A) : preserves K (ret a).
Proof. intros s Hs. exact Hs. Qed.

Lemma preserves_throw {S A} (K : S -> Prop) e : preserves K (@throw S A e).
Proof. intros s Hs. exact Hs. Qed.

Lemma preserves_await {S A} (K : S -> Prop) (o : Outcome A) : preserves K (await o).
Proof. intros s Hs. exact Hs. Qed.

Lemma preserves_theBuild (K : Run -> Prop) : preserves K theBuild.
Proof. intros r Hr. unfold theBuild. destruct (var_build r); exact Hr. Qed.

Lemma preserves_theWorld (K : Run -> Prop) : preserves K theWorld.
Proof. intros r Hr. exact Hr. Qed.

Lemma bind_done {S A B} (m : M S A) (k : A -> M S B) s a s1 :
  m s = (Done a, s1) -> bind m k s = k a s1.
Proof. intros H. unfold bind. rewrite H. reflexivity. Qed.

Lemma throws_bind_l {S A B} (m : M S A) (k : A -> M S B) :
  throws m -> throws (bind m k).
Proof.
  intros H s. destruct (H s) as (e & s' & Hs). exists e, s'.
  unfold bind. by rewrite Hs.
Qed.

Lemma throws_bind_r {S A B} (m : M S A) (k : A -> M S B) :
  (forall a, throws (k a)) -> throws (bind m k).
Proof.
  intros H s. unfold bind. destruct (m s) as [[a|e] s']; [apply H|eauto].
Qed.

(** What holds of the world and of the responses when the server has
    handled some requests. *)
Lemma serveAll_spec env (I : World -> Prop) (Ps : Response -> Prop) reqs w :
  (forall req w, req ∈ reqs -> I w ->
     I (snd (serve env req w)) /\ Ps (fst (serve env req w))) ->
  I w ->
  I (snd (serveAll env reqs w)) /\ Forall Ps (fst (serveAll env reqs w)).
Proof.
  revert w. induction reqs as [|req reqs IH]; intros w Hstep Hw.
  { split; [exact Hw|constructor]. }
  cbn [serveAll].
  destruct (Hstep req w (list_elem_of_here _ _) Hw) as [Hw1 Hp].
  destruct (serve env req w) as [resp w1]. cbn [fst snd] in *.
  destruct (IH w1) as [Hw2 Hps]; [|exact Hw1|].
  { intros req' w' Hin. apply Hstep. by apply list_elem_of_further. }
  destruct (serveAll env reqs w1) as [resps w2]. cbn [fst snd] in *.
  split; [exact Hw2|]. by constructor.
Qed.

Lemma yield_cases env conc k r :
  yield env conc k r = (Done tt, r) \/
  yield env conc k r =
    (Done tt,
     {| world := snd (serveAll env (conc k) (world r));
        var_build := var_build r; saved := saved r;
        served := served r ++ fst (serveAll env (conc k) (world r)) |}).
Proof.
  unfold yield. destruct (conc k) as [|req reqs]; [by left|]. right.
  by destruct (serveAll env (req :: reqs) (world r)).
Qed.

Lemma yield_done env conc k r :
  exists r', yield env conc k r = (Done tt, r') /\
             var_build r' = var_build r /\ saved r' = saved r.
Proof. destruct (yield_cases env conc k r) as [->| ->]; eauto. Qed.

(** [createPackage] throws, so nothing of [processBuild] that follows it
    is ever executed. *)
Lemma processBuild_stages_throws env conc id :
  throws (processBuild_stages env conc id).
Proof.
  unfold processBuild_stages.
  repeat lazymatch goal with
         | |- throws (bind (createPackage _ _) _) =>
             apply throws_bind_l; intros s; unfold createPackage, throw; eauto
         | |- throws (bind _ _) => apply throws_bind_r; intros ?
         end.
Qed.

Lemma processBuild_try_throws env conc id : throws (processBuild_try env conc id).
Proof.
  unfold processBuild_try. apply throws_bind_r. intros w.
  destruct (Build_findOne id w); [|intros s; unfold throw; eauto].
  do 4 (apply throws_bind_r; intros ?). apply processBuild_stages_throws.
Qed.

(** The steps of the [catch] block do not throw. *)
Lemma assign_returns upd (P : Run -> Prop) E :
  triple P (assign upd) (fun _ _ => True) E.
Proof. intros r _. unfold assign. by destruct (var_build r). Qed.

Lemma save_returns (P : Run -> Prop) E : triple P save (fun _ _ => True) E.
Proof. intros r _. unfold save. by destruct (var_build r). Qed.

Lemma yield_returns env conc k (P : Run -> Prop) E :
  triple P (yield env conc k) (fun _ _ => True) E.
Proof. intros r _. by destruct (yield_done env conc k r) as (r' & -> & _). Qed.

Lemma now_returns env (P : Run -> Prop) E :
  triple P (liftW (now env)) (fun _ _ => True) E.
Proof. intros r _. exact I. Qed.

Lemma modify_returns f (P : Run -> Prop) E :
  triple P (liftW (modify f)) (fun _ _ => True) E.
Proof. intros r _. exact I. Qed.

(** The [catch] block always rethrows. *)
Lemma processBuild_catch_throws env conc e r :
  fst (processBuild_catch env conc e r) = Threw e.
Proof.
  unfold processBuild_catch. destruct (var_build r) as [d|]; [|reflexivity].
  match goal with
  | |- fst (?m r) = _ =>
      assert (triple (fun _ => True) m (fun _ _ => False) (fun e' _ => e' = e))
        as H; [|specialize (H r I); destruct (m r) as [[a|e'] r'];
                [destruct H|by subst e']]
  end.
  eapply triple_bind; [apply assign_returns|intros ?; cbv beta].
  eapply triple_bind; [apply assign_returns|intros ?; cbv beta].
  eapply triple_bind; [apply now_returns|intros ?; cbv beta].
  eapply triple_bind; [apply assign_returns|intros ?; cbv beta].
  eapply triple_bind; [apply save_returns|intros ?; cbv beta].
  eapply triple_bind; [apply yield_returns|intros ?; cbv beta].
  eapply triple_bind; [apply modify_returns|intros ?; cbv beta].
  eapply triple_bind; [apply yield_returns|intros ?; cbv beta].
  apply triple_throw. reflexivity.
Qed.

(** No run returns. *)
Lemma processBuild_run_throws env conc id w :
  exists e, fst (processBuild_run env conc id w) = Threw e.
Proof.
  unfold processBuild_run, tryCatch.
  destruct (processBuild_try_throws env conc id (startRun w)) as (e & r & ->).
  exists e. apply processBuild_catch_throws.
Qed.

Lemma processBuild_run_missing env conc id w :
  Build_findOne id w = None ->
  processBuild_run env conc id w = (Threw "Build not found", startRun w).
Proof.
  intros H. unfold processBuild_run, tryCatch, processBuild_try, bind, theWorld.
  cbn [world startRun]. rewrite H. reflexivity.
Qed.

Lemma markProcessing_done env r :
  exists r', markProcessing env r = (Done tt, r').
Proof.
  destruct r as [w [d|] sv sd]; cbn; eauto.
Qed.

Lemma setBuild_found i b w :
  setBuild (i, b) (startRun w) = (Done tt, foundRun w i b).
Proof. reflexivity. Qed.

Section Cut.

Variable env : Env.
Variable conc : nat -> list Request.

(** A property of the state of a run that the steps of [processBuild]
    keep which come before [createPackage] or are in the [catch] block. *)
Variable K : Run -> Prop.
Hypothesis K_now : preserves K (liftW (now env)).
Hypothesis K_copied : forall p q,
  preserves K (liftW (modify (fun w => with_copies (copies w ++ [(p, q)]) w))).
Hypothesis K_order : forall o f, preserves K (liftW (Order_findByIdAndUpdate o f)).
Hypothesis K_assign : forall upd, quietUpdate upd -> preserves K (assign upd).
Hypothesis K_save : preserves K save.
Hypothesis K_yield : forall k, preserves K (yield env conc k).

Ltac quiet :=
  intros ?; split; [reflexivity|]; cbn; first [intros H; exact H|discriminate].

Ltac kpres :=
  repeat first
    [ apply preserves_ret | apply preserves_throw | apply preserves_await
    | apply preserves_theBuild | apply preserves_theWorld
    | apply K_now | apply K_copied | apply K_order
    | apply K_assign; quiet
    | apply K_save | apply K_yield
    | apply preserves_bind; [|intros ?]
    | apply preserves_tryCatch; [|intros ?]
    | match goal with
      | |- preserves _ (match ?x with _ => _ end) => destruct x
      | |- preserves _ (if ?c then _ else _) => destruct c
      end ].

Ltac unfold_work :=
  unfold addBuildStage, copyTemplate, copyDirectory, configureSystem,
    generateDatabase, installDependencies, nullDeref;
  cbv zeta.

Lemma cut_markProcessing : preserves K (markProcessing env).
Proof. unfold markProcessing. kpres. Qed.

(** The stages: up to [createPackage], which throws. *)
Lemma cut_stages id :
  triple K (processBuild_stages env conc id) (fun _ _ => False) (fun _ => K).
Proof.
  unfold processBuild_stages.
  repeat lazymatch goal with
         | |- triple _ (bind (createPackage _ _) _) _ _ =>
             intros r Hr; exact Hr
         | |- triple _ (bind _ _) _ _ =>
             eapply triple_bind;
               [apply triple_preserves; unfold_work; solve [kpres]
               |intros ?; cbv beta zeta]
         end.
Qed.

Lemma cut_catch e : preserves K (processBuild_catch env conc e).
Proof.
  intros r Hr. unfold processBuild_catch.
  destruct (var_build r) as [doc|]; [|exact Hr].
  revert r Hr.
  change (preserves K
    (do! assign (set_status Failed) in
     do! assign (set_error (Some e)) in
     let! t := liftW (now env) in
     do! assign (set_completedAt (Some t)) in
     do! save in
     do! yield env conc 19 in
     do! liftW (Order_findByIdAndUpdate (order (mem doc))
                  (set_o_status "failed" "failed")) in
     do! yield env conc 20 in
     throw (A := BuildResult) e)).
  kpres.
Qed.

(** A run on a build that is found: what holds of the state after
    [Build.findOne] and is kept until the build has been marked as
    processing, when [K] holds, gives [K] at the end of the run. *)
Lemma cut_run (J : Run -> Prop) id w i b :
  Build_findOne id w = Some (i, b) ->
  J (foundRun w i b) ->
  preserves J (yield env conc 0) ->
  (forall r, J r -> K (snd (markProcessing env r))) ->
  K (snd (processBuild_run env conc id w)).
Proof.
  intros Hfind HJ Hy Hm. unfold processBuild_run, tryCatch, processBuild_try.
  erewrite bind_done by reflexivity. cbn [world startRun]. rewrite Hfind.
  erewrite bind_done by apply setBuild_found.
  destruct (yield_done env conc 0 (foundRun w i b)) as (r0 & Hr0 & _).
  pose proof (Hy _ HJ) as HJ0. rewrite Hr0 in HJ0. cbn [snd] in HJ0.
  erewrite bind_done by exact Hr0.
  destruct (markProcessing_done env r0) as (r1 & Hr1).
  pose proof (Hm _ HJ0) as HK1. rewrite Hr1 in HK1. cbn [snd] in HK1.
  erewrite bind_done by exact Hr1.
  destruct (yield_done env conc 1 r1) as (r2 & Hr2 & _).
  pose proof (K_yield 1 _ HK1) as HK2. rewrite Hr2 in HK2. cbn [snd] in HK2.
  erewrite bind_done by exact Hr2.
  pose proof (cut_stages id r2 HK2) as Hs.
  destruct (processBuild_stages env conc id r2) as [[res|e] r3]; [destruct Hs|].
  by apply cut_catch.
Qed.

(** The same for a property that holds from the start of the run. *)
Lemma cut_run_from_start id w :
  (forall found, preserves K (setBuild found)) ->
  K (startRun w) -> K (snd (processBuild_run env conc id w)).
Proof.
  intros Hset Hw.
  destruct (Build_findOne id w) as [[i b]|] eqn:Hfind.
  2:{ by rewrite processBuild_run_missing. }
  apply (cut_run K id w i b Hfind).
  - pose proof (Hset (i, b) _ Hw) as H. by rewrite setBuild_found in H.
  - apply K_yield.
  - apply cut_markProcessing.
Qed.

End Cut.

(** ** Properties of the world *)

Section WorldInvariant.

Variable env : Env.
Variable conc : nat -> list Request.

(** A property of the builds collection that requests keep, and that
    updates of the paths a run assigns keep. *)
Variable Kw : World -> Prop.
Hypothesis Kw_builds : forall w w', builds w' = builds w -> Kw w -> Kw w'.
Hypothesis Kw_serve : forall req w, Kw w -> Kw (snd (serve env req w)).
Hypothesis Kw_save : forall w i bs m,
  Kw w -> Kw (with_builds (alter (writeModified bs m) i (builds w)) w).

Lemma inWorld_liftW {A} (c : M World A) :
  (forall w, builds (snd (c w)) = builds w) -> preserves (inWorld Kw) (liftW c).
Proof.
  intros Hc r Hr. unfold liftW, inWorld in *. specialize (Hc (world r)).
  destruct (c (world r)) as [o w']. cbn in *. eapply Kw_builds; eassumption.
Qed.

Lemma inWorld_yield k : preserves (inWorld Kw) (yield env conc k).
Proof.
  intros r Hr. destruct (yield_cases env conc k r) as [->| ->]; [exact Hr|].
  apply (serveAll_spec env Kw (fun _ => True)); [|exact Hr].
  intros req w _ Hw. split; [by apply Kw_serve|exact I].
Qed.

Lemma inWorld_save : preserves (inWorld Kw) save.
Proof.
  intros r Hr. unfold save. destruct (var_build r); [|exact Hr].
  apply Kw_save. exact Hr.
Qed.

Lemma inWorld_assign upd : preserves (inWorld Kw) (assign upd).
Proof. intros r Hr. unfold assign. destruct (var_build r); exact Hr. Qed.

(** A run keeps such a property, whatever is served meanwhile. *)
Lemma processBuild_world_invariant id w :
  Kw w -> Kw (snd (processBuild env conc id w)).
Proof.
  intros Hw. unfold processBuild.
  assert (inWorld Kw (snd (processBuild_run env conc id w))) as H.
  { apply (cut_run_from_start env conc (inWorld Kw)).
    - apply inWorld_liftW. reflexivity.
    - intros p q. apply inWorld_liftW. reflexivity.
    - intros o f. apply inWorld_liftW. reflexivity.
    - intros upd _. apply inWorld_assign.
    - apply inWorld_save.
    - apply inWorld_yield.
    - intros found r Hr. exact Hr.
    - exact Hw. }
  destruct (processBuild_run env conc id w) as [o r]. exact H.
Qed.

End WorldInvariant.

(** ** Properties of what a run persists *)

Section OnSaved.

Variable env : Env.
Variable conc : nat -> list Request.
Variable Ks : list Build -> Prop.
Hypothesis Ks_app : forall l l', Ks l -> Ks (l ++ l').

Lemma onSaved_liftW {A} (c : M World A) : preserves (onSaved Ks) (liftW c).
Proof. intros r Hr. unfold liftW. destruct (c (world r)). exact Hr. Qed.

Lemma onSaved_assign upd : preserves (onSaved Ks) (assign upd).
Proof. intros r Hr. unfold assign. destruct (var_build r); exact Hr. Qed.

Lemma onSaved_yield k : preserves (onSaved Ks) (yield env conc k).
Proof.
  intros r Hr. by destruct (yield_cases env conc k r) as [->| ->].
Qed.

Lemma onSaved_save : preserves (onSaved Ks) save.
Proof.
  intros r Hr. unfold save. destruct (var_build r); [|exact Hr].
  apply Ks_app. exact Hr.
Qed.

(** What holds of the versions persisted when the build has been marked
    as processing holds at the end of the run. *)
Lemma processBuild_saved (J : Run -> Prop) id w i b :
  Build_findOne id w = Some (i, b) ->
  J (foundRun w i b) ->
  preserves J (yield env conc 0) ->
  (forall r, J r -> Ks (saved (snd (markProcessing env r)))) ->
  Ks (saved (snd (processBuild_run env conc id w))).
Proof.
  intros Hfind HJ Hy Hm.
  apply (cut_run env conc (onSaved Ks)) with (J := J) (i := i) (b := b);
    try assumption.
  - apply onSaved_liftW.
  - intros p q. apply onSaved_liftW.
  - intros o f. apply onSaved_liftW.
  - intros upd _. apply onSaved_assign.
  - apply onSaved_save.
  - apply onSaved_yield.
Qed.

End OnSaved.

(** ** What requests do to the build of a run *)

(** Replacing a stored build by one with the same [buildId] does not
    change what [Build.findOne({ buildId })] finds. *)
Lemma Build_findOne_insert id w w' i b b' :
  Build_findOne id w = Some (i, b) ->
  buildId b' = buildId b ->
  builds w' = <[i := b']> (builds w) ->
  Build_findOne id w' = Some (i, b').
Proof.
  unfold Build_findOne. intros H Hid ->.
  apply list_find_Some in H as (Hi & Hb & Hleast).
  apply list_find_insert_Some. right. left.
  split; [reflexivity|]. split; [reflexivity|].
  split; [by eapply lookup_lt_Some|]. split; [congruence|exact Hleast].
Qed.

Lemma Build_findOne_alter id w w' i b f :
  Build_findOne id w = Some (i, b) ->
  buildId (f b) = buildId b ->
  builds w' = alter f i (builds w) ->
  Build_findOne id w' = Some (i, f b).
Proof.
  intros H Hid Hb. eapply Build_findOne_insert; [exact H|exact Hid|].
  rewrite Hb. apply Build_findOne_Some in H as [Hi _].
  apply list_eq. intros j. destruct (decide (j = i)) as [->|Hne].
  - rewrite list_lookup_alter, decide_True, Hi by reflexivity.
    by rewrite list_lookup_insert_eq by (by eapply lookup_lt_Some).
  - rewrite list_lookup_alter_ne by congruence.
    by rewrite list_lookup_insert_ne by congruence.
Qed.

Lemma Build_findOne_insert_other id w w' i st j b b' :
  Build_findOne id w = Some (i, st) ->
  j <> i -> builds w !! j = Some b -> buildId b' = buildId b ->
  builds w' = <[j := b']> (builds w) ->
  Build_findOne id w' = Some (i, st).
Proof.
  unfold Build_findOne. intros H Hne Hj Hid ->.
  apply list_find_Some in H as (Hi & Hp & Hleast).
  apply list_find_Some. split; [by rewrite list_lookup_insert_ne|].
  split; [exact Hp|]. intros k y Hk Hlt.
  destruct (decide (k = j)) as [->|Hkj].
  - rewrite list_lookup_insert_eq in Hk by (by eapply lookup_lt_Some).
    injection Hk as <-. rewrite Hid. by eapply Hleast.
  - rewrite list_lookup_insert_ne in Hk by congruence. by eapply Hleast.
Qed.

Lemma Build_findOne_builds id w w' :
  builds w' = builds w -> Build_findOne id w' = Build_findOne id w.
Proof. unfold Build_findOne. by intros ->. Qed.

Lemma handlerChange_identity env req b b' :
  handlerChange env req b b' ->
  sameIdentity b b' /\ (downloadCount b <= downloadCount b')%Z.
Proof.
  destruct req as [oid u|id u|id u|id u|id u]; cbn.
  - intros [].
  - intros (_ & -> & _). split; [unfold sameIdentity; cbn; tauto|cbn; lia].
  - intros (_ & t & ->). split; [unfold sameIdentity; cbn; tauto|cbn; lia].
  - intros (_ & t & ->). split; [unfold sameIdentity; cbn; tauto|cbn; lia].
  - intros (_ & url & _ & ->).
    split; [unfold sameIdentity; cbn; tauto|cbn; lia].
Qed.

(** No handler completes a build. *)
Lemma handlerChange_notCompleted env req b b' :
  handlerChange env req b b' ->
  status b <> Completed -> status b' <> Completed.
Proof.
  destruct req as [oid u|id u|id u|id u|id u]; cbn.
  - intros [].
  - intros (_ & -> & _) _. discriminate.
  - intros (_ & t & ->) _. discriminate.
  - intros (Hs & _) H. by destruct H.
  - intros (Hs & _) H. by destruct H.
Qed.

(** Only a download is answered with a redirect, and only for a
    completed build. *)
Lemma serve_redirect env req w url :
  fst (serve env req w) = Redirect url ->
  exists id u i b, req = ReqDownload id u /\
    Build_findOne id w = Some (i, b) /\ status b = Completed.
Proof.
  destruct req as [oid u|id u|id u|id u|id u]; cbn [serve].
  - unfold startBuild, handler, startBuild_body, bind, get. cbv zeta beta.
    destruct (Order_findForStart oid u w) as [[oo o]|]; [|discriminate].
    destruct (populatedSchool o w) as [s|]; [|discriminate].
    destruct (Build_findByOrder oo w) as [[j ex]|]; [discriminate|].
    destruct (createBuild env oo s u w) as [[r|e] w']; [|discriminate].
    rewrite queue_add_process_build. discriminate.
  - pose proof (retryBuild_effect id u w) as H.
    destruct (findOwnedBuild id u w) as [[i b]|]; [|by rewrite H].
    destruct (decide (status b = Failed)); by rewrite H.
  - pose proof (cancelBuild_effect env id u w) as H.
    destruct (findOwnedBuild id u w) as [[i b]|]; [|by rewrite H].
    destruct (decide (status b = Queued \/ status b = Processing));
      by rewrite H.
  - unfold downloadSystem, handler, downloadSystem_body, bind, get.
    destruct (findOwnedBuild id u w) as [[i b]|] eqn:Hf; [|discriminate].
    destruct (decide (status b = Completed)) as [Hs|Hs].
    2:{ rewrite bool_decide_eq_false_2 by done. discriminate. }
    intros _. apply findOwnedBuild_Some in Hf as [Hf _]. eauto 8.
  - pose proof (generateNewLink_effect env id u w) as H. cbv zeta in H.
    destruct (findOwnedBuild id u w) as [[i b]|]; [|by rewrite H].
    destruct (decide (status b = Completed)); [|by rewrite H].
    destruct (expiredAt _ b); [destruct H as [-> _]; discriminate|].
    destruct (s3SignedUrl env _ _); destruct H as [-> _]; discriminate.
Qed.

(** A request leaves a build where it is, and does not complete it. *)
Lemma serve_found env req w id i st :
  Build_findOne id w = Some (i, st) ->
  exists st', Build_findOne id (snd (serve env req w)) = Some (i, st') /\
              (status st <> Completed -> status st' <> Completed).
Proof.
  intros Hf. pose proof (Build_findOne_Some _ _ _ _ Hf) as [Hi _].
  destruct (serve_effect env req w) as [H|(j & b & b' & Hj & H & Hc)].
  - exists st. split; [|auto]. by rewrite (Build_findOne_builds _ _ _ H).
  - pose proof (handlerChange_identity _ _ _ _ Hc) as [(Hid & _) _].
    destruct (decide (j = i)) as [->|Hne].
    + rewrite Hi in Hj. injection Hj as <-.
      exists b'. split; [by eapply Build_findOne_insert|].
      by eapply handlerChange_notCompleted.
    + exists st. split; [|auto]. by eapply Build_findOne_insert_other.
Qed.

(** ** From [Build.findOne] to the first save *)

Lemma foundRun_loaded Ps id w i b :
  Build_findOne id w = Some (i, b) -> justLoaded Ps id i b (foundRun w i b).
Proof.
  intros H. split; [constructor|]. split; [reflexivity|].
  split; [|reflexivity]. exists b. auto.
Qed.

Lemma markProcessing_loaded env Ps id i b r :
  justLoaded Ps id i b r ->
  exists st d,
    Build_findOne id (world r) = Some (i, st) /\
    (status b <> Completed -> status st <> Completed) /\
    d = writeModified b (processingAt (clock env (ticks (world r))) b) st /\
    Build_findOne id (world (snd (markProcessing env r))) = Some (i, d) /\
    var_build (snd (markProcessing env r)) =
      Some {| pos := i; mem := processingAt (clock env (ticks (world r))) b;
              base := processingAt (clock env (ticks (world r))) b |} /\
    saved (snd (markProcessing env r)) = [d] /\
    served (snd (markProcessing env r)) = served r.
Proof.
  destruct r as [w v sv sd]. intros (HPs & Hsv & (st & Hf & Hs) & Hv).
  cbn [world var_build saved served] in *. subst v sv.
  pose proof (Build_findOne_Some _ _ _ _ Hf) as [Hi _].
  set (m := processingAt (clock env (ticks w)) b).
  assert (markProcessing env
            {| world := w; var_build := Some {| pos := i; mem := b; base := b |};
               saved := []; served := sd |} =
          (Done tt,
           {| world := with_builds (alter (writeModified b m) i (builds w))
                         (with_ticks (S (ticks w)) w);
              var_build := Some {| pos := i; mem := m; base := m |};
              saved := option_list (alter (writeModified b m) i (builds w) !! i);
              served := sd |})) as -> by reflexivity.
  cbn [snd world var_build saved served].
  exists st, (writeModified b m st).
  split; [exact Hf|]. split; [exact Hs|]. split; [reflexivity|].
  split; [|split; [reflexivity|]].
  - eapply (Build_findOne_alter id (with_ticks (S (ticks w)) w));
      [exact Hf|reflexivity|reflexivity].
  - rewrite list_lookup_alter, decide_True, Hi by reflexivity. auto.
Qed.

Section Loaded.

Variable env : Env.
Variable conc : nat -> list Request.
Variable Ps : Response -> Prop.
Variables (id : string) (i : nat) (b : Build).
Hypothesis Ps_first : forall req w, req ∈ conc 0 -> Ps (fst (serve env req w)).

Lemma justLoaded_yield : preserves (justLoaded Ps id i b) (yield env conc 0).
Proof.
  intros r Hr. destruct (yield_cases env conc 0 r) as [->| ->]; [exact Hr|].
  destruct Hr as (HPs & Hsv & Hst & Hv). cbn.
  destruct (serveAll_spec env
              (fun w => exists st, Build_findOne id w = Some (i, st) /\
                 (status b <> Completed -> status st <> Completed))
              Ps (conc 0) (world r)) as [Hw Hp]; [|exact Hst|].
  { intros req w Hin (st & Hf & Hs). split; [|by apply Ps_first].
    destruct (serve_found env req w id i st Hf) as (st' & Hf' & Hs').
    exists st'. auto. }
  split; [by apply Forall_app|]. auto.
Qed.

End Loaded.

(** Whatever the status of the build that a run finds, and whatever is
    served before the run first saves it, unless the build is processing
    already the first version that the run persists has status
    processing. *)
Lemma processBuild_first_saved env conc id w i b :
  Build_findOne id w = Some (i, b) ->
  status b <> Processing ->
  firstProcessing (snd (processBuild_run env conc id w)).
Proof.
  intros Hfind Hb.
  refine (processBuild_saved env conc
            (fun l => exists d l', l = d :: l' /\ status d = Processing) _
            (justLoaded (fun _ => True) id i b) id w i b Hfind _ _ _).
  - intros l l' (d & l0 & -> & Hd). exists d, (l0 ++ l'). auto.
  - by apply foundRun_loaded.
  - apply justLoaded_yield. auto.
  - intros r Hr.
    destruct (markProcessing_loaded env _ id i b r Hr)
      as (st & d & _ & _ & -> & _ & _ & -> & _).
    eexists _, []. split; [reflexivity|]. cbn. unfold written. cbn.
    destruct (decide _) as [E|E]; [by destruct Hb|reflexivity].
Qed.

(** ** A run never completes a build *)

Section Sound.

Variable env : Env.
Variable conc : nat -> list Request.
Variable Ps : Response -> Prop.
Variables (id : string) (i : nat).
Hypothesis Ps_first : forall req w, req ∈ conc 0 -> Ps (fst (serve env req w)).
Hypothesis Ps_later : forall k req w st,
  req ∈ conc k -> Build_findOne id w = Some (i, st) ->
  status st <> Completed -> Ps (fst (serve env req w)).

Lemma sound_liftW {A} (c : M World A) :
  (forall w, builds (snd (c w)) = builds w) ->
  preserves (sound Ps id i) (liftW c).
Proof.
  intros Hc r (HPs & Hsv & (st & Hf & Hs) & Hd). unfold liftW.
  specialize (Hc (world r)). destruct (c (world r)) as [o w']. cbn in *.
  split; [exact HPs|]. split; [exact Hsv|]. split; [|exact Hd].
  exists st. split; [|exact Hs]. by rewrite (Build_findOne_builds _ _ _ Hc).
Qed.

Lemma sound_assign upd : quietUpdate upd -> preserves (sound Ps id i) (assign upd).
Proof.
  intros Hu r (HPs & Hsv & Hst & d & Hv & Hp & Hm). unfold assign. rewrite Hv.
  split; [exact HPs|]. split; [exact Hsv|]. split; [exact Hst|].
  eexists. split; [reflexivity|]. cbn. split; [exact Hp|]. by apply Hu.
Qed.

Lemma sound_save : preserves (sound Ps id i) save.
Proof.
  intros r (HPs & Hsv & (st & Hf & Hs) & d & Hv & Hp & Hm). unfold save.
  rewrite Hv. cbn. subst i.
  pose proof (Build_findOne_Some _ _ _ _ Hf) as [Hi _].
  assert (status (writeModified (base d) (mem d) st) <> Completed) as Hw.
  { cbn. unfold written. by destruct (decide _). }
  split; [exact HPs|]. split; [|split].
  - apply Forall_app. split; [exact Hsv|].
    rewrite list_lookup_alter, decide_True, Hi by reflexivity.
    by apply Forall_singleton.
  - eexists. split; [|exact Hw].
    eapply Build_findOne_alter; [exact Hf|reflexivity|reflexivity].
  - eexists. split; [reflexivity|]. auto.
Qed.

Lemma sound_yield k : preserves (sound Ps id i) (yield env conc k).
Proof.
  intros r Hr. destruct (yield_cases env conc k r) as [->| ->]; [exact Hr|].
  destruct Hr as (HPs & Hsv & Hst & Hd). cbn.
  destruct (serveAll_spec env
              (fun w => exists st, Build_findOne id w = Some (i, st) /\
                                   status st <> Completed)
              Ps (conc k) (world r)) as [Hw Hp]; [|exact Hst|].
  { intros req w Hin (st & Hf & Hs). split; [|by eapply Ps_later].
    destruct (serve_found env req w id i st Hf) as (st' & Hf' & Hs').
    exists st'. auto. }
  split; [by apply Forall_app|]. split; [exact Hsv|]. split; [exact Hw|exact Hd].
Qed.

Lemma sound_markProcessing b r :
  justLoaded Ps id i b r -> sound Ps id i (snd (markProcessing env r)).
Proof.
  intros Hr. pose proof Hr as (HPs & _).
  destruct (markProcessing_loaded env _ id i b r Hr)
    as (st & d & _ & Hs & -> & Hf & Hv & Hsv & Hsd).
  assert (status (writeModified b (processingAt (clock env (ticks (world r))) b)
                    st) <> Completed) as Hw.
  { cbn. unfold written. cbn. destruct (decide _) as [E|E]; [|discriminate].
    apply Hs. rewrite <- E. discriminate. }
  split; [by rewrite Hsd|]. split; [rewrite Hsv; by apply Forall_singleton|].
  split; [eauto|]. eexists. split; [exact Hv|]. split; [reflexivity|].
  cbn. discriminate.
Qed.

(** The run of a build that is found. *)
Lemma processBuild_sound w b :
  Build_findOne id w = Some (i, b) ->
  sound Ps id i (snd (processBuild_run env conc id w)).
Proof.
  intros Hfind.
  apply (cut_run env conc (sound Ps id i)) with
    (J := justLoaded Ps id i b) (i := i) (b := b).
  - apply sound_liftW. reflexivity.
  - intros p q. apply sound_liftW. reflexivity.
  - intros o f. apply sound_liftW. reflexivity.
  - apply sound_assign.
  - apply sound_save.
  - apply sound_yield.
  - exact Hfind.
  - by apply foundRun_loaded.
  - by apply justLoaded_yield.
  - apply sound_markProcessing.
Qed.

End Sound.

(** ** A run that nothing interferes with *)

Lemma inStages_wstable w0 b : wstable (inStages w0 b).
Proof. intros m st w w' Ho _ _ [? ?]. split; congruence. Qed.

Lemma inStages_sstable w0 b : sstable (inStages w0 b).
Proof. intros m st w H. exact H. Qed.

(** A computation that persists nothing leaves the progress log alone. *)
Lemma triple_logged (P : Run -> Prop) {A} (m : M Run A) Q E sv :
  triple P m Q E ->
  (forall s, preserves (onSaved (eq s)) m) ->
  triple (withLog P sv) m (fun a => withLog (Q a) sv) E.
Proof.
  intros Hm Hs r [HP Hlog]. specialize (Hm r HP).
  specialize (Hs (saved r) r eq_refl). unfold onSaved in Hs.
  destruct (m r) as [[a|e] r']; [|exact Hm].
  split; [exact Hm|]. cbn in Hs. rewrite <- Hs. exact Hlog.
Qed.

Lemma triple_logged_pure (phi : Prop) (P : Run -> Prop) {A} (m : M Run A) Q E sv :
  (phi -> triple (withLog P sv) m Q E) ->
  triple (withLog (fun r => phi /\ P r) sv) m Q E.
Proof. intros H r [[Hphi HP] Hlog]. apply (H Hphi). split; assumption. Qed.

(** Steps that persist nothing. *)
Ltac quietly :=
  intros ?;
  repeat first
    [ apply preserves_ret | apply preserves_throw | apply preserves_await
    | apply preserves_theBuild | apply preserves_theWorld
    | apply onSaved_liftW | apply onSaved_assign | apply onSaved_yield
    | apply preserves_bind; [|intros ?]
    | apply preserves_tryCatch; [|intros ?]
    | match goal with
      | |- preserves _ (match ?x with _ => _ end) => destruct x
      | |- preserves _ (if ?c then _ else _) => destruct c
      end ].

Section Walk.

Variable env : Env.
Variables (w0 : World) (i : nat) (b : Build).
Variables (Ee Eu : string -> Prop).
Hypothesis HR : Raises Ee Eu env.
Hypothesis Hi : builds w0 !! i = Some b.

Let X := inStages w0 b.
Let Xw : wstable X := inStages_wstable w0 b.
Let Xs : sstable X := inStages_sstable w0 b.

(** A step of the run before [createPackage]: it keeps [inStages]. *)
Ltac kstep :=
  lazymatch goal with
  | |- triple _ (bind ?m _) _ _ =>
      eapply triple_bind;
        [ lazymatch m with
          | addBuildStage _ _ _ =>
              apply (keeps_addBuildStage env w0 i b X Xw X); [exact Xw|exact Xs|];
              intros ? ? ? ? ? H; exact H
          | yield _ _ _ => apply triple_yield_alone
          | await _ =>
              apply (keeps_await w0 i b Ee X) with
                (Q := fun _ => tracking w0 i b X); [apply HR|auto]
          | copyTemplate _ _ _ =>
              apply (keeps_copyTemplate env w0 i b Ee Eu HR X Xw)
          | configureSystem _ _ _ _ =>
              apply (keeps_configureSystem env w0 i b Ee Eu HR X)
          | generateDatabase _ _ _ _ =>
              apply (keeps_generateDatabase env w0 i b Ee Eu HR X)
          | installDependencies _ _ =>
              apply (keeps_installDependencies env w0 i b X)
          | assign _ =>
              apply (keeps_assign w0 i b X);
              [reflexivity | intros ? ? ? H; exact H]
          | liftW (now _) =>
              apply (keeps_now env w0 i b X Xw) with
                (Q := fun _ => tracking w0 i b X); auto
          | save => apply (keeps_save w0 i b X Xw Xs)
          end
        | intros ?; cbv beta ]
  end.

Lemma markProcessing_spec E :
  triple (tracking w0 i b X) (markProcessing env)
         (fun _ => tracking w0 i b X) E.
Proof. unfold markProcessing. do 4 kstep. apply (keeps_save w0 i b X Xw Xs). Qed.

(** The stages: the run gets as far as [createPackage], at most. *)
Lemma processBuild_stages_spec id :
  triple (tracking w0 i b X) (processBuild_stages env alone id)
         (fun _ _ => False)
         (fun e r => Ee e /\ tracking w0 i b X r).
Proof.
  unfold processBuild_stages.
  eapply triple_bind; [apply triple_theBuild|]. intros bld; cbv beta.
  apply triple_pure; intros _.
  eapply triple_bind; [apply (triple_theWorld w0 i b X)|].
  intros w; cbv beta. apply triple_pure; intros _. cbv zeta.
  kstep.
  eapply triple_bind; [apply (triple_theWorld w0 i b X)|].
  intros w'; cbv beta. apply triple_pure; intros _. cbv zeta.
  repeat kstep.
  apply (keeps_createPackage env w0 i b Ee Eu HR X).
Qed.

Lemma processBuild_try_spec id :
  Build_findOne id w0 = Some (i, b) ->
  triple (fun r => r = startRun w0) (processBuild_try env alone id)
         (fun _ _ => False)
         (fun e r => Ee e /\ tracking w0 i b X r).
Proof.
  intros Hfind r ->. unfold processBuild_try.
  erewrite bind_done by reflexivity. cbn [world startRun]. rewrite Hfind.
  erewrite bind_done by apply setBuild_found.
  match goal with
  | |- match ?m ?s with _ => _ end =>
      cut (triple (tracking w0 i b X) m (fun _ _ => False)
             (fun e r => Ee e /\ tracking w0 i b X r));
        [intros H; apply H|]
  end.
  { exists b, b. cbn. rewrite list_insert_id by exact Hi.
    unfold X, inStages. auto 8. }
  kstep.
  eapply triple_bind; [apply markProcessing_spec|]. intros ?; cbv beta.
  kstep.
  apply processBuild_stages_spec.
Qed.

(** A save persists the in-memory document, and with it its progress. *)
Lemma save_logged (Z Z' : Build -> Build -> World -> Prop) p sv
    (E : string -> Run -> Prop) :
  (forall m st w bs, frame m = frame b -> Z m st w ->
     Z' m m (with_builds bs w) /\ progress m = p) ->
  triple (withLog (tracking w0 i b Z) sv) save
         (fun _ => withLog (tracking w0 i b Z') (sv ++ [p])) E.
Proof.
  intros HZ r [(m & st & Hv & Hb & Hfm & Hfs & Hx) Hlog].
  unfold save. rewrite Hv. cbn [pos mem base].
  assert (alter (writeModified st m) i (builds (world r)) = <[i := m]> (builds w0))
    as Hbs by (rewrite Hb, alter_insert_same, writeModified_self by congruence;
               reflexivity).
  rewrite Hbs.
  destruct (HZ m st (world r) (<[i := m]> (builds w0)) Hfm Hx) as [Hx' Hp].
  split.
  - exists m, m. cbn. auto 6.
  - cbn. rewrite fmap_app, Hlog.
    rewrite list_lookup_insert_eq by (eapply lookup_lt_Some; exact Hi).
    cbn. rewrite Hp. reflexivity.
Qed.

(** The [catch] block, [Y] being what else is known of the document in
    memory and of the world, and [p] the progress last assigned. *)
Lemma processBuild_catch_logged (Y : Build -> World -> Prop) e p sv :
  (forall v m w, Y m w -> Y (set_status v m) w) ->
  (forall v m w, Y m w -> Y (set_error v m) w) ->
  (forall v m w, Y m w -> Y (set_completedAt v m) w) ->
  (forall m w w', schools w' = schools w -> users w' = users w ->
     Y m w -> Y m w') ->
  triple (withLog (tracking w0 i b
                     (fun m st w => X m st w /\ Y m w /\ progress m = p)) sv)
         (processBuild_catch env alone e) (fun _ _ => False)
         (fun e' r => e' = e /\
            withLog (tracking w0 i b
                       (fun m st w => failedWith w0 b e m st w /\ Y m w /\
                                      progress m = p)) (sv ++ [p]) r).
Proof.
  intros HY1 HY2 HY3 HYw.
  intros r HJ. pose proof HJ as [(m & st & Hv & _ & Hfm & _) _].
  unfold processBuild_catch. rewrite Hv. cbn [mem].
  revert r HJ Hv.
  pose (C := fun (q : Build -> Prop) (m : Build) (st : Build) (w : World) =>
               X m st w /\ Y m w /\ progress m = p /\ q m).
  enough (triple (withLog (tracking w0 i b (C (fun _ => True))) sv)
    (do! assign (set_status Failed) in
     do! assign (set_error (Some e)) in
     let! t := liftW (now env) in
     do! assign (set_completedAt (Some t)) in
     do! save in
     do! yield env alone 19 in
     do! liftW (Order_findByIdAndUpdate (order m) (set_o_status "failed" "failed")) in
     do! yield env alone 20 in
     throw e) (fun (_ : BuildResult) _ => False)
    (fun e' r => e' = e /\
       withLog (tracking w0 i b
                  (fun m st w => failedWith w0 b e m st w /\ Y m w /\
                                 progress m = p)) (sv ++ [p]) r)) as H.
  { intros r [HJ Hlog] _. apply (H r). split; [|exact Hlog].
    eapply tracking_mono; [|exact HJ]. unfold C. intros ? ? ? (? & ? & ?). auto. }
  assert (forall q, wstable (C q)) as HCw.
  { intros q m' st' w w' Ho Hs Hu (Hx & Hy & Hp & Hq). unfold C.
    split; [eapply Xw; eauto|]. split; [eapply HYw; eauto|]. auto. }
  eapply triple_bind.
  { apply triple_logged; [|quietly].
    apply (triple_assign w0 i b _ (C (fun m => status m = Failed)));
      [reflexivity|]. intros m' st' w _ (Hx & Hy & Hp & _). unfold C.
    split; [exact Hx|]. split; [by apply HY1|]. auto. }
  intros ?; cbv beta.
  eapply triple_bind.
  { apply triple_logged; [|quietly].
    apply (triple_assign w0 i b _
             (C (fun m => status m = Failed /\ error m = Some e)));
      [reflexivity|]. intros m' st' w _ (Hx & Hy & Hp & Hs). unfold C.
    split; [exact Hx|]. split; [by apply HY2|]. auto. }
  intros ?; cbv beta.
  eapply triple_bind.
  { apply triple_logged; [|quietly].
    apply (keeps_now env w0 i b _ (HCw _)). intros ? ? H; exact H. }
  intros t; cbv beta.
  eapply triple_bind.
  { apply triple_logged; [|quietly].
    apply (triple_assign w0 i b _
             (C (fun m => status m = Failed /\ error m = Some e /\
                          is_Some (completedAt m))));
      [reflexivity|]. intros m' st' w _ (Hx & Hy & Hp & Hs & He). unfold C.
    split; [exact Hx|]. split; [by apply HY3|]. eauto 6. }
  intros ?; cbv beta.
  eapply triple_bind.
  { apply (save_logged _
             (fun m st w => st = m /\
                C (fun m => status m = Failed /\ error m = Some e /\
                            is_Some (completedAt m)) m st w) p).
    intros m' st' w bs _ H. pose proof H as (_ & _ & Hp & _).
    split; [|exact Hp]. split; [reflexivity|].
    eapply HCw; [..|exact H]; reflexivity. }
  intros ?; cbv beta.
  eapply triple_bind; [apply triple_yield_alone|]. intros ?; cbv beta.
  eapply triple_bind.
  { apply triple_logged; [|quietly].
    apply (triple_liftW w0 i b _
             (fun m st w => failedWith w0 b e m st w /\ Y m w /\
                            progress m = p)) with
      (Q := fun _ => tracking w0 i b
                       (fun m st w => failedWith w0 b e m st w /\ Y m w /\
                                      progress m = p));
      [reflexivity | | eexists; reflexivity | intros ? ? H; exact H].
    intros m' st' w (-> & [Hd Ho] & Hy & Hp & Hs & He & Hc).
    split; [|split; [eapply HYw; [..|exact Hy]; reflexivity|exact Hp]].
    unfold failedWith.
    split; [reflexivity|]. split; [assumption|]. split; [assumption|].
    split; [assumption|]. split; [assumption|]. cbn. rewrite Ho.
    apply frame_fields in Hfm as (_ & -> & _). reflexivity. }
  intros ?; cbv beta.
  eapply triple_bind; [apply triple_yield_alone|]. intros ?; cbv beta.
  apply triple_throw. auto.
Qed.

Lemma processBuild_catch_spec e :
  triple (tracking w0 i b X) (processBuild_catch env alone e) (fun _ _ => False)
         (fun e' r => e' = e /\ tracking w0 i b (failedWith w0 b e) r).
Proof.
  intros r HJ. pose proof HJ as (m & st & Hv & Hb & Hfm & Hfs & Hx).
  pose proof (processBuild_catch_logged (fun _ _ => True) e (progress m)
                (progress <$> saved r)) as H.
  specialize (H (fun _ _ _ _ => I) (fun _ _ _ _ => I) (fun _ _ _ _ => I)
                (fun _ _ _ _ _ _ => I) r).
  destruct (processBuild_catch env alone e r) as [[res|e'] r'].
  - apply H. split; [|reflexivity]. exists m, st. auto 8.
  - destruct H as [-> [H _]].
    { split; [|reflexivity]. exists m, st. auto 8. }
    split; [reflexivity|]. eapply tracking_mono; [|exact H].
    intros ? ? ? [? _]. assumption.
Qed.

(** The run as a whole: it throws, and leaves the build failed. *)
Lemma processBuild_run_spec id :
  Build_findOne id w0 = Some (i, b) ->
  match processBuild_run env alone id w0 with
  | (Done _, r) => False
  | (Threw e, r) => Ee e /\ tracking w0 i b (failedWith w0 b e) r
  end.
Proof.
  intros Hfind. unfold processBuild_run.
  assert (triple (fun r => r = startRun w0)
            (tryCatch (processBuild_try env alone id) (processBuild_catch env alone))
            (fun _ _ => False)
            (fun e r => Ee e /\ tracking w0 i b (failedWith w0 b e) r)) as H.
  { eapply triple_tryCatch; [apply processBuild_try_spec; assumption|].
    intros e. apply triple_pure. intros He.
    eapply triple_conseq; [apply (processBuild_catch_spec e)|auto|..].
    - intros ? ? [].
    - intros e' s [-> Hs]. auto. }
  apply (H (startRun w0)). reflexivity.
Qed.

End Walk.

(** * The record invariant *)


Lemma tracked_doc w0 i b X r :
  builds w0 !! i = Some b ->
  tracking w0 i b X r ->
  exists m st, builds (world r) = <[i := st]> (builds w0) /\
               builds (world r) !! i = Some st /\
               frame st = frame b /\ X m st (world r).
Proof.
  intros Hi (m & st & _ & Hb & _ & Hf & Hx). exists m, st.
  split; [exact Hb|]. split; [|auto].
  rewrite Hb. apply list_lookup_insert_eq. by eapply lookup_lt_Some.
Qed.





(** A run that nothing interferes with: what it throws and what it
    leaves. *)
Lemma processBuild_failure env id w i b :
  EnvOk env ->
  Build_findOne id w = Some (i, b) ->
  exists msg d,
    fst (processBuild_run env alone id w) = Threw msg /\ msg <> "" /\
    builds (world (snd (processBuild_run env alone id w))) = <[i := d]> (builds w) /\
    builds (world (snd (processBuild_run env alone id w))) !! i = Some d /\
    frame d = frame b /\
    status d = Failed /\ error d = Some msg /\ is_Some (completedAt d) /\
    downloadUrl d = downloadUrl b /\
    orders (world (snd (processBuild_run env alone id w))) =
      alter (set_o_status "failed" "failed") (order b) (orders w).
Proof.
  intros Hok Hfind.
  pose proof (Build_findOne_Some _ _ _ _ Hfind) as [Hi _].
  pose proof (processBuild_run_spec env w i b nonEmpty nonEmpty Hok Hi id Hfind) as H.
  destruct (processBuild_run env alone id w) as [[res|e] r]; [destruct H|].
  destruct H as [He H]. cbn [fst snd].
  apply (tracked_doc _ _ _ _ _ Hi) in H as (m & st & Hb & Hst & Hf & Hs).
  destruct Hs as (-> & Hstat & Herr & Hc & Hurl & Hord).
  exists e, m. auto 12.
Qed.

(** Every environment raises something and signs something. *)
Lemma Raises_any env : Raises (fun _ => True) (fun _ => True) env.
Proof. constructor; auto. Qed.

(** [completeBuildStage], the method no run calls, does complete the
    first open stage of the given name. *)
Lemma completeFirst_completes name t l l' :
  completeFirst name t l = Some l' ->
  exists j s, l !! j = Some s /\ st_name s = name /\ st_completedAt s = None /\
    l' = <[j := {| st_name := st_name s; st_status := "completed";
                   st_startedAt := st_startedAt s; st_completedAt := Some t;
                   st_error := st_error s |}]> l.
Proof.
  revert l'. induction l as [|s l IH]; intros l' H; [discriminate|].
  cbn in H. destruct (bool_decide _) eqn:Hd.
  - apply bool_decide_eq_true in Hd as [Hn Hc]. injection H as <-.
    exists 0, s. auto.
  - destruct (completeFirst name t l) as [l0|]; [|discriminate].
    injection H as <-. destruct (IH l0 eq_refl) as (j & s' & ? & ? & ? & ->).
    exists (S j), s'. auto.
Qed.

(** * Scenarios *)

Lemma scenarioEnv_ok t0 tiers : EnvOk (scenarioEnv t0 tiers).
Proof.
  constructor; unfold nonEmpty; cbn; intros; try discriminate;
    repeat match goal with
           | H : (if ?c then _ else _) = _ |- _ => destruct c
           | H : Done _ = Done _ |- _ => injection H as <-; discriminate
           | H : Threw _ = Threw _ |- _ => injection H as <-; discriminate
           | H : Done _ = Threw _ |- _ => discriminate H
           end.
Qed.

Lemma worldQueued_found : Build_findOne id1 worldQueued = Some (0, queuedBuild).
Proof. vm_compute. reflexivity. Qed.

Lemma worldCompleted_found :
  Build_findOne id1 worldCompleted = Some (0, completedBuild).
Proof. vm_compute. reflexivity. Qed.

(** * The claims *)

(** C1: [BuildService.createBuild] never succeeds, not even once.  For an
    order and a school that exist and a tier that the schema allows,
    whether or not the order already has a build, [Build.create] rejects
    the document because it has no [buildId] (the hook that would
    generate one runs after validation), [createBuild] re-throws the
    validation error, and no build is stored: the database is as it was,
    but for the clock. *)
Theorem createBuild_rejects (env : Env) (o s u : nat) (w : World) (ord : Order) :
  Order_findById o w = Some ord ->
  is_Some (School_findById s w) ->
  o_packageType ord ∈ packageEnum ->
  createBuild env o s u w =
    (Threw buildIdRequired, with_ticks (S (ticks w)) w).
Proof.
  apply createBuild_rejection.
Qed.

Lemma createBuild_rejects_witness :
  createBuild okEnv 0 0 0 world0 =
    (Threw buildIdRequired, with_ticks (S (ticks world0)) world0).
Proof.
  apply (createBuild_rejects okEnv 0 0 0 world0
           {| orderId := "ORD-001"; o_user := 0; o_school := Some 0;
              o_packageType := "medium"; o_packageDuration := "annually";
              o_paymentStatus := "completed"; o_status := "confirmed";
              o_buildStatus := "pending"; o_downloadUrl := None |}).
  - reflexivity.
  - eexists. reflexivity.
  - vm_compute. repeat constructor.
Defined.

(** C2, the claim as stated fails on dispatch: [processBuild] run on a
    completed build first persists it as processing, and leaves it failed
    when the run fails. *)
Lemma dispatch_reopens_completed :
  Build_findOne id1 worldCompleted = Some (0, completedBuild) /\
  status completedBuild = Completed /\
  status <$> head (saved (snd (processBuild_run okEnv alone id1 worldCompleted)))
    = Some Processing /\
  status <$> builds (snd (processBuild okEnv alone id1 worldCompleted)) !! 0
    = Some Failed.
Proof. vm_compute. repeat split; reflexivity. Qed.

(** C2, as amended: no request handler changes the status of a completed,
    failed or cancelled build, except a retry, which moves a failed build
    to queued.  A dispatch is not guarded by the status: whatever the
    status of the build it finds, the first thing [processBuild] persists
    is that build with status processing. *)
Theorem terminal_status_handlers (env : Env) (req : Request)
    (conc : nat -> list Request) (w : World) (id : string) (i : nat)
    (b : Build) :
  Build_findOne id w = Some (i, b) ->
  status b = Completed \/ status b = Failed \/ status b = Cancelled ->
  (exists b', builds (snd (serve env req w)) !! i = Some b' /\
     (status b' = status b \/
      (status b = Failed /\ status b' = Queued /\
       exists u, req = ReqRetry (buildId b) u))) /\
  (exists d l, saved (snd (processBuild_run env conc id w)) = d :: l /\
     status d = Processing).
Proof.
  intros Hfind Hterm. split.
  - apply Build_findOne_Some in Hfind as [Hi _].
    by apply serve_terminal.
  - apply (processBuild_first_saved env conc id w i b Hfind).
    destruct Hterm as [H|[H|H]]; rewrite H; discriminate.
Qed.

Lemma terminal_status_handlers_witness :
  Build_findOne id1 worldCompleted = Some (0, completedBuild) /\
  (status completedBuild = Completed \/ status completedBuild = Failed \/
   status completedBuild = Cancelled) /\
  (exists b', builds (snd (serve okEnv (ReqCancel id1 0) worldCompleted)) !! 0
                = Some b' /\
     (status b' = status completedBuild \/
      (status completedBuild = Failed /\ status b' = Queued /\
       exists u, ReqCancel id1 0 = ReqRetry (buildId completedBuild) u))) /\
  (exists d l, saved (snd (processBuild_run okEnv alone id1 worldCompleted))
                 = d :: l /\ status d = Processing).
Proof.
  split; [exact worldCompleted_found|].
  split; [left; vm_compute; reflexivity|].
  apply (terminal_status_handlers okEnv (ReqCancel id1 0) alone worldCompleted
           id1 0 completedBuild).
  - exact worldCompleted_found.
  - left. vm_compute. reflexivity.
Defined.



(** C4: when the template directory of the tier is absent, [copyTemplate]
    does not fall back to the base template: the assignment to the
    constant [templatePath] raises a TypeError and nothing is copied. *)
Theorem copyTemplate_missing_template (env : Env) (tier dest : string)
    (r : Run) (e : string) :
  fsAccess env (path_join templateDir tier) = Threw e ->
  copyTemplate env tier dest r = (Threw "Assignment to constant variable.", r).
Proof.
  intros H. unfold copyTemplate, bind, tryCatch, await. rewrite H. reflexivity.
Qed.

Lemma copyTemplate_missing_template_witness :
  fsAccess okEnv (path_join templateDir "enterprise") =
    Threw "ENOENT: no such file or directory, access 'templates/enterprise'" /\
  copyTemplate okEnv "enterprise" "builds/BLD-1" (startRun world0) =
    (Threw "Assignment to constant variable.", startRun world0).
Proof.
  split; [reflexivity|].
  apply (copyTemplate_missing_template okEnv "enterprise" "builds/BLD-1"
           (startRun world0)
           "ENOENT: no such file or directory, access 'templates/enterprise'").
  reflexivity.
Defined.

(** C5: if a run (with no request interleaved) stops in the packaging
    stage, then [processBuild] throws the error [msg] it caught and
    afterwards the build has status failed, error [msg] (non-empty, as the
    collaborators' errors carry a message), [completedAt] set and the
    download URL it had before (so none, if it had none), and the owning
    order has buildStatus and status "failed". *)
Theorem packaging_failure (env : Env) (id : string) (w : World) (i : nat)
    (b : Build) :
  EnvOk env ->
  Build_findOne id w = Some (i, b) ->
  (exists d, builds (snd (processBuild env alone id w)) !! i = Some d /\
             last (st_name <$> stages d) = Some "packaging") ->
  exists msg d,
    fst (processBuild env alone id w) = Threw msg /\
    builds (snd (processBuild env alone id w)) !! i = Some d /\
    status d = Failed /\ error d = Some msg /\ msg <> "" /\
    is_Some (completedAt d) /\
    downloadUrl d = downloadUrl b /\
    (forall o, orders w !! order b = Some o ->
       exists o', orders (snd (processBuild env alone id w)) !! order b = Some o' /\
                  o_buildStatus o' = "failed" /\ o_status o' = "failed").
Proof.
  intros Hok Hfind _. unfold processBuild.
  destruct (processBuild_failure env id w i b Hok Hfind)
    as (msg & d & Ht & Hne & _ & Hd & _ & Hs & He & Hc & Hu & Ho).
  destruct (processBuild_run env alone id w) as [o r]. cbn [fst snd] in *.
  exists msg, d. repeat (split; [assumption|]).
  intros ord Hord. rewrite Ho, list_lookup_alter, decide_True by reflexivity.
  rewrite Hord. cbn. eauto.
Qed.

Lemma packaging_failure_witness :
  EnvOk okEnv /\
  Build_findOne id1 worldQueued = Some (0, queuedBuild) /\
  (exists d, builds (snd (processBuild okEnv alone id1 worldQueued)) !! 0
               = Some d /\
             last (st_name <$> stages d) = Some "packaging") /\
  exists msg d,
    fst (processBuild okEnv alone id1 worldQueued) = Threw msg /\
    builds (snd (processBuild okEnv alone id1 worldQueued)) !! 0 = Some d /\
    status d = Failed /\ error d = Some msg /\ msg <> "" /\
    is_Some (completedAt d) /\
    downloadUrl d = downloadUrl queuedBuild /\
    (forall o, orders worldQueued !! order queuedBuild = Some o ->
       exists o', orders (snd (processBuild okEnv alone id1 worldQueued))
                    !! order queuedBuild = Some o' /\
                  o_buildStatus o' = "failed" /\ o_status o' = "failed").
Proof.
  assert (EnvOk okEnv) as Hok by apply scenarioEnv_ok.
  assert (exists d,
            builds (snd (processBuild okEnv alone id1 worldQueued)) !! 0
              = Some d /\
            last (st_name <$> stages d) = Some "packaging") as Hstop
    by (eexists; vm_compute; split; reflexivity).
  split; [exact Hok|]. split; [exact worldQueued_found|]. split; [exact Hstop|].
  exact (packaging_failure okEnv id1 worldQueued 0 queuedBuild Hok
           worldQueued_found Hstop).
Defined.

(** C6: a retry changes something only on a failed build (that the
    requester owns); it then stores the build with status queued, progress
    0, no stages, no error, no startedAt and no completedAt, and with every
    other field as it was; no other document changes.  (The handler then
    fails to enqueue the build: the queue manager has no queue named
    "process-build".) *)
Theorem retryBuild_resets (id : string) (userId : nat) (w : World) :
  let res := retryBuild id userId w in
  match findOwnedBuild id userId w with
  | None => res = (notFound, w)
  | Some (i, b) =>
      if decide (status b = Failed) then
        exists b',
          builds (snd res) = <[i := b']> (builds w) /\
          status b' = Queued /\ progress b' = 0%Z /\ stages b' = [] /\
          error b' = None /\ startedAt b' = None /\ completedAt b' = None /\
          buildId b' = buildId b /\ order b' = order b /\
          school b' = school b /\ user b' = user b /\
          package b' = package b /\ downloadCount b' = downloadCount b /\
          downloadUrl b' = downloadUrl b /\
          lastDownloadAt b' = lastDownloadAt b /\
          buildLogs b' = buildLogs b /\ expiresAt b' = expiresAt b /\
          metadata b' = metadata b /\ createdAt b' = createdAt b /\
          orders (snd res) = orders w /\ schools (snd res) = schools w /\
          users (snd res) = users w /\ jobs (snd res) = jobs w
      else res = (Json 400 false "Only failed builds can be retried" [], w)
  end.
Proof.
  pose proof (retryBuild_effect id userId w) as H. cbv zeta.
  destruct (findOwnedBuild id userId w) as [[i b]|]; [|exact H].
  destruct (decide (status b = Failed)); [|exact H].
  rewrite H. exists (resetForRetry b). cbn. auto 30.
Qed.

(** C7: a download of a completed build is served and counted also after
    [expiresAt] has passed: [downloadSystem] never reads [expiresAt],
    unlike [generateNewLink] and [verifyDownload]. *)
Theorem downloadSystem_after_expiry :
  exists url w' b',
    expiredAt (clock lateEnv (ticks worldCompleted)) completedBuild = true /\
    findOwnedBuild id1 0 worldCompleted = Some (0, completedBuild) /\
    downloadSystem lateEnv id1 0 worldCompleted = (Redirect url, w') /\
    builds w' !! 0 = Some b' /\
    downloadCount b' = (downloadCount completedBuild + 1)%Z /\
    lastDownloadAt b' = Some (clock lateEnv (ticks worldCompleted)).
Proof. do 3 eexists. vm_compute. repeat split; reflexivity. Qed.

(** C8, the claim as stated fails on a cancellation in mid-run: the owner
    cancels while the first stage runs, the request is accepted, and the
    run goes on persisting progress 20, 40, 60 and 80 for the cancelled
    build; when it then fails in the packaging stage it stores the build
    as failed and marks the order as failed. *)
Lemma cancel_midrun_progress_persisted :
  let r := snd (processBuild_run okEnv (cancelAt 4) id1 worldQueued) in
  served r = [Json 200 true "Build cancelled successfully" []] /\
  (fun d => (status d, progress d)) <$> saved r =
    [(Processing, 0); (Processing, 0); (Cancelled, 20); (Cancelled, 20);
     (Cancelled, 40); (Cancelled, 40); (Cancelled, 60); (Cancelled, 60);
     (Cancelled, 80); (Cancelled, 80); (Failed, 80)]%Z /\
  status <$> builds (world r) !! 0 = Some Failed /\
  (fun o => (o_status o, o_buildStatus o)) <$> orders (world r) !! 0 =
    Some ("failed", "failed").
Proof. vm_compute. repeat split; reflexivity. Qed.

(** C8, as amended: a cancel request is accepted only while the build
    (that the requester owns) is queued or processing, otherwise it is
    rejected and nothing changes; when accepted it stores status cancelled
    and completedAt = now, leaves every other field of the build alone,
    and sets buildStatus and status of the order to "cancelled". *)
Theorem cancelBuild_accepts_queued_processing (env : Env) (id : string)
    (userId : nat) (w : World) :
  let res := cancelBuild env id userId w in
  match findOwnedBuild id userId w with
  | None => res = (notFound, w)
  | Some (i, b) =>
      if decide (status b = Queued \/ status b = Processing) then
        exists b',
          fst res = Json 200 true "Build cancelled successfully" [] /\
          builds (snd res) = <[i := b']> (builds w) /\
          status b' = Cancelled /\
          completedAt b' = Some (clock env (ticks w)) /\
          buildId b' = buildId b /\ order b' = order b /\
          school b' = school b /\ user b' = user b /\
          package b' = package b /\ progress b' = progress b /\
          stages b' = stages b /\ downloadUrl b' = downloadUrl b /\
          downloadCount b' = downloadCount b /\
          lastDownloadAt b' = lastDownloadAt b /\
          buildLogs b' = buildLogs b /\ error b' = error b /\
          startedAt b' = startedAt b /\ expiresAt b' = expiresAt b /\
          metadata b' = metadata b /\ createdAt b' = createdAt b /\
          orders (snd res) =
            alter (fun o => set_o_status "cancelled" "cancelled" o) (order b)
                  (orders w) /\
          schools (snd res) = schools w /\ users (snd res) = users w /\
          jobs (snd res) = jobs w /\ outbox (snd res) = outbox w
      else
        res = (Json 400 false
                 "Only queued or processing builds can be cancelled" [], w)
  end.
Proof.
  pose proof (cancelBuild_effect env id userId w) as H. cbv zeta.
  destruct (findOwnedBuild id userId w) as [[i b]|]; [|exact H].
  destruct (decide (status b = Queued \/ status b = Processing)); [|exact H].
  rewrite H. exists (cancelled (clock env (ticks w)) b). cbn. auto 30.
Qed.




(** C10: regenerating the link succeeds only for a completed build (that
    the requester owns) whose [expiresAt] has not passed; otherwise the
    request is rejected and no document changes.  On success the stored
    build gets the URL that object storage signs for 24 hours for the key
    builds/<buildId>/school-system.zip, and nothing else changes. *)
Theorem generateNewLink_replaces_url (env : Env) (id : string) (userId : nat)
    (w : World) :
  let res := generateNewLink env id userId w in
  match findOwnedBuild id userId w with
  | None => res = (notFound, w)
  | Some (i, b) =>
      if decide (status b = Completed) then
        if expiredAt (clock env (ticks w)) b then
          fst res =
            Json 400 false "Download link has expired. Please contact support." []
          /\ same_data w (snd res)
        else
          match s3SignedUrl env ("builds/" +:+ buildId b +:+ "/school-system.zip")
                            (24 * 60 * 60) with
          | Done newUrl =>
              exists b',
                fst res = Json 200 true "New download link generated"
                               [("downloadUrl", newUrl)] /\
                builds (snd res) = <[i := b']> (builds w) /\
                downloadUrl b' = Some newUrl /\
                frame b' = frame b /\
                status b' = status b /\ progress b' = progress b /\
                stages b' = stages b /\ error b' = error b /\
                startedAt b' = startedAt b /\ completedAt b' = completedAt b /\
                metadata b' = metadata b /\
                orders (snd res) = orders w /\ schools (snd res) = schools w /\
                users (snd res) = users w /\ jobs (snd res) = jobs w /\
                outbox (snd res) = outbox w
          | Threw e => fst res = NextError e /\ same_data w (snd res)
          end
      else res = (Json 400 false "Build is not yet completed" [], w)
  end.
Proof.
  pose proof (generateNewLink_effect env id userId w) as H. cbv zeta in *.
  destruct (findOwnedBuild id userId w) as [[i b]|]; [|exact H].
  destruct (decide (status b = Completed)) as [Hs|Hs]; [|exact H].
  destruct (expiredAt _ b); [exact H|].
  change ("builds/" +:+ buildId b +:+ "/school-system.zip")
    with (packageKey (buildId b)).
  change (24 * 60 * 60)%Z with SIGNED_URL_TTL.
  destruct (s3SignedUrl env _ _) as [newUrl|err]; [|exact H].
  exists (set_downloadUrl (Some newUrl) b). cbn. intuition.
Qed.

(** * Further properties of the request handlers *)

Lemma createBuild_jobs env o s u w :
  jobs (snd (createBuild env o s u w)) = jobs w.
Proof.
  destruct (createBuild_spec env o s u w) as (e & w' & -> & H).
  unfold same_data in H. cbn [snd]. tauto.
Qed.

Lemma incrementDownloadCount_jobs env id w :
  jobs (snd (incrementDownloadCount env id w)) = jobs w.
Proof.
  unfold incrementDownloadCount, bind, now, get. cbn.
  destruct (list_find _ _) as [[i b]|]; reflexivity.
Qed.

(** X1: no request handler ever adds a job to the build queue.  Start and
    retry call [queue.add('process-build', ...)], but the queues of the
    manager are [build], [payment] and [email]: [add] throws. *)
Theorem handlers_never_enqueue (env : Env) (req : Request) (w : World) :
  jobs (snd (serve env req w)) = jobs w.
Proof.
  destruct req as [oid u|id u|id u|id u|id u]; cbn [serve].
  - unfold startBuild, handler, startBuild_body, bind, get. cbv zeta beta.
    destruct (Order_findForStart oid u w) as [[oo o]|]; [|reflexivity].
    destruct (populatedSchool o w) as [s|]; [|reflexivity].
    destruct (Build_findByOrder oo w) as [[j ex]|]; [reflexivity|].
    pose proof (createBuild_jobs env oo s u w) as H.
    destruct (createBuild env oo s u w) as [[r|e] w']; cbn [snd] in H;
      [|exact H].
    rewrite queue_add_process_build. exact H.
  - pose proof (retryBuild_effect id u w) as H.
    destruct (findOwnedBuild id u w) as [[i b]|]; [|by rewrite H].
    destruct (decide (status b = Failed)); by rewrite H.
  - pose proof (cancelBuild_effect env id u w) as H.
    destruct (findOwnedBuild id u w) as [[i b]|]; [|by rewrite H].
    destruct (decide (status b = Queued \/ status b = Processing));
      by rewrite H.
  - unfold downloadSystem, handler, downloadSystem_body, bind, get.
    destruct (findOwnedBuild id u w) as [[i b]|]; [|reflexivity].
    destruct (negb _); [reflexivity|].
    destruct (downloadUrl b) as [url|]; [|reflexivity].
    destruct (bool_decide (url = "")); [reflexivity|].
    pose proof (incrementDownloadCount_jobs env id w) as H.
    destruct (incrementDownloadCount env id w) as [[[]|e] w']; exact H.
  - pose proof (generateNewLink_effect env id u w) as H. cbv zeta in H.
    destruct (findOwnedBuild id u w) as [[i b]|]; [|by rewrite H].
    destruct (decide (status b = Completed)); [|by rewrite H].
    destruct (expiredAt _ b).
    { destruct H as [_ H]. unfold same_data in H. tauto. }
    destruct (s3SignedUrl env _ _).
    + tauto.
    + destruct H as [_ H]. unfold same_data in H. tauto.
Qed.

(** X2: neither start nor retry ever answers 200.  Whatever the request
    and the state, the answer is a 400, a 404 or [next(error)]: the
    success responses "Build process started" and "Build retry queued"
    are unreachable. *)
Theorem start_and_retry_never_report_success (env : Env) (oid id : string)
    (u : nat) (w : World) :
  (forall success message data,
     fst (startBuild env oid u w) <> Json 200 success message data) /\
  (forall success message data,
     fst (retryBuild id u w) <> Json 200 success message data).
Proof.
  split; intros success message data.
  - unfold startBuild, handler, startBuild_body, bind, get. cbv zeta beta.
    destruct (Order_findForStart oid u w) as [[oo o]|]; [|discriminate].
    destruct (populatedSchool o w) as [s|]; [|discriminate].
    destruct (Build_findByOrder oo w) as [[j ex]|]; [discriminate|].
    destruct (createBuild env oo s u w) as [[r|e] w']; [|discriminate].
    rewrite queue_add_process_build. discriminate.
  - pose proof (retryBuild_effect id u w) as H.
    destruct (findOwnedBuild id u w) as [[i b]|]; [|by rewrite H].
    destruct (decide (status b = Failed)); by rewrite H.
Qed.

Lemma Order_findForStart_Some oid u w oo o :
  Order_findForStart oid u w = Some (oo, o) ->
  Order_findById oo w = Some o /\ orderId o = oid /\ o_user o = u.
Proof.
  unfold Order_findForStart, Order_findById. intros H.
  apply list_find_Some in H. tauto.
Qed.

Lemma populatedSchool_Some o w s :
  populatedSchool o w = Some s -> is_Some (School_findById s w).
Proof.
  unfold populatedSchool. destruct (o_school o) as [s'|]; [|discriminate].
  cbn. destruct (School_findById s' w) eqn:E; [|discriminate].
  cbn. intros [= <-]. rewrite E. eauto.
Qed.

(** X3: a start request never stores a build.  For a paid order with a
    school, no build and a tier that the schema allows, the request ends
    in [next(error)] with the validation error of [Build.create], and the
    database is as it was, but for the clock; so a second start request
    for the order fails in the same way.  The answer 400 "Build already
    exists for this order" needs a build that something else stored. *)
Theorem startBuild_never_stores (env env' : Env) (oid : string)
    (u : nat) (w : World) (oo : nat) (o : Order) (s : nat) :
  Order_findForStart oid u w = Some (oo, o) ->
  populatedSchool o w = Some s ->
  Build_findByOrder oo w = None ->
  o_packageType o ∈ packageEnum ->
  let w1 := snd (startBuild env oid u w) in
  startBuild env oid u w =
    (NextError buildIdRequired, with_ticks (S (ticks w)) w) /\
  startBuild env' oid u w1 =
    (NextError buildIdRequired, with_ticks (S (S (ticks w))) w).
Proof.
  intros Hord Hsch Hnone Hpkg.
  destruct (Order_findForStart_Some _ _ _ _ _ Hord) as (Ho & _ & _).
  pose proof (populatedSchool_Some _ _ _ Hsch) as Hs.
  assert (forall e n,
            startBuild e oid u (with_ticks n w) =
              (NextError buildIdRequired, with_ticks (S n) w)) as Hstart.
  { intros e n. unfold startBuild, handler, startBuild_body, bind, get.
    cbv zeta beta.
    change (Order_findForStart oid u (with_ticks n w))
      with (Order_findForStart oid u w).
    rewrite Hord.
    change (populatedSchool o (with_ticks n w)) with (populatedSchool o w).
    rewrite Hsch.
    change (Build_findByOrder oo (with_ticks n w))
      with (Build_findByOrder oo w).
    rewrite Hnone.
    rewrite (createBuild_rejection e oo s u (with_ticks n w) o Ho Hs Hpkg).
    reflexivity. }
  assert (startBuild env oid u w =
            (NextError buildIdRequired, with_ticks (S (ticks w)) w)) as Hfirst.
  { pose proof (Hstart env (ticks w)) as H.
    by destruct w. }
  rewrite Hfirst. cbn [snd]. split; [reflexivity|]. apply Hstart.
Qed.

Lemma startBuild_never_stores_witness :
  let w1 := snd (startBuild okEnv "ORD-001" 0 world0) in
  startBuild okEnv "ORD-001" 0 world0 =
    (NextError buildIdRequired, with_ticks (S (ticks world0)) world0) /\
  startBuild lateEnv "ORD-001" 0 w1 =
    (NextError buildIdRequired, with_ticks (S (S (ticks world0))) world0).
Proof.
  apply (startBuild_never_stores okEnv lateEnv "ORD-001" 0 world0 0
           {| orderId := "ORD-001"; o_user := 0; o_school := Some 0;
              o_packageType := "medium"; o_packageDuration := "annually";
              o_paymentStatus := "completed"; o_status := "confirmed";
              o_buildStatus := "pending"; o_downloadUrl := None |} 0).
  - reflexivity.
  - reflexivity.
  - reflexivity.
  - vm_compute. repeat constructor.
Defined.

Lemma findOwnedBuild_insert id u w w' i b b' :
  findOwnedBuild id u w = Some (i, b) ->
  buildId b' = buildId b -> order b' = order b ->
  builds w' = <[i := b']> (builds w) ->
  orders w' = orders w ->
  findOwnedBuild id u w' = Some (i, b').
Proof.
  intros H Hid Hord Hb Ho.
  destruct (findOwnedBuild_Some _ _ _ _ _ H) as (Hf & o & Hlo & Hu).
  unfold findOwnedBuild.
  rewrite (Build_findOne_insert _ _ _ _ _ _ Hf Hid Hb).
  unfold Order_findById. rewrite Ho, Hord, Hlo.
  rewrite bool_decide_eq_true_2 by exact Hu. reflexivity.
Qed.

Lemma downloadTimes_spec env id u n w i b url :
  findOwnedBuild id u w = Some (i, b) ->
  status b = Completed ->
  downloadUrl b = Some url ->
  url <> "" ->
  exists b',
    findOwnedBuild id u (downloadTimes env id u n w) = Some (i, b') /\
    status b' = Completed /\ downloadUrl b' = Some url /\
    downloadCount b' = (downloadCount b + Z.of_nat n)%Z /\
    ticks (downloadTimes env id u n w) = ticks w + n /\
    (forall k, n = S k -> lastDownloadAt b' = Some (clock env (ticks w + k))).
Proof.
  intros Hf Hs Hu Hne. induction n as [|n IH].
  - exists b. cbn. rewrite Z.add_0_r, Nat.add_0_r. split_and!; try done.
  - destruct IH as (b' & Hf' & Hs' & Hu' & Hc' & Ht' & _).
    unfold downloadTimes in *. rewrite Nat.iter_succ.
    rewrite (downloadSystem_counts _ _ _ _ _ _ _ Hf' Hs' Hu' Hne). cbn [snd].
    match goal with
    | |- context [<[i := ?d]> _] => exists d
    end. split.
    { eapply findOwnedBuild_insert; [exact Hf'|..]; reflexivity. }
    cbn. rewrite Hc', Ht'. split_and!; try done; try lia.
    intros k [= <-]. reflexivity.
Qed.

(** X4: download accounting adds up.  After [n] download requests by the
    owner of a completed build with a download URL, its [downloadCount]
    has grown by exactly [n] and [lastDownloadAt] is the time of the last
    of them. *)
Theorem downloads_add_up (env : Env) (id : string) (u n : nat) (w : World)
    (i : nat) (b : Build) (url : string) :
  findOwnedBuild id u w = Some (i, b) ->
  status b = Completed ->
  downloadUrl b = Some url ->
  url <> "" ->
  exists b',
    builds (downloadTimes env id u n w) !! i = Some b' /\
    downloadCount b' = (downloadCount b + Z.of_nat n)%Z /\
    (forall k, n = S k -> lastDownloadAt b' = Some (clock env (ticks w + k))).
Proof.
  intros Hf Hs Hu Hne.
  destruct (downloadTimes_spec env id u n w i b url Hf Hs Hu Hne)
    as (b' & Hf' & _ & _ & Hc & _ & Hl).
  exists b'. split; [by eapply findOwnedBuild_lookup|]. split; assumption.
Qed.

Lemma downloads_add_up_witness :
  exists b',
    builds (downloadTimes lateEnv id1 0 3 worldCompleted) !! 0 = Some b' /\
    downloadCount b' = (downloadCount completedBuild + Z.of_nat 3)%Z /\
    (forall k, 3 = S k ->
       lastDownloadAt b' = Some (clock lateEnv (ticks worldCompleted + k))).
Proof.
  apply (downloads_add_up lateEnv id1 0 3 worldCompleted 0 completedBuild
           "https://bucket.s3.amazonaws.com/builds/BLD-1700000001000-A1B2C3/school-system.zip?X-Amz-Expires=86400").
  - vm_compute. reflexivity.
  - vm_compute. reflexivity.
  - vm_compute. reflexivity.
  - discriminate.
Defined.

(** X5: a user who does not own the order of a build can neither change
    it nor learn anything about it: every retry, cancel, download and
    regenerate request of theirs is answered 404 "Build not found or
    access denied" and changes nothing. *)
Theorem foreign_user_gets_404 (env : Env) (req : Request) (id : string)
    (u : nat) (w : World) (i : nat) (b : Build) (o : Order) :
  Build_findOne id w = Some (i, b) ->
  Order_findById (order b) w = Some o ->
  o_user o <> u ->
  aboutBuild id u req ->
  serve env req w = (notFound, w).
Proof.
  intros Hf Ho Hu Hreq.
  assert (findOwnedBuild id u w = None) as Hnone.
  { unfold findOwnedBuild. rewrite Hf, Ho.
    rewrite bool_decide_eq_false_2 by exact Hu. reflexivity. }
  destruct Hreq as [-> | [-> | [-> | ->]]]; cbn [serve].
  - unfold retryBuild, handler, retryBuild_body, bind, get.
    rewrite Hnone. reflexivity.
  - unfold cancelBuild, handler, cancelBuild_body, bind, get.
    rewrite Hnone. reflexivity.
  - unfold downloadSystem, handler, downloadSystem_body, bind, get.
    rewrite Hnone. reflexivity.
  - unfold generateNewLink, handler, generateNewLink_body, bind, get.
    rewrite Hnone. reflexivity.
Qed.

Lemma foreign_user_gets_404_witness :
  serve okEnv (ReqCancel id1 7) worldQueued = (notFound, worldQueued).
Proof.
  apply (foreign_user_gets_404 okEnv (ReqCancel id1 7) id1 7 worldQueued 0
           queuedBuild
           {| orderId := "ORD-001"; o_user := 0; o_school := Some 0;
              o_packageType := "medium"; o_packageDuration := "annually";
              o_paymentStatus := "completed"; o_status := "confirmed";
              o_buildStatus := "pending"; o_downloadUrl := None |}).
  - vm_compute. reflexivity.
  - vm_compute. reflexivity.
  - vm_compute. lia.
  - right. left. reflexivity.
Defined.

(** X6: an accepted cancel stores in the order a [buildStatus] that the
    Order schema does not allow: [findByIdAndUpdate] runs no validators,
    and "cancelled" is not one of "pending", "building", "completed",
    "failed". *)
Theorem cancelBuild_buildStatus_outside_enum (env : Env) (id : string)
    (u : nat) (w : World) (i : nat) (b : Build) :
  findOwnedBuild id u w = Some (i, b) ->
  status b = Queued \/ status b = Processing ->
  exists o',
    Order_findById (order b) (snd (cancelBuild env id u w)) = Some o' /\
    o_buildStatus o' = "cancelled" /\
    o_buildStatus o' ∉ orderBuildStatusEnum.
Proof.
  intros Hf Hs. pose proof (cancelBuild_effect env id u w) as H.
  rewrite Hf in H. rewrite decide_True in H by exact Hs. rewrite H.
  destruct (findOwnedBuild_Some _ _ _ _ _ Hf) as (_ & o & Ho & _).
  exists (set_o_status "cancelled" "cancelled" o).
  unfold Order_findById. cbn [snd orders with_orders with_builds with_ticks].
  rewrite list_lookup_alter, decide_True, Ho by reflexivity.
  split; [reflexivity|]. split; [reflexivity|]. cbn.
  unfold orderBuildStatusEnum. rewrite !elem_of_cons, elem_of_nil.
  intros [?|[?|[?|[?|[]]]]]; discriminate.
Qed.

Lemma cancelBuild_buildStatus_outside_enum_witness :
  exists o',
    Order_findById (order queuedBuild)
      (snd (cancelBuild okEnv id1 0 worldQueued)) = Some o' /\
    o_buildStatus o' = "cancelled" /\
    o_buildStatus o' ∉ orderBuildStatusEnum.
Proof.
  apply (cancelBuild_buildStatus_outside_enum okEnv id1 0 worldQueued 0
           queuedBuild).
  - vm_compute. reflexivity.
  - left. reflexivity.
Defined.


(** * Properties of the builds collection under any interleaving *)

Lemma sameIdentity_refl b : sameIdentity b b.
Proof. unfold sameIdentity. tauto. Qed.

Lemma sameIdentity_trans b1 b2 b3 :
  sameIdentity b1 b2 -> sameIdentity b2 b3 -> sameIdentity b1 b3.
Proof. unfold sameIdentity. intuition congruence. Qed.

Lemma grows_refl w : grows w w.
Proof.
  intros j b H. exists b. split; [exact H|].
  split; [apply sameIdentity_refl|lia].
Qed.

Lemma grows_trans w1 w2 w3 : grows w1 w2 -> grows w2 w3 -> grows w1 w3.
Proof.
  intros H12 H23 j b Hj.
  destruct (H12 j b Hj) as (b2 & Hj2 & Hid2 & Hc2).
  destruct (H23 j b2 Hj2) as (b3 & Hj3 & Hid3 & Hc3).
  exists b3. split; [exact Hj3|].
  split; [eapply sameIdentity_trans; eassumption|lia].
Qed.

Lemma grows_builds w w' : builds w' = builds w -> grows w w'.
Proof. intros H j b Hj. rewrite H. apply grows_refl. exact Hj. Qed.

Lemma grows_alter w w' i f :
  builds w' = alter f i (builds w) ->
  (forall d, sameIdentity d (f d) /\ (downloadCount d <= downloadCount (f d))%Z) ->
  grows w w'.
Proof.
  intros H Hf j b Hj. rewrite H.
  destruct (decide (j = i)) as [->|Hne].
  - exists (f b). rewrite list_lookup_alter, decide_True, Hj by reflexivity.
    split; [reflexivity|]. apply Hf.
  - exists b. rewrite list_lookup_alter_ne by congruence.
    split; [exact Hj|]. split; [apply sameIdentity_refl|lia].
Qed.

Lemma grows_insert w w' i b b' :
  builds w !! i = Some b ->
  builds w' = <[i := b']> (builds w) ->
  sameIdentity b b' -> (downloadCount b <= downloadCount b')%Z ->
  grows w w'.
Proof.
  intros Hi H Hid Hc j d Hj. rewrite H.
  destruct (decide (j = i)) as [->|Hne].
  - exists b'. rewrite list_lookup_insert_eq by (by eapply lookup_lt_Some).
    rewrite Hi in Hj. injection Hj as <-. auto.
  - exists d. rewrite list_lookup_insert_ne by congruence.
    split; [exact Hj|]. split; [apply sameIdentity_refl|lia].
Qed.

Lemma writeModified_identity bs m d :
  sameIdentity d (writeModified bs m d) /\
  (downloadCount d <= downloadCount (writeModified bs m d))%Z.
Proof. split; [unfold sameIdentity; cbn; tauto|cbn; lia]. Qed.

Lemma createBuild_builds env o s u w :
  builds (snd (createBuild env o s u w)) = builds w.
Proof.
  destruct (createBuild_spec env o s u w) as (e & w' & -> & H).
  unfold same_data in H. cbn [snd]. tauto.
Qed.

Lemma serve_grows env req w : grows w (snd (serve env req w)).
Proof.
  destruct (serve_effect env req w) as [H|(i & b & b' & Hi & H & Hc)].
  - by apply grows_builds.
  - apply handlerChange_identity in Hc as [Hid Hc].
    by eapply grows_insert.
Qed.

Lemma processBuild_grows env conc id w :
  grows w (snd (processBuild env conc id w)).
Proof.
  apply (processBuild_world_invariant env conc (grows w)).
  - intros w1 w2 Hb H. eapply grows_trans; [exact H|]. by apply grows_builds.
  - intros req w1 H. eapply grows_trans; [exact H|]. apply serve_grows.
  - intros w1 i bs m H. eapply grows_trans; [exact H|].
    eapply grows_alter; [reflexivity|]. intros d. apply writeModified_identity.
  - apply grows_refl.
Qed.

(** X7: whatever operations are performed, in whatever order and however
    requests interleave with runs, no build is ever removed, no build
    ever changes its buildId, order, school, user, tier, creation time or
    expiry time, and no download counter ever goes down. *)
Theorem builds_never_removed_or_renamed (w w' : World) :
  rtc anyStep w w' -> grows w w'.
Proof.
  induction 1 as [w|w1 w2 w3 Hstep _ IH]; [apply grows_refl|].
  eapply grows_trans; [|exact IH].
  destruct Hstep.
  - apply grows_builds, createBuild_builds.
  - apply serve_grows.
  - apply processBuild_grows.
Qed.

Lemma builds_never_removed_or_renamed_witness :
  grows worldCompleted
    (snd (serve okEnv (ReqRetry id1 0)
            (snd (processBuild okEnv (downloadAt id1 0 0) id1 worldCompleted)))).
Proof.
  apply builds_never_removed_or_renamed.
  eapply rtc_l; [apply (any_dispatch okEnv (downloadAt id1 0 0) id1)|].
  eapply rtc_l; [apply (any_request okEnv (ReqRetry id1 0))|].
  apply rtc_refl.
Defined.

Lemma sameBuilds_refl w : sameBuilds w w.
Proof. reflexivity. Qed.

Lemma sameBuilds_trans w1 w2 w3 :
  sameBuilds w1 w2 -> sameBuilds w2 w3 -> sameBuilds w1 w3.
Proof. unfold sameBuilds. congruence. Qed.

Lemma sameBuilds_builds w w' : builds w' = builds w -> sameBuilds w w'.
Proof. unfold sameBuilds. by intros ->. Qed.

Lemma sameBuilds_alter w w' i f :
  builds w' = alter f i (builds w) -> (forall d, buildId (f d) = buildId d) ->
  sameBuilds w w'.
Proof.
  unfold sameBuilds. intros -> Hf.
  apply list_eq. intros j. rewrite !list_lookup_fmap.
  destruct (decide (j = i)) as [->|Hne].
  - rewrite list_lookup_alter, decide_True by reflexivity.
    destruct (builds w !! i); cbn; [by rewrite Hf|done].
  - by rewrite list_lookup_alter_ne by congruence.
Qed.

Lemma sameBuilds_insert w w' i b b' :
  builds w !! i = Some b ->
  builds w' = <[i := b']> (builds w) -> buildId b' = buildId b ->
  sameBuilds w w'.
Proof.
  unfold sameBuilds. intros Hi -> Hid.
  rewrite list_fmap_insert, list_insert_id; [reflexivity|].
  by rewrite list_lookup_fmap, Hi, Hid.
Qed.

Lemma serve_sameBuilds env req w : sameBuilds w (snd (serve env req w)).
Proof.
  destruct (serve_effect env req w) as [H|(i & b & b' & Hi & H & Hc)].
  - by apply sameBuilds_builds.
  - apply handlerChange_identity in Hc as [(Hid & _) _].
    by eapply sameBuilds_insert.
Qed.

Lemma processBuild_sameBuilds env conc id w :
  sameBuilds w (snd (processBuild env conc id w)).
Proof.
  apply (processBuild_world_invariant env conc (sameBuilds w)).
  - intros w1 w2 Hb H. eapply sameBuilds_trans; [exact H|].
    by apply sameBuilds_builds.
  - intros req w1 H. eapply sameBuilds_trans; [exact H|].
    apply serve_sameBuilds.
  - intros w1 i bs m H. eapply sameBuilds_trans; [exact H|].
    by apply sameBuilds_alter with (i := i) (f := writeModified bs m).
  - apply sameBuilds_refl.
Qed.

(** X8: no operation ever creates a build.  Whatever operations are
    performed (create, start, retry, cancel, download, regenerate,
    dispatch), in whatever order and however requests interleave with
    runs, the builds collection keeps its documents, one for one and
    with their buildIds: what is stored was stored by something else. *)
Theorem no_build_is_ever_created (w w' : World) :
  rtc anyStep w w' -> sameBuilds w w'.
Proof.
  induction 1 as [w|w1 w2 w3 Hstep _ IH]; [apply sameBuilds_refl|].
  eapply sameBuilds_trans; [|exact IH].
  destruct Hstep.
  - apply sameBuilds_builds, createBuild_builds.
  - apply serve_sameBuilds.
  - apply processBuild_sameBuilds.
Qed.

Lemma no_build_is_ever_created_witness :
  sameBuilds world0
    (snd (processBuild okEnv alone id1
            (snd (serve okEnv (ReqStart "ORD-001" 0)
                    (snd (createBuild okEnv 0 0 0 world0)))))).
Proof.
  apply no_build_is_ever_created.
  eapply rtc_l; [apply (any_create okEnv 0 0 0)|].
  eapply rtc_l; [apply (any_request okEnv (ReqStart "ORD-001" 0))|].
  eapply rtc_l; [apply (any_dispatch okEnv alone id1)|].
  apply rtc_refl.
Defined.

(** * The completion mail *)

Lemma createBuild_outbox env o s u w :
  outbox (snd (createBuild env o s u w)) = outbox w.
Proof.
  destruct (createBuild_spec env o s u w) as (e & w' & -> & H).
  unfold same_data in H. cbn [snd]. tauto.
Qed.

(** No request handler sends mail. *)
Lemma serve_outbox env req w : outbox (snd (serve env req w)) = outbox w.
Proof.
  destruct req as [oid u|id u|id u|id u|id u]; cbn [serve].
  - unfold startBuild, handler, startBuild_body, bind, get. cbv zeta beta.
    destruct (Order_findForStart oid u w) as [[oo o]|]; [|reflexivity].
    destruct (populatedSchool o w) as [s|]; [|reflexivity].
    destruct (Build_findByOrder oo w) as [[j ex]|]; [reflexivity|].
    pose proof (createBuild_outbox env oo s u w) as H.
    destruct (createBuild env oo s u w) as [[r|e] w']; cbn [snd] in H;
      [|exact H].
    rewrite queue_add_process_build. exact H.
  - pose proof (retryBuild_effect id u w) as H.
    destruct (findOwnedBuild id u w) as [[i b]|]; [|by rewrite H].
    destruct (decide (status b = Failed)); by rewrite H.
  - pose proof (cancelBuild_effect env id u w) as H.
    destruct (findOwnedBuild id u w) as [[i b]|]; [|by rewrite H].
    destruct (decide (status b = Queued \/ status b = Processing));
      by rewrite H.
  - unfold downloadSystem, handler, downloadSystem_body, bind, get.
    destruct (findOwnedBuild id u w) as [[i b]|]; [|reflexivity].
    destruct (negb _); [reflexivity|].
    destruct (downloadUrl b) as [url|]; [|reflexivity].
    destruct (bool_decide (url = "")); [reflexivity|].
    unfold incrementDownloadCount, bind, now, get. cbn.
    destruct (list_find _ _) as [[]|]; reflexivity.
  - pose proof (generateNewLink_effect env id u w) as H. cbv zeta in H.
    destruct (findOwnedBuild id u w) as [[i b]|]; [|by rewrite H].
    destruct (decide (status b = Completed)); [|by rewrite H].
    destruct (expiredAt _ b).
    { destruct H as [_ H]. unfold same_data in H. tauto. }
    destruct (s3SignedUrl env _ _).
    + tauto.
    + destruct H as [_ H]. unfold same_data in H. tauto.
Qed.

Section Outbox.

Variable env : Env.
Variable conc : nat -> list Request.
Variable v : list Mail.

Lemma outboxIs_liftW {A} (c : M World A) :
  (forall w, outbox (snd (c w)) = outbox w) -> preserves (outboxIs v) (liftW c).
Proof.
  intros Hc r Hr. unfold liftW, outboxIs in *. specialize (Hc (world r)).
  destruct (c (world r)) as [o w']. cbn in *. congruence.
Qed.

Lemma outboxIs_assign upd : preserves (outboxIs v) (assign upd).
Proof. intros r Hr. unfold assign. destruct (var_build r); exact Hr. Qed.

Lemma outboxIs_yield k : preserves (outboxIs v) (yield env conc k).
Proof.
  intros r Hr. destruct (yield_cases env conc k r) as [->| ->]; [exact Hr|].
  apply (serveAll_spec env (fun w => outbox w = v) (fun _ => True));
    [|exact Hr].
  intros req w _ Hw. split; [|exact I]. by rewrite serve_outbox.
Qed.

Lemma outboxIs_save : preserves (outboxIs v) save.
Proof. intros r Hr. unfold save. destruct (var_build r); exact Hr. Qed.

(** A run sends no mail. *)
Lemma processBuild_outbox id w :
  outbox w = v -> outbox (world (snd (processBuild_run env conc id w))) = v.
Proof.
  intros Hw. apply (cut_run_from_start env conc (outboxIs v)).
  - apply outboxIs_liftW. reflexivity.
  - intros p q. apply outboxIs_liftW. reflexivity.
  - intros o f. apply outboxIs_liftW. reflexivity.
  - intros upd _. apply outboxIs_assign.
  - apply outboxIs_save.
  - apply outboxIs_yield.
  - intros found r Hr. exact Hr.
  - exact Hw.
Qed.

End Outbox.

(** X9: no run sends the completion mail.  Whatever the collaborators do
    and whatever is served during the run, [processBuild] throws and the
    mails sent are those that had been sent before:
    [sendBuildCompletionNotification] comes after the packaging stage,
    which no run gets past, and no request handler sends mail. *)
Theorem no_run_sends_mail (env : Env) (conc : nat -> list Request)
    (id : string) (w : World) :
  (exists e, fst (processBuild env conc id w) = Threw e) /\
  outbox (snd (processBuild env conc id w)) = outbox w.
Proof.
  unfold processBuild.
  pose proof (processBuild_run_throws env conc id w) as Ht.
  pose proof (processBuild_outbox env conc (outbox w) id w eq_refl) as Ho.
  destruct (processBuild_run env conc id w) as [o r]. auto.
Qed.

(** * What a run leaves when its stage operations succeed *)

Lemma staged_wstable w0 b k p : wstable (staged w0 b k p).
Proof.
  intros m st w w' Ho Hs Hu ([? ?] & (? & ? & ?) & ?).
  split; [split; congruence|]. split; [|assumption].
  split; [assumption|]. split; congruence.
Qed.

Lemma staged_sstable w0 b k p : sstable (staged w0 b k p).
Proof. intros m st w H. exact H. Qed.

Lemma sure_await {S A} (a : A) (P : S -> Prop) E :
  triple P (await (Done a)) (fun _ => P) E.
Proof. intros s Hs. exact Hs. Qed.

Section SureWalk.

Variable env : Env.
Variables (w0 : World) (i : nat) (b : Build) (id : string).
Variables (sc : School) (u : User) (o : Order).
Hypothesis Hi : builds w0 !! i = Some b.
Hypothesis Hsc : School_findPopulated (school b) w0 = Some (sc, Some u).
Hypothesis Ho : Order_findById (order b) w0 = Some o.
Hypothesis Hops : stagesSucceed env id (package b).

Let T : string -> Prop := fun _ => True.
Let HR : Raises T T env := Raises_any env.

(** Starting stage [k + 1] appends it, open, and persists the document. *)
Lemma addBuildStage_logged k p sv name d (E : string -> Run -> Prop) :
  take (S k) stageNames = take k stageNames ++ [name] ->
  triple (withLog (tracking w0 i b (staged w0 b k p)) sv)
         (addBuildStage env name d)
         (fun _ => withLog (tracking w0 i b (staged w0 b (S k) p)) (sv ++ [p])) E.
Proof.
  intros Hk. unfold addBuildStage.
  eapply triple_bind.
  { apply triple_logged; [|quietly].
    apply (keeps_now env w0 i b _ (staged_wstable w0 b k p)) with
      (Q := fun _ => tracking w0 i b (staged w0 b k p)).
    intros ? ? H; exact H. }
  intros t; cbv beta.
  (* the stage is appended to the stages of the in-memory document *)
  intros r [(m & st & Hv & Hb & Hfm & Hfs & Hx) Hlog].
  unfold bind at 1, theBuild. rewrite Hv. cbn [mem].
  revert r Hv Hb Hx Hlog.
  enough (triple (withLog (tracking w0 i b
                    (fun m' st' w' => staged w0 b k p m' st' w' /\ m' = m)) sv)
            (do! assign (set_stages (stages m ++
                   [{| st_name := name; st_status := "processing";
                       st_startedAt := Some t; st_completedAt := None;
                       st_error := None |}])) in
             do! save in
             ret {| st_name := name; st_status := "processing";
                    st_startedAt := Some t; st_completedAt := None;
                    st_error := None |})
            (fun _ => withLog (tracking w0 i b (staged w0 b (S k) p)) (sv ++ [p]))
            E) as H.
  { intros r Hv Hb Hx Hlog. apply H. split; [|exact Hlog].
    exists m, st. auto 6. }
  eapply triple_bind.
  { apply triple_logged; [|quietly].
    apply (triple_assign w0 i b _ (staged w0 b (S k) p)); [reflexivity|].
    intros m' st' w' _ [(Hin & ((Hn & Hopen) & Hsu) & Hp) ->].
    split; [exact Hin|]. split; [|exact Hp]. split; [|exact Hsu]. split.
    - cbn [stages set_stages]. rewrite fmap_snoc, Hn, Hk. reflexivity.
    - cbn [stages set_stages]. apply Forall_app. split; [exact Hopen|].
      apply Forall_singleton. split; reflexivity. }
  intros ?; cbv beta.
  eapply triple_bind.
  { apply (save_logged w0 i b Hi (staged w0 b (S k) p) (staged w0 b (S k) p) p).
    intros m' st' w' bs _ Hs. split; [|apply Hs].
    eapply staged_wstable; [..|eapply staged_sstable; exact Hs]; reflexivity. }
  intros ?; cbv beta. apply triple_ret. auto.
Qed.

Lemma sure_copyTemplate (X : Build -> Build -> World -> Prop) pkg dst
    (E : string -> Run -> Prop) :
  wstable X ->
  fsAccess env (path_join templateDir pkg) = Done tt ->
  copyDirectoryIO env (path_join templateDir pkg) dst = Done tt ->
  triple (tracking w0 i b X) (copyTemplate env pkg dst)
         (fun _ => tracking w0 i b X) E.
Proof.
  intros Xw Ha Hc. unfold copyTemplate, copyDirectory. cbv zeta.
  rewrite Ha, Hc.
  eapply triple_bind with (Q1 := fun _ => tracking w0 i b X);
    [intros r Hr; exact Hr|]. intros ?; cbv beta.
  eapply triple_bind; [apply sure_await|]. intros ?; cbv beta.
  apply (keeps_modifyW w0 i b X Xw); reflexivity.
Qed.

Lemma sure_configureSystem (P : Run -> Prop) p sc' u' o'
    (E : string -> Run -> Prop) :
  fsMkdir env (path_join p "config") = Done tt ->
  configFilesIO env p = Done tt ->
  triple P (configureSystem env p (Some (sc', Some u')) (Some o'))
         (fun _ => P) E.
Proof.
  intros Hm Hc. unfold configureSystem. rewrite Hm, Hc.
  intros r Hr. exact Hr.
Qed.

Lemma sure_generateDatabase (P : Run -> Prop) p sc' u' o'
    (E : string -> Run -> Prop) :
  fsMkdir env (path_join p "database") = Done tt ->
  databaseFileIO env (path_join (path_join p "database") "initial-data.json")
    = Done tt ->
  triple P (generateDatabase env p (Some (sc', Some u')) (Some o'))
         (fun _ => P) E.
Proof.
  intros Hm Hd. unfold generateDatabase. cbv zeta. rewrite Hm, Hd.
  intros r Hr. exact Hr.
Qed.

Ltac unfold_work :=
  unfold copyTemplate, copyDirectory, configureSystem, generateDatabase,
    installDependencies, nullDeref;
  cbv zeta.

Ltac tb lem := eapply triple_bind; [lem | intros ?; cbv beta].

(** A step that persists nothing. *)
Ltac tl lem := tb ltac:(apply triple_logged; [lem | unfold_work; quietly]).

Ltac startStage :=
  tb ltac:(apply addBuildStage_logged; reflexivity);
  tb ltac:(apply triple_yield_alone).

Ltac setProgress k p q :=
  tl ltac:(apply (triple_assign w0 i b (staged w0 b k p) (staged w0 b k q));
           [reflexivity |
            intros ? ? ? _ (? & ? & _); split; [assumption|];
            split; [assumption|reflexivity]]);
  tb ltac:(apply (save_logged w0 i b Hi (staged w0 b k q) (staged w0 b k q) q);
           let H := fresh in
           intros ? ? ? ? _ H; split; [|apply H];
           eapply staged_wstable; [..|eapply staged_sstable; exact H];
           reflexivity);
  tb ltac:(apply triple_yield_alone).

(** The stages, up to [createPackage]. *)
Lemma processBuild_stages_sure p0 :
  triple (withLog (tracking w0 i b (staged w0 b 0 p0)) [p0])
         (processBuild_stages env alone id)
         (fun _ _ => False)
         (fun e r => e = noWriteStream /\
            withLog (tracking w0 i b (staged w0 b 5 80))
                    [p0; p0; 20; 20; 40; 40; 60; 60; 80; 80]%Z r).
Proof.
  destruct Hops as (Hmk & Hacc & Hcp & Hmk2 & Hcfg & Hmk3 & Hdb).
  unfold processBuild_stages.
  tl ltac:(apply triple_theBuild). apply triple_logged_pure; intros Hbld.
  apply frame_fields in Hbld as (_ & Hord & Hsch & _ & Hpkg & _).
  tl ltac:(apply (triple_theWorld w0 i b (staged w0 b 0 p0))).
  apply triple_logged_pure; intros (m1 & st1 & _ & (_ & Hs1 & Hu1) & _).
  cbv zeta.
  assert (School_findPopulated (school a) a0 = Some (sc, Some u)) as ->.
  { rewrite <- Hsc. unfold School_findPopulated, School_findById.
    by rewrite Hsch, Hs1, Hu1. }
  tb ltac:(apply triple_yield_alone).
  tl ltac:(apply (triple_theWorld w0 i b (staged w0 b 0 p0))).
  apply triple_logged_pure; intros (m2 & st2 & (_ & Ho2) & _).
  assert (Order_findById (order a) a2 = Some o) as ->.
  { rewrite <- Ho. unfold Order_findById. by rewrite Hord, Ho2. }
  rewrite Hpkg.
  tb ltac:(apply triple_yield_alone).
  rewrite Hmk. tl ltac:(apply sure_await).
  (* Stage 1 *)
  startStage.
  tl ltac:(apply (sure_copyTemplate (staged w0 b 1 p0));
           [apply staged_wstable | exact Hacc | exact Hcp]).
  setProgress 1 p0 20%Z.
  (* Stage 2 *)
  startStage.
  tl ltac:(apply sure_configureSystem; [exact Hmk2 | exact Hcfg]).
  setProgress 2 20%Z 40%Z.
  (* Stage 3 *)
  startStage.
  tl ltac:(apply sure_generateDatabase; [exact Hmk3 | exact Hdb]).
  setProgress 3 40%Z 60%Z.
  (* Stage 4 *)
  startStage.
  tl ltac:(apply (keeps_installDependencies env w0 i b (staged w0 b 4 60))).
  setProgress 4 60%Z 80%Z.
  (* Stage 5 *)
  startStage.
  intros r Hr. split; [reflexivity|exact Hr].
Qed.

(** The build is marked as processing and saved for the first time. *)
Lemma markProcessing_logged (E : string -> Run -> Prop) :
  triple (withLog (tracking w0 i b
                     (fun m st w => inStages w0 b m st w /\
                        (schools w = schools w0 /\ users w = users w0) /\
                        progress m = progress b)) [])
         (markProcessing env)
         (fun _ => withLog (tracking w0 i b (staged w0 b 0 (progress b)))
                           [progress b]) E.
Proof.
  set (X0 := fun (m st : Build) (w : World) =>
               inStages w0 b m st w /\
               (schools w = schools w0 /\ users w = users w0) /\
               progress m = progress b).
  assert (wstable X0) as HX0.
  { intros m st w w' Ho' Hs Hu ([? ?] & [? ?] & ?). unfold X0, inStages.
    split; [split; congruence|]. split; [split; congruence|assumption]. }
  unfold markProcessing.
  tl ltac:(apply (keeps_assign w0 i b X0); [reflexivity | intros ? ? ? H; exact H]).
  tl ltac:(apply (keeps_now env w0 i b X0 HX0); intros ? ? H; exact H).
  tl ltac:(apply (keeps_assign w0 i b X0); [reflexivity | intros ? ? ? H; exact H]).
  tl ltac:(apply (triple_assign w0 i b X0 (staged w0 b 0 (progress b)));
           [reflexivity |
            intros m st w _ (Hin & Hsu & Hp); split; [exact Hin|];
            split; [|exact Hp]; split; [|exact Hsu];
            split; [reflexivity | constructor]]).
  apply (save_logged w0 i b Hi (staged w0 b 0 (progress b))
           (staged w0 b 0 (progress b)) (progress b) []).
  intros m st w bs _ H. split; [|apply H].
  eapply staged_wstable; [..|eapply staged_sstable; exact H]; reflexivity.
Qed.

(** From [Build.findOne] to the [catch] block. *)
Lemma processBuild_try_sure :
  Build_findOne id w0 = Some (i, b) ->
  triple (fun r => r = startRun w0) (processBuild_try env alone id)
         (fun _ _ => False)
         (fun e r => e = noWriteStream /\
            withLog (tracking w0 i b (staged w0 b 5 80))
                    [progress b; progress b; 20; 20; 40; 40; 60; 60; 80; 80]%Z
                    r).
Proof.
  intros Hfind r ->. unfold processBuild_try.
  erewrite bind_done by reflexivity. cbn [world startRun]. rewrite Hfind.
  erewrite bind_done by apply setBuild_found.
  match goal with
  | |- match ?rest ?s with _ => _ end =>
      cut (triple (withLog (tracking w0 i b
                     (fun m st w => inStages w0 b m st w /\
                        (schools w = schools w0 /\ users w = users w0) /\
                        progress m = progress b)) [])
             rest (fun _ _ => False)
             (fun e r => e = noWriteStream /\
                withLog (tracking w0 i b (staged w0 b 5 80))
                  [progress b; progress b; 20; 20; 40; 40; 60; 60; 80; 80]%Z r));
        [intros H; apply H|]
  end.
  { split; [|reflexivity]. exists b, b. cbn.
    rewrite list_insert_id by exact Hi. unfold inStages. auto 10. }
  tb ltac:(apply triple_yield_alone).
  tb ltac:(apply markProcessing_logged).
  tb ltac:(apply triple_yield_alone).
  apply processBuild_stages_sure.
Qed.

(** The run as a whole. *)
Lemma processBuild_run_sure :
  Build_findOne id w0 = Some (i, b) ->
  match processBuild_run env alone id w0 with
  | (Done _, r) => False
  | (Threw e, r) =>
      e = noWriteStream /\
      withLog (tracking w0 i b
                 (fun m st w => failedWith w0 b noWriteStream m st w /\
                                atStage w0 5 m w /\ progress m = 80%Z))
              (progressLog (progress b)) r
  end.
Proof.
  intros Hfind. unfold processBuild_run.
  assert (triple (fun r => r = startRun w0)
            (tryCatch (processBuild_try env alone id) (processBuild_catch env alone))
            (fun _ _ => False)
            (fun e r => e = noWriteStream /\
               withLog (tracking w0 i b
                          (fun m st w => failedWith w0 b noWriteStream m st w /\
                                         atStage w0 5 m w /\ progress m = 80%Z))
                       (progressLog (progress b)) r)) as H.
  { eapply triple_tryCatch; [apply processBuild_try_sure; assumption|].
    intros e. apply triple_pure. intros ->.
    apply (processBuild_catch_logged env w0 i b Hi (atStage w0 5) noWriteStream
             80%Z [progress b; progress b; 20; 20; 40; 40; 60; 60; 80; 80]%Z).
    - intros v m w H. exact H.
    - intros v m w H. exact H.
    - intros v m w H. exact H.
    - intros m w w' Hs Hu (? & ? & ?). unfold atStage.
      split; [assumption|]. split; congruence. }
  apply (H (startRun w0)). reflexivity.
Qed.

End SureWalk.

(** X10: what a run leaves when its stage operations succeed (no request
    interleaved): for a build whose school, school creator and order
    exist, when the build directory, the copy of the template, the
    configuration and the database file can be written, the run still
    throws, "fs.createWriteStream is not a function", in the packaging
    stage.  It leaves the build failed with that error, progress 80 and
    the first five stages, all of them still open; the order is marked
    as failed; no other build or order, no school and no user has
    changed and no mail has been sent.  The progress persisted is the
    one the build had, then 20, 40, 60 and 80, each persisted twice, and
    80 once more. *)
Theorem run_stops_at_packaging (env : Env) (id : string) (w : World)
    (i : nat) (b : Build) (sc : School) (u : User) (o : Order) :
  Build_findOne id w = Some (i, b) ->
  School_findPopulated (school b) w = Some (sc, Some u) ->
  Order_findById (order b) w = Some o ->
  stagesSucceed env id (package b) ->
  exists d,
    fst (processBuild_run env alone id w) = Threw noWriteStream /\
    builds (world (snd (processBuild_run env alone id w)))
      = <[i := d]> (builds w) /\
    status d = Failed /\ error d = Some noWriteStream /\
    progress d = 80%Z /\
    st_name <$> stages d = take 5 stageNames /\
    Forall openStage (stages d) /\
    downloadUrl d = downloadUrl b /\
    orders (world (snd (processBuild_run env alone id w)))
      = alter (set_o_status "failed" "failed") (order b) (orders w) /\
    schools (world (snd (processBuild_run env alone id w))) = schools w /\
    users (world (snd (processBuild_run env alone id w))) = users w /\
    outbox (world (snd (processBuild_run env alone id w))) = outbox w /\
    progress <$> saved (snd (processBuild_run env alone id w))
      = progressLog (progress b).
Proof.
  intros Hfind Hsc Ho Hops.
  pose proof (Build_findOne_Some _ _ _ _ Hfind) as [Hi _].
  pose proof (processBuild_run_sure env w i b id sc u o Hi Hsc Ho Hops Hfind)
    as H.
  pose proof (processBuild_outbox env alone (outbox w) id w eq_refl) as Hout.
  destruct (processBuild_run env alone id w) as [[res|e] r]; [destruct H|].
  destruct H as (-> & H & Hlog). cbn [fst snd] in *.
  apply (tracked_doc _ _ _ _ _ Hi) in H as (m & st & Hb & _ & _ & Hs).
  destruct Hs as ((-> & Hst & Herr & _ & Hurl & Hord) &
                  ((Hn & Hopen) & Hsch & Hu) & Hp).
  exists m. auto 15.
Qed.

Lemma run_stops_at_packaging_witness :
  exists d,
    fst (processBuild_run okEnv alone id1 worldQueued) = Threw noWriteStream /\
    builds (world (snd (processBuild_run okEnv alone id1 worldQueued)))
      = <[0 := d]> (builds worldQueued) /\
    status d = Failed /\ error d = Some noWriteStream /\
    progress d = 80%Z /\
    st_name <$> stages d = take 5 stageNames /\
    Forall openStage (stages d) /\
    downloadUrl d = downloadUrl queuedBuild /\
    orders (world (snd (processBuild_run okEnv alone id1 worldQueued)))
      = alter (set_o_status "failed" "failed") (order queuedBuild)
              (orders worldQueued) /\
    schools (world (snd (processBuild_run okEnv alone id1 worldQueued)))
      = schools worldQueued /\
    users (world (snd (processBuild_run okEnv alone id1 worldQueued)))
      = users worldQueued /\
    outbox (world (snd (processBuild_run okEnv alone id1 worldQueued)))
      = outbox worldQueued /\
    progress <$> saved (snd (processBuild_run okEnv alone id1 worldQueued))
      = progressLog (progress queuedBuild).
Proof.
  apply (run_stops_at_packaging okEnv id1 worldQueued 0 queuedBuild
           {| s_name := "Hill School"; s_createdBy := 0;
              s_status := "pending"; s_metaBuildId := None;
              s_metaDownloadUrl := None; s_metaLastUpdate := None |}
           {| email := "head@hill.example"; fullName := "Head Teacher" |}
           {| orderId := "ORD-001"; o_user := 0; o_school := Some 0;
              o_packageType := "medium"; o_packageDuration := "annually";
              o_paymentStatus := "completed"; o_status := "confirmed";
              o_buildStatus := "pending"; o_downloadUrl := None |}).
  - exact worldQueued_found.
  - reflexivity.
  - reflexivity.
  - repeat split.
Defined.

(** * A run on a build whose school or order is missing *)

(** No request handler touches the schools or the users, or adds or
    removes an order. *)
Lemma serve_keeps env req w :
  schools (snd (serve env req w)) = schools w /\
  users (snd (serve env req w)) = users w /\
  length (orders (snd (serve env req w))) = length (orders w).
Proof.
  destruct req as [oid u|id u|id u|id u|id u]; cbn [serve].
  - pose proof (startBuild_effect env oid u w) as H. cbv zeta in H.
    destruct (Order_findForStart oid u w) as [[oo o]|]; [|by rewrite H].
    destruct (Build_findByOrder oo w) as [[j ex]|].
    + by destruct H as [-> _].
    + destruct H as [(_ & -> & -> & -> & _) _]. auto.
  - pose proof (retryBuild_effect id u w) as H.
    destruct (findOwnedBuild id u w) as [[i b]|]; [|by rewrite H].
    destruct (decide (status b = Failed)); by rewrite H.
  - pose proof (cancelBuild_effect env id u w) as H.
    destruct (findOwnedBuild id u w) as [[i b]|]; [|by rewrite H].
    destruct (decide (status b = Queued \/ status b = Processing));
      rewrite H; [|done].
    cbn. by rewrite length_alter.
  - unfold downloadSystem, handler, downloadSystem_body, bind, get.
    destruct (findOwnedBuild id u w) as [[i b]|]; [|done].
    destruct (negb _); [done|].
    destruct (downloadUrl b) as [url|]; [|done].
    destruct (bool_decide (url = "")); [done|].
    unfold incrementDownloadCount, bind, now, get. cbn.
    by destruct (list_find _ _) as [[]|].
  - pose proof (generateNewLink_effect env id u w) as H. cbv zeta in H.
    destruct (findOwnedBuild id u w) as [[i b]|]; [|by rewrite H].
    destruct (decide (status b = Completed)); [|by rewrite H].
    destruct (expiredAt _ b).
    { destruct H as [_ (_ & -> & -> & -> & _)]. auto. }
    destruct (s3SignedUrl env _ _).
    + destruct H as (_ & _ & -> & -> & -> & _). auto.
    + destruct H as [_ (_ & -> & -> & -> & _)]. auto.
Qed.

Section Dangling.

Variable env : Env.
Variable conc : nat -> list Request.
Variables (w0 : World) (b : Build) (id : string).

(** Steps that never throw. *)
Lemma loaded_liftW {A} (c : M World A) (E : string -> Run -> Prop) :
  (forall w, exists a, fst (c w) = Done a) ->
  (forall w, schools (snd (c w)) = schools w /\ users (snd (c w)) = users w /\
             length (orders (snd (c w))) = length (orders w)) ->
  triple (loaded w0 b) (liftW c) (fun _ => loaded w0 b) E.
Proof.
  intros Hd Hc r (Ho & Hs & Hu & Hv). unfold liftW.
  destruct (Hd (world r)) as [a Ha]. destruct (Hc (world r)) as (Hs' & Hu' & Ho').
  destruct (c (world r)) as [o w']. cbn in *. subst o.
  unfold loaded. cbn. rewrite Hs', Hu', Ho'. auto.
Qed.

Lemma loaded_assign upd (E : string -> Run -> Prop) :
  (forall m, frame (upd m) = frame m) ->
  triple (loaded w0 b) (assign upd) (fun _ => loaded w0 b) E.
Proof.
  intros Hf r (Ho & Hs & Hu & d & Hv & Hsch & Hord & Hpkg).
  unfold assign. rewrite Hv. unfold loaded. cbn.
  split; [exact Ho|]. split; [exact Hs|]. split; [exact Hu|].
  eexists. split; [reflexivity|]. cbn.
  destruct (frame_fields _ _ (Hf (mem d))) as (_ & -> & -> & _ & -> & _).
  auto.
Qed.

Lemma loaded_save (E : string -> Run -> Prop) :
  triple (loaded w0 b) save (fun _ => loaded w0 b) E.
Proof.
  intros r (Ho & Hs & Hu & d & Hv & Hd). unfold save. rewrite Hv.
  unfold loaded. cbn. eauto 10.
Qed.

Lemma loaded_yield k (E : string -> Run -> Prop) :
  triple (loaded w0 b) (yield env conc k) (fun _ => loaded w0 b) E.
Proof.
  intros r Hr. destruct (yield_cases env conc k r) as [->| ->]; [exact Hr|].
  destruct Hr as (Ho & Hs & Hu & Hv). unfold loaded. cbn.
  destruct (serveAll_spec env
              (fun w => length (orders w) = length (orders w0) /\
                        schools w = schools w0 /\ users w = users w0)
              (fun _ => True) (conc k) (world r)) as [(? & ? & ?) _]; [|auto|auto].
  intros req w _ (Ho' & Hs' & Hu').
  destruct (serve_keeps env req w) as (-> & -> & ->). auto.
Qed.

Lemma loaded_theBuild (E : string -> Run -> Prop) :
  triple (loaded w0 b) theBuild
    (fun bld r => (school bld = school b /\ order bld = order b /\
                   package bld = package b) /\ loaded w0 b r) E.
Proof.
  intros r (Ho & Hs & Hu & d & Hv & Hsch & Hord & Hpkg).
  unfold theBuild. rewrite Hv. split; [auto|]. unfold loaded. eauto 10.
Qed.

Lemma loaded_theWorld (E : string -> Run -> Prop) :
  triple (loaded w0 b) theWorld
    (fun w r => (length (orders w) = length (orders w0) /\
                 schools w = schools w0 /\ users w = users w0) /\
                loaded w0 b r) E.
Proof. intros r Hr. pose proof Hr as (Ho & Hs & Hu & _). split; auto. Qed.

Lemma loaded_addBuildStage name d (E : string -> Run -> Prop) :
  triple (loaded w0 b) (addBuildStage env name d) (fun _ => loaded w0 b) E.
Proof.
  unfold addBuildStage.
  eapply triple_bind.
  { apply loaded_liftW; [intros w; eexists; reflexivity|auto]. }
  intros t; cbv beta zeta.
  eapply triple_bind; [apply loaded_theBuild|]. intros bld; cbv beta.
  apply triple_pure. intros _.
  eapply triple_bind; [apply loaded_assign; reflexivity|]. intros ?; cbv beta.
  eapply triple_bind; [apply loaded_save|]. intros ?; cbv beta.
  apply triple_ret. auto.
Qed.

Lemma loaded_markProcessing (E : string -> Run -> Prop) :
  triple (loaded w0 b) (markProcessing env) (fun _ => loaded w0 b) E.
Proof.
  unfold markProcessing.
  eapply triple_bind; [apply loaded_assign; reflexivity|]. intros ?; cbv beta.
  eapply triple_bind.
  { apply loaded_liftW; [intros w; eexists; reflexivity|auto]. }
  intros t; cbv beta.
  eapply triple_bind; [apply loaded_assign; reflexivity|]. intros ?; cbv beta.
  eapply triple_bind; [apply loaded_assign; reflexivity|]. intros ?; cbv beta.
  apply loaded_save.
Qed.

Lemma dangling_stages :
  dangling b w0 ->
  triple (loaded w0 b) (processBuild_stages env conc id) (fun _ _ => False)
         (fun e _ => earlyError env id (package b) e \/ nullError e).
Proof.
  intros Hd. unfold processBuild_stages.
  eapply triple_bind; [apply loaded_theBuild|].
  intros bld. apply triple_pure. intros (Hsch & Hord & Hpkg).
  eapply triple_bind; [apply loaded_theWorld|].
  intros w1. apply triple_pure. intros (_ & Hs & Hu). cbv zeta.
  assert (School_findPopulated (school bld) w1 =
          School_findPopulated (school b) w0) as ->.
  { unfold School_findPopulated, School_findById. by rewrite Hsch, Hs, Hu. }
  eapply triple_bind; [apply loaded_yield|]. intros ?; cbv beta.
  eapply triple_bind; [apply loaded_theWorld|].
  intros w2. apply triple_pure. intros (Ho & _ & _).
  assert (Order_findById (order b) w0 = None ->
          Order_findById (order bld) w2 = None) as Hnone.
  { unfold Order_findById. rewrite Hord, !lookup_ge_None. lia. }
  rewrite Hpkg.
  eapply triple_bind; [apply loaded_yield|]. intros ?; cbv beta.
  (* the build directory *)
  eapply triple_bind with (Q1 := fun _ => loaded w0 b).
  { intros r Hr. unfold await. destruct (fsMkdir env _) eqn:E; [exact Hr|].
    left. left. exact E. }
  intros ?; cbv beta.
  (* Stage 1 *)
  eapply triple_bind; [apply loaded_addBuildStage|]. intros ?; cbv beta.
  eapply triple_bind; [apply loaded_yield|]. intros ?; cbv beta.
  eapply triple_bind with (Q1 := fun _ => loaded w0 b).
  { unfold copyTemplate, copyDirectory. cbv zeta.
    eapply triple_bind with (Q1 := fun _ => loaded w0 b).
    { intros r Hr. unfold tryCatch, await, throw.
      destruct (fsAccess env _); [exact Hr|]. left. right. left. reflexivity. }
    intros ?; cbv beta.
    eapply triple_bind with (Q1 := fun _ => loaded w0 b).
    { intros r Hr. unfold await.
      destruct (copyDirectoryIO env _ _) eqn:E; [exact Hr|].
      left. right. right. left. exact E. }
    intros ?; cbv beta.
    apply loaded_liftW; [intros w; eexists; reflexivity|auto]. }
  intros ?; cbv beta.
  eapply triple_bind; [apply loaded_assign; reflexivity|]. intros ?; cbv beta.
  eapply triple_bind; [apply loaded_save|]. intros ?; cbv beta.
  eapply triple_bind; [apply loaded_yield|]. intros ?; cbv beta.
  (* Stage 2 *)
  eapply triple_bind; [apply loaded_addBuildStage|]. intros ?; cbv beta.
  eapply triple_bind; [apply loaded_yield|]. intros ?; cbv beta.
  eapply triple_bind with (Q1 := fun _ _ => False); [|intros ? ? []].
  intros r Hr. unfold configureSystem, bind, await, nullDeref, throw.
  destruct (fsMkdir env _) eqn:E; [|left; right; right; right; exact E].
  unfold nullError.
  destruct Hd as [-> | [[sc ->] | Hd]]; [right; eauto| |].
  - destruct (Order_findById (order bld) w2); right; eauto.
  - rewrite (Hnone Hd).
    destruct (School_findPopulated _ _) as [[sc [u|]]|]; right; eauto.
Qed.

End Dangling.

(** X11: a build whose school, school creator or order no longer exists
    can never be completed.  Whatever is served meanwhile, the run throws:
    unless the build directory cannot be made or the template cannot be
    copied, it gets as far as the configuration stage and fails there
    with a [TypeError] for a property read from [null]. *)
Theorem dangling_build_never_completes (env : Env)
    (conc : nat -> list Request) (id : string) (w : World) (i : nat)
    (b : Build) :
  Build_findOne id w = Some (i, b) ->
  dangling b w ->
  exists e, fst (processBuild env conc id w) = Threw e /\
            (earlyError env id (package b) e \/ nullError e).
Proof.
  intros Hfind Hd.
  assert (triple (fun r => r = startRun w) (processBuild_try env conc id)
            (fun _ _ => False)
            (fun e _ => earlyError env id (package b) e \/ nullError e))
    as Htry.
  { intros r ->. unfold processBuild_try.
    erewrite bind_done by reflexivity. cbn [world startRun]. rewrite Hfind.
    erewrite bind_done by apply setBuild_found.
    match goal with
    | |- match ?m ?s with _ => _ end =>
        cut (triple (loaded w b) m (fun _ _ => False)
               (fun e _ => earlyError env id (package b) e \/ nullError e));
          [intros H; apply H|]
    end.
    { unfold loaded. cbn. split; [reflexivity|]. split; [reflexivity|].
      split; [reflexivity|]. eexists. split; [reflexivity|]. auto. }
    eapply triple_bind; [apply loaded_yield|]. intros ?; cbv beta.
    eapply triple_bind; [apply loaded_markProcessing|]. intros ?; cbv beta.
    eapply triple_bind; [apply loaded_yield|]. intros ?; cbv beta.
    by apply dangling_stages. }
  unfold processBuild, processBuild_run, tryCatch.
  specialize (Htry (startRun w) eq_refl).
  destruct (processBuild_try env conc id (startRun w)) as [[res|e] r];
    [destruct Htry|].
  exists e. split; [|exact Htry].
  pose proof (processBuild_catch_throws env conc e r) as Ht.
  destruct (processBuild_catch env conc e r) as [o r']. exact Ht.
Qed.

Lemma dangling_build_never_completes_witness :
  exists e, fst (processBuild okEnv alone id1 worldNoSchool) = Threw e /\
            (earlyError okEnv id1 (package queuedBuild) e \/ nullError e).
Proof.
  apply (dangling_build_never_completes okEnv alone id1 worldNoSchool 0
           queuedBuild).
  - vm_compute. reflexivity.
  - left. vm_compute. reflexivity.
Defined.

(** * Requests served during a run *)

(** Before the first save of a run the stored build is as it was: a
    completed build is still served. *)
Lemma download_before_first_save :
  served (snd (processBuild_run okEnv (downloadAt id1 0 0) id1 worldCompleted))
    = [Redirect url1].
Proof. vm_compute. reflexivity. Qed.

(** X12: from its first save on, a run keeps the build from being
    downloaded.  If the download requests served during a run are for
    the build of the run, and none of them is served between
    [Build.findOne] and the first save of the run, then none of the
    requests served is answered with a redirect, whatever else is
    requested meanwhile, and also when the run is a second run on a build
    that is completed and has a download URL. *)
Theorem no_download_during_run (env : Env) (conc : nat -> list Request)
    (id : string) (w : World) :
  downloadsOf id conc ->
  afterFirstSave id conc ->
  Forall notRedirect (served (snd (processBuild_run env conc id w))).
Proof.
  intros Hconc Hfirst.
  destruct (Build_findOne id w) as [[i b]|] eqn:Hfind.
  2:{ rewrite processBuild_run_missing by exact Hfind. constructor. }
  refine (proj1 (processBuild_sound env conc notRedirect id i _ _ w b Hfind)).
  - intros req w1 Hin url Hr.
    destruct (serve_redirect env req w1 url Hr) as (id' & u & j & d & -> & _).
    rewrite (Hconc _ _ _ Hin) in Hin. by apply (Hfirst u).
  - intros k req w1 st Hin Hf Hs url Hr.
    destruct (serve_redirect env req w1 url Hr)
      as (id' & u & j & d & -> & Hf' & Hc).
    rewrite (Hconc _ _ _ Hin) in Hf'. rewrite Hf in Hf'.
    injection Hf' as <- <-. by destruct Hs.
Qed.

Lemma no_download_during_run_witness :
  Forall notRedirect
    (served (snd (processBuild_run okEnv (downloadAt id1 0 3) id1
                    worldCompleted))).
Proof.
  apply no_download_during_run.
  - intros k id' u. unfold downloadAt.
    destruct (bool_decide (k = 3)).
    + intros H. apply list_elem_of_singleton in H. congruence.
    + intros H. by apply elem_of_nil in H.
  - intros u H. by apply elem_of_nil in H.
Defined.


(** * Completing a stage *)

Lemma completeFirst_app name t l s :
  Forall (fun x => st_name x = name -> st_completedAt x <> None) l ->
  st_name s = name -> st_completedAt s = None ->
  completeFirst name t (l ++ [s]) =
    Some (l ++ [{| st_name := st_name s; st_status := "completed";
                   st_startedAt := st_startedAt s; st_completedAt := Some t;
                   st_error := st_error s |}]).
Proof.
  intros Hl Hn Hc. induction Hl as [|x l Hx _ IH]; cbn.
  - rewrite bool_decide_eq_true_2 by auto. reflexivity.
  - rewrite bool_decide_eq_false_2 by (intros [? ?]; by apply Hx).
    rewrite IH. reflexivity.
Qed.

(** X13: [completeBuildStage], which no run calls, does what the stage
    history needs.  Called after [addBuildStage] for a name of which no
    stage is open, it turns the stage just started into a completed one:
    status "completed", [startedAt] the reading of the clock when it was
    started and [completedAt] the next reading. *)
Theorem stage_started_then_completed (env : Env) (name description : string)
    (r : Run) (d : Doc) :
  var_build r = Some d ->
  Forall (fun x => st_name x = name -> st_completedAt x <> None)
         (stages (mem d)) ->
  exists r' d',
    (do! addBuildStage env name description in
     completeBuildStage env name) r = (Done tt, r') /\
    var_build r' = Some d' /\
    stages (mem d') =
      stages (mem d) ++
      [{| st_name := name; st_status := "completed";
          st_startedAt := Some (clock env (ticks (world r)));
          st_completedAt := Some (clock env (S (ticks (world r))));
          st_error := None |}].
Proof.
  intros Hv Hopen. destruct r as [w vb sv se]. cbn in Hv. subst vb.
  unfold bind, addBuildStage, completeBuildStage, bind, liftW, now, theBuild,
    assign, save, ret. cbn.
  destruct (list_find _ _) as [[j x]|] eqn:Hfind.
  2:{ apply list_find_None in Hfind.
      apply Forall_app in Hfind as [_ Hfind].
      rewrite Forall_singleton in Hfind. destruct Hfind.
      split; reflexivity. }
  rewrite (completeFirst_app name _ _ _ Hopen) by reflexivity. cbn.
  eexists _, _. split; [reflexivity|]. split; reflexivity.
Qed.

Lemma stage_started_then_completed_witness :
  exists r' d',
    (do! addBuildStage okEnv "Packaging" "Zipping the system" in
     completeBuildStage okEnv "Packaging") loadedRun = (Done tt, r') /\
    var_build r' = Some d' /\
    stages (mem d') =
      stages queuedBuild ++
      [{| st_name := "Packaging"; st_status := "completed";
          st_startedAt := Some (clock okEnv (ticks worldQueued));
          st_completedAt := Some (clock okEnv (S (ticks worldQueued)));
          st_error := None |}].
Proof.
  apply (stage_started_then_completed okEnv "Packaging" "Zipping the system"
           loadedRun {| pos := 0; mem := queuedBuild; base := queuedBuild |}).
  - reflexivity.
  - constructor.
Defined.


(** * Status, download information and availability *)

Lemma estimate_formula b :
  estimatedTimeRemaining b =
    if decide (status b = Processing) then (2 * (100 - progress b))%Z else 0%Z.
Proof.
  unfold estimatedTimeRemaining. destruct (decide (status b = Processing)).
  - rewrite bool_decide_eq_true_2 by assumption. cbn [negb]. cbv zeta.
    rewrite <- (Z.div_mul (2 * (100 - progress b)) 1000) by lia.
    f_equal. lia.
  - rewrite bool_decide_eq_false_2 by assumption. reflexivity.
Qed.

(** X15: the status of a build is reported only to the user who both
    owns its order and created its school; anyone else gets a 404.  The
    report shows the stored status and progress and, as estimate of the
    time left, two seconds for each percent missing while the build is
    processing and 0 otherwise.  The request changes nothing and never
    ends in [next(error)]. *)
Theorem getBuildStatus_access (id : string) (u : nat) (w : World) :
  snd (BuildController.getBuildStatus id u w) = w /\
  match fst (BuildController.getBuildStatus id u w) with
  | Ok v =>
      exists i b o sc,
        Build_findOne id w = Some (i, b) /\
        Order_findById (order b) w = Some o /\ o_user o = u /\
        School_findById (school b) w = Some sc /\ s_createdBy sc = u /\
        v_status v = status b /\ v_progress v = progress b /\
        v_estimatedTimeRemaining v =
          if decide (status b = Processing)
          then (2 * (100 - progress b))%Z else 0%Z
  | Refused code _ => code = 404
  | Next _ => False
  end.
Proof.
  unfold BuildController.getBuildStatus, reply, bind, get. cbv zeta.
  destruct (Build_findOne id w) as [[i b]|] eqn:Hf; [|by split].
  destruct (Order_findById (order b) w) as [o|] eqn:Ho; [|by split].
  destruct (decide (o_user o = u)) as [Hu|Hu].
  2:{ rewrite bool_decide_eq_false_2 by exact Hu. by split. }
  rewrite bool_decide_eq_true_2 by exact Hu.
  destruct (School_findById (school b) w) as [sc|] eqn:Hs; [|by split].
  destruct (decide (s_createdBy sc = u)) as [Hc|Hc].
  2:{ rewrite bool_decide_eq_false_2 by exact Hc. by split. }
  rewrite bool_decide_eq_true_2 by exact Hc.
  unfold BuildService.getBuildStatus, bind, get. rewrite Hf. cbn.
  split; [reflexivity|]. exists i, b, o, sc.
  rewrite estimate_formula. auto 10.
Qed.

(** X16: the route GET /info/:buildId never answers with the download
    information.  The router is given the method [getDownloadInfo]
    without its controller, so for a build of the user's the call
    [this.getInstallationGuide(...)] throws a [TypeError] and the request
    ends in [next(error)]; for any other build it is answered 404.
    Called as a method of the controller, the same function answers the
    owner, and shows the download URL only of a completed build. *)
Theorem download_info_route_never_answers (tier : School -> string)
    (id : string) (u : nat) (w : World) :
  match findOwnedBuild id u w with
  | Some (_, b) =>
      route_getDownloadInfo tier id u w =
        (Next "Cannot read properties of undefined (reading 'getInstallationGuide')",
         w) /\
      exists v,
        DownloadController.getDownloadInfo tier Controller id u w = (Ok v, w) /\
        i_downloadUrl v =
          if decide (status b = Completed) then downloadUrl b else None
  | None =>
      route_getDownloadInfo tier id u w =
        (Refused 404 "Build not found or access denied", w)
  end.
Proof.
  unfold route_getDownloadInfo, DownloadController.getDownloadInfo, reply,
    bind, get. cbv zeta.
  destruct (findOwnedBuild id u w) as [[i b]|]; [|reflexivity].
  split; [reflexivity|]. cbn. eexists. split; [reflexivity|]. cbn.
  destruct (decide (status b = Completed)).
  - by rewrite bool_decide_eq_true_2.
  - by rewrite bool_decide_eq_false_2.
Qed.

Lemma findOwnedBuild_same id u w w' :
  builds w' = builds w -> orders w' = orders w ->
  findOwnedBuild id u w' = findOwnedBuild id u w.
Proof.
  intros Hb Ho. unfold findOwnedBuild, Build_findOne, Order_findById.
  by rewrite Hb, Ho.
Qed.

(** X17: what [verifyDownload] reports as available can be downloaded.
    If it answers [available: true] for a build, then a download request
    of the owner of the build that follows is redirected to the download
    URL of the build. *)
Theorem available_means_downloadable (env env' : Env) (id : string)
    (u : nat) (w w' : World) (v : Verification) (i : nat) (b : Build) :
  DownloadController.verifyDownload env id w = (Ok v, w') ->
  available v = Available true ->
  findOwnedBuild id u w = Some (i, b) ->
  exists url, downloadUrl b = Some url /\
              fst (downloadSystem env' id u w') = Redirect url.
Proof.
  intros Hv Ha Hown.
  pose proof (findOwnedBuild_Some _ _ _ _ _ Hown) as [Hf _].
  unfold DownloadController.verifyDownload, reply, bind, get in Hv.
  rewrite Hf in Hv.
  destruct (decide (status b = Completed)) as [Hs|Hs].
  2:{ rewrite bool_decide_eq_false_2 in Hv by exact Hs. cbn in Hv.
      injection Hv as <- <-. discriminate. }
  rewrite bool_decide_eq_true_2 in Hv by exact Hs. cbn [negb] in Hv.
  destruct (downloadUrl b) as [url|] eqn:Hu.
  2:{ cbn in Hv. injection Hv as <- <-. discriminate. }
  destruct (decide (url = "")) as [He|He].
  { rewrite bool_decide_eq_true_2 in Hv by exact He. cbn in Hv.
    injection Hv as <- <-. discriminate. }
  rewrite bool_decide_eq_false_2 in Hv by exact He.
  exists url. split; [reflexivity|].
  assert (findOwnedBuild id u w' = Some (i, b)) as Hown'.
  { rewrite <- Hown. destruct (expiresAt b); cbn in Hv;
      injection Hv as <- <-; by apply findOwnedBuild_same. }
  by rewrite (downloadSystem_counts _ _ _ _ _ _ _ Hown' Hs Hu He).
Qed.

Lemma available_means_downloadable_witness :
  exists url,
    downloadUrl completedBuild = Some url /\
    fst (downloadSystem lateEnv id1 0
           (snd (DownloadController.verifyDownload okEnv id1 worldCompleted)))
      = Redirect url.
Proof.
  eapply (available_means_downloadable okEnv lateEnv id1 0 worldCompleted _ _
            0 completedBuild).
  - vm_compute. reflexivity.
  - vm_compute. reflexivity.
  - vm_compute. reflexivity.
Defined.

(** X18: at the instant a build expires the two expiry checks disagree.
    When the clock reads exactly [expiresAt], [verifyDownload] reports
    the build as not available ([now < expiresAt] fails), while
    [generateNewLink] does not take it as expired ([now > expiresAt]
    fails) and issues a new link. *)
Theorem expiry_instant_disagreement (env : Env) (id : string) (u : nat)
    (w : World) (i : nat) (b : Build) (url newUrl : string) :
  findOwnedBuild id u w = Some (i, b) ->
  status b = Completed ->
  downloadUrl b = Some url -> url <> "" ->
  expiresAt b = Some (clock env (ticks w)) ->
  s3SignedUrl env (packageKey id) SIGNED_URL_TTL = Done newUrl ->
  (exists v, fst (DownloadController.verifyDownload env id w) = Ok v /\
             available v = Available false) /\
  fst (generateNewLink env id u w) =
    Json 200 true "New download link generated" [("downloadUrl", newUrl)].
Proof.
  intros Hown Hs Hu Hne He Hsig.
  pose proof (findOwnedBuild_Some _ _ _ _ _ Hown) as [Hf _].
  split.
  - unfold DownloadController.verifyDownload, reply, bind, get.
    rewrite Hf, bool_decide_eq_true_2 by exact Hs. cbn [negb].
    rewrite Hu, bool_decide_eq_false_2 by exact Hne. rewrite He.
    cbn. eexists. split; [reflexivity|]. cbn.
    rewrite bool_decide_eq_false_2 by lia. reflexivity.
  - pose proof (generateNewLink_effect env id u w) as H. cbv zeta in H.
    rewrite Hown in H. rewrite decide_True in H by exact Hs.
    unfold expiredAt in H. rewrite He in H.
    rewrite bool_decide_eq_false_2 in H by lia.
    apply Build_findOne_Some in Hf as [_ Hid]. rewrite Hid, Hsig in H.
    tauto.
Qed.

Lemma expiry_instant_disagreement_witness :
  (exists v,
     fst (DownloadController.verifyDownload atExpiry id1 worldCompleted) = Ok v /\
     available v = Available false) /\
  fst (generateNewLink atExpiry id1 0 worldCompleted) =
    Json 200 true "New download link generated"
      [("downloadUrl",
        "https://bucket.s3.amazonaws.com/builds/BLD-1700000001000-A1B2C3/school-system.zip?X-Amz-Expires=86400")].
Proof.
  apply (expiry_instant_disagreement atExpiry id1 0 worldCompleted 0
           completedBuild
           "https://bucket.s3.amazonaws.com/builds/BLD-1700000001000-A1B2C3/school-system.zip?X-Amz-Expires=86400").
  - vm_compute. reflexivity.
  - vm_compute. reflexivity.
  - vm_compute. reflexivity.
  - discriminate.
  - vm_compute. reflexivity.
  - vm_compute. reflexivity.
Defined.


(** * The directory copy *)

Lemma stripPrefix_Some p q r : Fs.stripPrefix p q = Some r <-> q = p ++ r.
Proof.
  revert q. induction p as [|x p IH]; intros q; cbn.
  - split; [by intros [= ->]|by intros ->].
  - destruct q as [|y q]; [split; discriminate|].
    destruct (decide (x = y)) as [->|Hne].
    + rewrite bool_decide_eq_true_2 by reflexivity. rewrite IH.
      split; [by intros ->|by intros [= ->]].
    + rewrite bool_decide_eq_false_2 by exact Hne.
      split; [discriminate|]. intros [= ? ?]. by destruct Hne.
Qed.

Lemma stripPrefix_app p r : Fs.stripPrefix p (p ++ r) = Some r.
Proof. by apply stripPrefix_Some. Qed.

Lemma stripPrefix_refl p : Fs.stripPrefix p p = Some [].
Proof. apply stripPrefix_Some. by rewrite app_nil_r. Qed.

Lemma stripPrefix_None p q :
  Fs.stripPrefix p q = None <-> forall r, q <> p ++ r.
Proof.
  split.
  - intros H r Hq. apply stripPrefix_Some in Hq. congruence.
  - intros H. destruct (Fs.stripPrefix p q) as [r|] eqn:E; [|reflexivity].
    apply stripPrefix_Some in E. by destruct (H r).
Qed.

(** Below [p ++ [x]] is below [p], through [x]. *)
Lemma stripPrefix_snoc p x q r :
  Fs.stripPrefix (p ++ [x]) q = Some r <-> Fs.stripPrefix p q = Some (x :: r).
Proof. rewrite !stripPrefix_Some, <- app_assoc. reflexivity. Qed.

(** A path above [p ++ [x]] is that path or is above [p]. *)
Lemma above_snoc q p x :
  is_Some (Fs.stripPrefix q (p ++ [x])) <->
  q = p ++ [x] \/ is_Some (Fs.stripPrefix q p).
Proof.
  split.
  - intros [r Hr]. apply stripPrefix_Some in Hr.
    destruct (decide (r = [])) as [->|Hne].
    + left. by rewrite app_nil_r in Hr.
    + right. destruct (exists_last Hne) as (r' & y & ->).
      rewrite app_assoc in Hr. apply app_inj_tail in Hr as [-> _].
      rewrite stripPrefix_app. eauto.
  - intros [->|[r Hr]].
    + rewrite stripPrefix_refl. eauto.
    + apply stripPrefix_Some in Hr. subst p.
      rewrite <- app_assoc, stripPrefix_app. eauto.
Qed.

Lemma apart_snoc p q x : Fs.apart p q -> Fs.apart (p ++ [x]) (q ++ [x]).
Proof.
  intros [Hpq Hqp]. rewrite stripPrefix_None in Hpq, Hqp.
  assert (forall a c, Fs.stripPrefix a c = None ->
            (forall r, a <> c ++ r) -> Fs.stripPrefix (a ++ [x]) (c ++ [x]) = None)
    as H.
  { intros a c Hac Hca. apply stripPrefix_None. intros r Hr.
    rewrite stripPrefix_None in Hac.
    destruct (decide (r = [])) as [->|Hne].
    - rewrite app_nil_r in Hr. apply app_inj_tail in Hr as [-> _].
      apply (Hac []). by rewrite app_nil_r.
    - destruct (exists_last Hne) as (r' & y & ->).
      rewrite !app_assoc in Hr. apply app_inj_tail in Hr as [-> _].
      apply (Hac ([x] ++ r')). by rewrite app_assoc. }
  split; apply H; try (by apply stripPrefix_None); assumption.
Qed.

(** What is apart from [p] is apart from what is below [p]... *)
Lemma apart_below p q r : Fs.apart p q -> Fs.stripPrefix q (p ++ r) = None.
Proof.
  intros [Hpq Hqp]. rewrite stripPrefix_None in Hpq, Hqp.
  apply stripPrefix_None. intros s Hs.
  (* p ++ r = q ++ s: one of p, q is a prefix of the other *)
  revert q Hpq Hqp Hs. induction p as [|x p IH]; intros q Hpq Hqp Hs.
  - by destruct (Hpq q).
  - destruct q as [|y q].
    + by destruct (Hqp (x :: p)).
    + injection Hs as -> Hs. apply (IH q); [| |exact Hs].
      * intros t ->. by apply (Hpq t).
      * intros t ->. by apply (Hqp t).
Qed.

Lemma elem_of_children d p x k :
  (x, k) ∈ Fs.children d p <-> d !! (p ++ [x]) = Some k.
Proof.
  unfold Fs.children. rewrite list_elem_of_omap. split.
  - intros ([q k'] & Hin & Hf). cbn in Hf.
    apply elem_of_map_to_list in Hin.
    destruct (Fs.stripPrefix p q) as [[|y [|]]|] eqn:E; try discriminate.
    injection Hf as -> ->. apply stripPrefix_Some in E. by subst q.
  - intros H. exists (p ++ [x], k). split; [by apply elem_of_map_to_list|].
    cbn. by rewrite stripPrefix_app.
Qed.

Lemma NoDup_entries (l : list (Fs.Path * Fs.Kind)) p :
  NoDup (fst <$> l) ->
  NoDup (fst <$> omap (fun e : Fs.Path * Fs.Kind =>
                         match Fs.stripPrefix p (fst e) with
                         | Some [x] => Some (x, snd e)
                         | _ => None
                         end) l).
Proof.
  induction l as [|[q k] l IH]; intros Hnd; cbn; [constructor|].
  cbn in Hnd. apply NoDup_cons in Hnd as [Hq Hnd]. specialize (IH Hnd).
  destruct (Fs.stripPrefix p q) as [[|y [|]]|] eqn:E; try exact IH.
  cbn. apply NoDup_cons. split; [|exact IH].
  intros Hin. apply list_elem_of_fmap in Hin as ([y' k'] & Hy & Hin).
  cbn in Hy. subst y'. apply list_elem_of_omap in Hin as ([q' k''] & Hin & Hf).
  cbn in Hf.
  destruct (Fs.stripPrefix p q') as [[|z [|]]|] eqn:E'; try discriminate.
  injection Hf as -> ->. apply stripPrefix_Some in E, E'. subst q q'.
  apply Hq. apply list_elem_of_fmap. exists (p ++ [y], k'). auto.
Qed.

Lemma NoDup_children d p : NoDup (fst <$> Fs.children d p).
Proof. apply NoDup_entries. apply NoDup_fst_map_to_list. Qed.

(** In a well-formed file system there is nothing below what is not a
    directory. *)
Lemma wf_below d p r :
  Fs.wf d -> is_Some (d !! (p ++ r)) -> r <> [] -> d !! p = Some Fs.IsDir.
Proof.
  intros [_ Hwf]. revert p. induction r as [|x r IH] using rev_ind;
    intros p Hs Hne; [done|].
  rewrite app_assoc in Hs. apply Hwf in Hs.
  destruct (decide (r = [])) as [->|Hr]; [by rewrite app_nil_r in Hs|].
  apply IH; [|exact Hr]. rewrite Hs. eauto.
Qed.

Lemma wf_above d p q :
  Fs.wf d -> is_Some (d !! p) -> is_Some (Fs.stripPrefix q p) -> q <> p ->
  d !! q = Some Fs.IsDir.
Proof.
  intros Hwf Hp [r Hr] Hne. apply stripPrefix_Some in Hr. subst p.
  eapply wf_below; [exact Hwf|exact Hp|].
  intros ->. by rewrite app_nil_r in Hne.
Qed.

#[local] Instance onWay_dec (at_ rest q : Fs.Path) :
  Decision (exists r1 r2, rest = r1 ++ r2 /\ q = at_ ++ r1).
Proof.
  destruct (Fs.stripPrefix at_ q) as [r1|] eqn:E1.
  - destruct (Fs.stripPrefix r1 rest) as [r2|] eqn:E2.
    + left. apply stripPrefix_Some in E1, E2. eauto.
    + right. intros (r1' & r2' & Hr & Hq).
      apply stripPrefix_Some in E1. rewrite E1 in Hq.
      apply app_inv_head in Hq. subst r1'.
      rewrite stripPrefix_None in E2. by apply (E2 r2').
  - right. intros (r1' & r2' & Hr & Hq).
    rewrite stripPrefix_None in E1. by apply (E1 r1').
Defined.

(** The directories that [mkdirFrom at_ rest] makes sure of. *)
Lemma mkdirFrom_spec rest at_ d :
  (forall r1 r2 data, rest = r1 ++ r2 -> d !! (at_ ++ r1) <> Some (Fs.IsFile data)) ->
  exists d', Fs.mkdirFrom at_ rest d = Done d' /\
    forall q, d' !! q =
      if decide (exists r1 r2, rest = r1 ++ r2 /\ q = at_ ++ r1)
      then Some Fs.IsDir else d !! q.
Proof.
  revert at_ d. induction rest as [|x rest IH]; intros at_ d Hclear.
  - exists (<[at_ := Fs.IsDir]> d). split.
    + cbn. pose proof (fun data => Hclear [] [] data eq_refl) as H.
      rewrite app_nil_r in H.
      destruct (d !! at_) as [[data|]|]; [by destruct (H data)|done..].
    + intros q. destruct (decide (q = at_)) as [->|Hne].
      * rewrite lookup_insert_eq. rewrite decide_True; [done|].
        exists [], []. by rewrite (app_nil_r at_).
      * rewrite lookup_insert_ne by congruence.
        rewrite decide_False; [done|]. intros (r1 & r2 & Hr & ->).
        symmetry in Hr. apply app_eq_nil in Hr as [-> _].
        by rewrite app_nil_r in Hne.
  - destruct (IH (at_ ++ [x]) (<[at_ := Fs.IsDir]> d)) as (d' & Hd' & Hq).
    { intros r1 r2 data Hr. rewrite lookup_insert_ne.
      - rewrite <- app_assoc. apply (Hclear (x :: r1) r2). by rewrite Hr.
      - intros H. apply (f_equal length) in H.
        rewrite !length_app in H. cbn in H. lia. }
    exists d'. split.
    + cbn. pose proof (fun data => Hclear [] (x :: rest) data eq_refl) as H.
      rewrite app_nil_r in H.
      destruct (d !! at_) as [[data|]|]; [by destruct (H data)|done..].
    + intros q. rewrite Hq.
      destruct (decide (exists r1 r2, rest = r1 ++ r2 /\ q = (at_ ++ [x]) ++ r1))
        as [(r1 & r2 & -> & ->)|Hn].
      * rewrite decide_True; [done|]. exists (x :: r1), r2.
        by rewrite <- app_assoc.
      * destruct (decide (q = at_)) as [->|Hne].
        -- rewrite lookup_insert_eq. rewrite decide_True; [done|].
           exists [], (x :: rest). by rewrite (app_nil_r at_).
        -- rewrite lookup_insert_ne by congruence.
           rewrite decide_False; [done|]. intros ([|y r1] & r2 & Hr & ->).
           ++ by rewrite app_nil_r in Hne.
           ++ injection Hr as <- ->. apply Hn. exists r1, r2.
              by rewrite <- app_assoc.
Qed.

Lemma above_split q p :
  is_Some (Fs.stripPrefix q p) <-> exists r1 r2, p = r1 ++ r2 /\ q = [] ++ r1.
Proof.
  split.
  - intros [r Hr]. apply stripPrefix_Some in Hr. eauto.
  - intros (r1 & r2 & -> & ->). cbn. rewrite stripPrefix_app. eauto.
Qed.

(** [fs.mkdir(p, { recursive: true })] when no file is in the way. *)
Lemma mkdir_spec p d :
  Fs.clearFor d p ->
  exists d', Fs.mkdir p d = (Done tt, d') /\
    forall q, d' !! q =
      if decide (is_Some (Fs.stripPrefix q p)) then Some Fs.IsDir else d !! q.
Proof.
  intros Hclear.
  destruct (mkdirFrom_spec p [] d) as (d' & Hd' & Hq).
  { intros r1 r2 data ->. cbn. apply Hclear. rewrite stripPrefix_app. eauto. }
  exists d'. unfold Fs.mkdir. rewrite Hd'. split; [reflexivity|].
  intros q. rewrite Hq.
  destruct (decide (is_Some (Fs.stripPrefix q p))) as [H|H].
  - rewrite decide_True; [done|]. by apply above_split.
  - rewrite decide_False; [done|]. intros H'. by apply H, above_split.
Qed.

Lemma mkdir_wf p d d' :
  Fs.wf d ->
  (forall q, d' !! q =
     if decide (is_Some (Fs.stripPrefix q p)) then Some Fs.IsDir else d !! q) ->
  Fs.wf d'.
Proof.
  intros [Hroot Hwf] Hq. split.
  - rewrite Hq. by rewrite decide_True by (cbn; eauto).
  - intros q x Hs. rewrite Hq in Hs. rewrite Hq.
    destruct (decide (is_Some (Fs.stripPrefix q p))) as [|Hn]; [done|].
    destruct (decide (is_Some (Fs.stripPrefix (q ++ [x]) p))) as [[r Hr]|_].
    + destruct Hn. apply stripPrefix_Some in Hr. subst p.
      rewrite <- app_assoc, stripPrefix_app. eauto.
    + by apply (Hwf q x).
Qed.

(** What is at or below the source is not at, above or below the
    destination. *)
Lemma source_not_above src dst rel :
  Fs.apart src dst -> Fs.stripPrefix (src ++ rel) dst = None.
Proof.
  intros [Hsd _]. rewrite stripPrefix_None in Hsd.
  apply stripPrefix_None. intros r ->. apply (Hsd (rel ++ r)).
  by rewrite app_assoc.
Qed.

Lemma source_not_below src dst rel :
  Fs.apart src dst -> Fs.stripPrefix dst (src ++ rel) = None.
Proof. intros H. by apply apart_below. Qed.

Lemma copiedOf_source d src dst names rel :
  Fs.apart src dst ->
  Fs.copiedOf d src dst names (src ++ rel) = d !! (src ++ rel).
Proof.
  intros H. unfold Fs.copiedOf. by rewrite source_not_below.
Qed.

Lemma copiedOf_entry d src dst names x rel :
  Fs.copiedOf d src dst names (dst ++ x :: rel) =
    if bool_decide (x ∈ names) then
      match d !! (src ++ x :: rel) with
      | Some k => Some k
      | None => d !! (dst ++ x :: rel)
      end
    else d !! (dst ++ x :: rel).
Proof. unfold Fs.copiedOf. by rewrite stripPrefix_app. Qed.

Lemma copiedOf_dst d src dst names :
  Fs.copiedOf d src dst names dst = d !! dst.
Proof. unfold Fs.copiedOf. by rewrite stripPrefix_refl. Qed.

(** Above the destination. *)
Lemma copiedOf_above d src dst names q :
  is_Some (Fs.stripPrefix q dst) ->
  Fs.copiedOf d src dst names q = d !! q.
Proof.
  intros [r Hr]. apply stripPrefix_Some in Hr. unfold Fs.copiedOf.
  destruct (Fs.stripPrefix dst q) as [[|x rel]|] eqn:E; try reflexivity.
  apply stripPrefix_Some in E. rewrite E in Hr.
  rewrite <- app_assoc in Hr. rewrite <- (app_nil_r dst) in Hr at 1.
  apply app_inv_head in Hr. discriminate.
Qed.

(** One more name makes a difference only below that name. *)
Lemma copiedOf_snoc_other d src dst names x q :
  (forall rel, q <> dst ++ x :: rel) ->
  Fs.copiedOf d src dst (names ++ [x]) q = Fs.copiedOf d src dst names q.
Proof.
  intros Hq. unfold Fs.copiedOf.
  destruct (Fs.stripPrefix dst q) as [[|y rel]|] eqn:E; try reflexivity.
  apply stripPrefix_Some in E.
  assert (y <> x) as Hne by (intros ->; by apply (Hq rel)).
  destruct (decide (y ∈ names)) as [Hin|Hin].
  - rewrite !bool_decide_eq_true_2; [done|done|].
    apply elem_of_app. by left.
  - rewrite !bool_decide_eq_false_2; [done|done|].
    rewrite elem_of_app, list_elem_of_singleton. tauto.
Qed.

(** *** The loop over the entries *)

Section Loop.
Variables (f : nat) (src dst : list string) (d1 : gmap (list string) Fs.Kind).
Hypothesis Hrec : Fs.copiesWith f.
Hypothesis Hwf : Fs.wf d1.
Hypothesis Hsrc : d1 !! src = Some Fs.IsDir.
Hypothesis Hdst : d1 !! dst = Some Fs.IsDir.
Hypothesis Hapart : Fs.apart src dst.
Hypothesis Hcompat : Fs.compatible d1 src dst.
Hypothesis Hdepth : Fs.shallow d1 src (S f).

Let body (entry : string * bool) : Fs.MF unit :=
  let srcPath := src ++ [fst entry] in
  let destPath := dst ++ [fst entry] in
  if snd entry then Fs.copyDirectory f srcPath destPath
  else Fs.liftF (Fs.copyFile srcPath destPath).

Let Inv (names : list string) (dj : gmap (list string) Fs.Kind) : Prop :=
  Fs.wf dj /\ forall q, dj !! q = Fs.copiedOf d1 src dst names q.

Lemma Inv_source names dj rel :
  Inv names dj -> dj !! (src ++ rel) = d1 !! (src ++ rel).
Proof. intros [_ H]. rewrite H. by apply copiedOf_source. Qed.

Lemma above_dst q :
  is_Some (Fs.stripPrefix q dst) -> d1 !! q = Some Fs.IsDir.
Proof.
  intros Hq. destruct (decide (q = dst)) as [->|Hne]; [exact Hdst|].
  eapply wf_above; [exact Hwf| |exact Hq|exact Hne].
  rewrite Hdst. eauto.
Qed.

Lemma Inv_above names dj q :
  Inv names dj -> is_Some (Fs.stripPrefix q dst) -> dj !! q = Some Fs.IsDir.
Proof.
  intros [_ H] Hq. rewrite H, copiedOf_above by done. by apply above_dst.
Qed.

Lemma Inv_fresh names dj x rel :
  Inv names dj -> x ∉ names ->
  dj !! (dst ++ x :: rel) = d1 !! (dst ++ x :: rel).
Proof.
  intros [_ H] Hx. rewrite H, copiedOf_entry.
  by rewrite bool_decide_eq_false_2.
Qed.

Lemma Inv_file names dj x data :
  Inv names dj -> x ∉ names ->
  d1 !! (src ++ [x]) = Some (Fs.IsFile data) ->
  Inv (names ++ [x]) (<[dst ++ [x] := Fs.IsFile data]> dj).
Proof.
  intros HI Hx Hf. pose proof HI as [[Hroot Hpar] Hlook].
  assert (dj !! (dst ++ [x]) <> Some Fs.IsDir) as Hnd.
  { rewrite (Inv_fresh names) by done. intros Hk.
    by specialize (Hcompat [x] _ _ Hf Hk). }
  split; [split|].
  - rewrite lookup_insert_ne; [done|]. by destruct dst.
  - intros p y. destruct (decide (dst ++ [x] = p ++ [y])) as [E|E].
    + apply app_inj_tail in E as [<- <-]. intros _.
      rewrite lookup_insert_ne.
      * eapply Inv_above; [exact HI|]. exists []. apply stripPrefix_Some.
        by rewrite app_nil_r.
      * intros E. apply (f_equal length) in E. simpl in E.
        rewrite length_app in E. simpl in E. lia.
    + rewrite lookup_insert_ne by done. intros Hs.
      specialize (Hpar _ _ Hs).
      rewrite lookup_insert_ne; [done|]. intros <-. by rewrite Hpar in Hnd.
  - intros q. destruct (decide (dst ++ [x] = q)) as [<-|E].
    + rewrite lookup_insert_eq, copiedOf_entry.
      rewrite bool_decide_eq_true_2, Hf; [done|].
      apply elem_of_app. right. by apply list_elem_of_singleton.
    + rewrite lookup_insert_ne by done. rewrite Hlook.
      unfold Fs.copiedOf.
      destruct (Fs.stripPrefix dst q) as [[|y rel]|] eqn:Eq; try reflexivity.
      apply stripPrefix_Some in Eq. subst q.
      destruct (decide (y = x)) as [->|Hne].
      * rewrite (bool_decide_eq_false_2 (x ∈ names)) by done.
        rewrite bool_decide_eq_true_2
          by (apply elem_of_app; right; by apply list_elem_of_singleton).
        destruct rel as [|z rel]; [done|].
        destruct (d1 !! (src ++ x :: z :: rel)) as [k|] eqn:Ek; [|done].
        exfalso.
        assert (d1 !! ((src ++ [x]) ++ z :: rel) = Some k) as Ek'
          by (by rewrite <- app_assoc).
        assert (d1 !! (src ++ [x]) = Some Fs.IsDir) as Hd.
        { apply (wf_below d1 (src ++ [x]) (z :: rel)); [exact Hwf| |done].
          rewrite Ek'. eauto. }
        rewrite Hf in Hd. discriminate.
      * assert (y ∈ names ++ [x] <-> y ∈ names) as Hiff
          by (rewrite elem_of_app, list_elem_of_singleton; tauto).
        by rewrite (bool_decide_ext _ _ Hiff).
Qed.

Lemma Inv_dir names dj x :
  Inv names dj -> x ∉ names ->
  d1 !! (src ++ [x]) = Some Fs.IsDir ->
  exists d', Fs.copyDirectory f (src ++ [x]) (dst ++ [x]) dj =
               Some (Done tt, d') /\
             Inv (names ++ [x]) d'.
Proof.
  intros HI Hx Hd. pose proof HI as [Hwfj Hlook].
  destruct (Hrec (src ++ [x]) (dst ++ [x]) dj) as (d' & Hrun & Hwf' & Hq).
  - exact Hwfj.
  - rewrite (Inv_source names) by done. exact Hd.
  - by apply apart_snoc.
  - intros q data Hq. apply above_snoc in Hq as [->|Hq].
    + rewrite (Inv_fresh names) by done. intros Hk.
      by specialize (Hcompat [x] _ _ Hd Hk).
    + rewrite (Inv_above names dj q HI Hq). discriminate.
  - intros rel k k'. rewrite <- !app_assoc. cbn.
    rewrite (Inv_source names), (Inv_fresh names) by done. apply Hcompat.
  - intros rel Hlen. rewrite <- app_assoc. cbn.
    rewrite (Inv_source names) by done. apply Hdepth. cbn. lia.
  - exists d'. split; [exact Hrun|]. split; [exact Hwf'|].
    intros q. rewrite Hq. unfold Fs.copied.
    destruct (Fs.stripPrefix (dst ++ [x]) q) as [rel|] eqn:E.
    + apply stripPrefix_snoc in E. apply stripPrefix_Some in E. subst q.
      rewrite copiedOf_entry, bool_decide_eq_true_2
        by (apply elem_of_app; right; by apply list_elem_of_singleton).
      rewrite <- app_assoc. cbn.
      rewrite (Inv_source names), (Inv_fresh names) by done. reflexivity.
    + case_bool_decide as Hab.
      * apply above_snoc in Hab as [->|Hab].
        { by rewrite stripPrefix_refl in E. }
        rewrite copiedOf_above by done. symmetry. by apply above_dst.
      * rewrite Hlook. symmetry. apply copiedOf_snoc_other.
        intros rel ->.
        rewrite (proj2 (stripPrefix_snoc dst x _ rel)) in E;
          [discriminate|apply stripPrefix_app].
Qed.

Lemma forEach_entries (l : list (string * bool)) : forall names dj,
  Inv names dj ->
  NoDup (fst <$> l) ->
  (forall e, e ∈ l ->
     (fst e ∉ names) /\
     exists k, d1 !! (src ++ [fst e]) = Some k /\ snd e = Fs.isDirectory k) ->
  exists d', Fs.forEach l body dj = Some (Done tt, d') /\
             Inv (names ++ (fst <$> l)) d'.
Proof.
  induction l as [|[x isd] l IH]; intros names dj HI Hnd Hl.
  - exists dj. cbn. by rewrite app_nil_r.
  - cbn in Hnd. apply NoDup_cons in Hnd as [Hx Hnd].
    destruct (Hl (x, isd)) as (Hxn & k & Hk & His); [left|]. cbn in Hxn, Hk, His.
    assert (exists dj', body (x, isd) dj = Some (Done tt, dj') /\
                        Inv (names ++ [x]) dj') as (dj' & Hb & HI').
    { unfold body. cbn. destruct k as [data|]; cbn in His; subst isd.
      - exists (<[dst ++ [x] := Fs.IsFile data]> dj).
        split; [|by apply Inv_file].
        unfold Fs.liftF, Fs.copyFile.
        rewrite (Inv_source names) by done. rewrite Hk.
        assert (dj !! (dst ++ [x]) <> Some Fs.IsDir) as Hnd'.
        { rewrite (Inv_fresh names) by done. intros Hk'.
          by specialize (Hcompat [x] _ _ Hk Hk'). }
        assert (Fs.dirname (dst ++ [x]) = Some dst) as ->.
        { unfold Fs.dirname. rewrite reverse_snoc.
          by rewrite reverse_involutive. }
        cbn. rewrite (Inv_above names dj dst HI)
          by (rewrite stripPrefix_refl; eauto).
        by destruct (dj !! (dst ++ [x])) as [[]|].
      - by apply Inv_dir. }
    destruct (IH (names ++ [x]) dj' HI' Hnd) as (d' & Hrun & HI'').
    { intros e He. destruct (Hl e) as (Hen & Hex); [by right|].
      split; [|exact Hex].
      rewrite elem_of_app, list_elem_of_singleton. intros [?|Heq]; [done|].
      apply Hx. rewrite <- Heq. apply list_elem_of_fmap. by exists e. }
    exists d'. split.
    + change (Fs.forEach ((x, isd) :: l) body dj)
        with (Fs.bindF (body (x, isd)) (fun _ => Fs.forEach l body) dj).
      unfold Fs.bindF. rewrite Hb. exact Hrun.
    + cbn. by rewrite <- app_assoc in HI''.
Qed.
End Loop.

(** *** The copy *)

Lemma copyDirectory_zero : Fs.copiesWith 0.
Proof.
  intros src dst d _ Hsrc _ _ _ Hdepth.
  specialize (Hdepth [] (Nat.le_refl _)). rewrite app_nil_r in Hdepth.
  congruence.
Qed.

Lemma copyDirectory_step f : Fs.copiesWith f -> Fs.copiesWith (S f).
Proof.
  intros Hrec src dst d Hwf Hsrc Hapart Hclear Hcompat Hdepth.
  destruct (mkdir_spec dst d Hclear) as (d1 & Hmk & Hq1).
  pose proof (mkdir_wf dst d d1 Hwf Hq1) as Hwf1.
  assert (forall rel, d1 !! (src ++ rel) = d !! (src ++ rel)) as Hs1.
  { intros rel. rewrite Hq1, decide_False; [done|].
    rewrite source_not_above by done. by intros [? ?]. }
  assert (d1 !! dst = Some Fs.IsDir) as Hdst1.
  { rewrite Hq1, decide_True; [done|]. rewrite stripPrefix_refl. eauto. }
  assert (forall x rel, d1 !! (dst ++ x :: rel) = d !! (dst ++ x :: rel)) as Hb1.
  { intros x rel. rewrite Hq1, decide_False; [done|]. intros [r Hr].
    apply stripPrefix_Some in Hr. apply (f_equal length) in Hr.
    rewrite !length_app in Hr. cbn in Hr. lia. }
  assert (d1 !! src = Some Fs.IsDir) as Hsrc1.
  { specialize (Hs1 []). rewrite app_nil_r in Hs1. by rewrite Hs1. }
  set (entries := (fun e : string * Fs.Kind => (fst e, Fs.isDirectory (snd e)))
                    <$> Fs.children d1 src).
  assert (fst <$> entries = fst <$> Fs.children d1 src) as Hnames.
  { unfold entries. rewrite <- list_fmap_compose. reflexivity. }
  destruct (forEach_entries f src dst d1 Hrec Hwf1 Hdst1 Hapart) with
    (l := entries) (names := @nil string) (dj := d1) as (d' & Hrun & Hwf' & Hq').
  - intros rel k k'. rewrite Hs1. destruct rel as [|x rel].
    + rewrite !app_nil_r, Hsrc, Hdst1. by intros [= <-] [= <-].
    + rewrite Hb1. apply Hcompat.
  - intros rel Hlen. rewrite Hs1. by apply Hdepth.
  - split; [exact Hwf1|]. intros q. unfold Fs.copiedOf.
    by destruct (Fs.stripPrefix dst q) as [[|]|].
  - rewrite Hnames. apply NoDup_children.
  - intros e He. split; [apply not_elem_of_nil|].
    unfold entries in He. apply list_elem_of_fmap in He as ([x k] & -> & He).
    apply elem_of_children in He. cbn. eauto.
  - exists d'. split.
    + cbn [Fs.copyDirectory]. unfold Fs.bindF at 1. unfold Fs.liftF at 1.
      rewrite Hmk. unfold Fs.bindF at 1. unfold Fs.liftF at 1.
      unfold Fs.readdir. rewrite Hsrc1. exact Hrun.
    + split; [exact Hwf'|]. intros q. rewrite Hq'. cbn [app].
      rewrite Hnames. unfold Fs.copiedOf, Fs.copied.
      destruct (Fs.stripPrefix dst q) as [[|x rel]|] eqn:E.
      * apply stripPrefix_Some in E. rewrite app_nil_r in E. subst q.
        by rewrite app_nil_r, Hsrc, Hdst1.
      * apply stripPrefix_Some in E. subst q. rewrite Hs1, Hb1.
        case_bool_decide as Hin; [reflexivity|].
        destruct (d !! (src ++ x :: rel)) as [k|] eqn:Ek; [|reflexivity].
        exfalso. apply Hin.
        assert (is_Some (d !! (src ++ [x]))) as [k' Hk'].
        { destruct rel as [|y rel]; [by rewrite Ek|].
          rewrite (wf_below d (src ++ [x]) (y :: rel)); [eauto|exact Hwf| |done].
          rewrite <- app_assoc. cbn. by rewrite Ek. }
        apply list_elem_of_fmap. exists (x, k'). split; [reflexivity|].
        apply elem_of_children. by rewrite Hs1.
      * rewrite Hq1. unfold bool_decide, decide. by destruct (is_Some_dec _).
Qed.

Lemma copyDirectory_spec f : Fs.copiesWith f.
Proof.
  induction f as [|f IH]; [apply copyDirectory_zero|by apply copyDirectory_step].
Qed.

(** Fuel beyond the longest path is enough. *)
Lemma depth_shallow d p n : Fs.depth d <= n -> Fs.shallow d p n.
Proof.
  intros Hn rel Hlen.
  destruct (d !! (p ++ rel)) as [k|] eqn:E; [|reflexivity]. exfalso.
  apply elem_of_map_to_list in E.
  assert (length (p ++ rel) ∈ length <$> (fst <$> map_to_list d)) as Hin.
  { apply list_elem_of_fmap. exists (p ++ rel). split; [reflexivity|].
    apply list_elem_of_fmap. by exists (p ++ rel, k). }
  apply max_list_elem_of_le in Hin. rewrite length_app in Hin.
  unfold Fs.depth in Hn. lia.
Qed.

(** The source is left as it is. *)
Lemma copied_source d src dst rel :
  Fs.apart src dst -> Fs.copied d src dst (src ++ rel) = d !! (src ++ rel).
Proof.
  intros H. unfold Fs.copied. rewrite source_not_below by done.
  rewrite bool_decide_eq_false_2; [done|].
  rewrite source_not_above by done. by intros [? ?].
Qed.

(** Copying over the copy gives the copy. *)
Lemma copied_idem d d' src dst :
  Fs.apart src dst ->
  (forall q, d' !! q = Fs.copied d src dst q) ->
  forall q, Fs.copied d' src dst q = Fs.copied d src dst q.
Proof.
  intros Hapart Hq q. unfold Fs.copied at 1.
  destruct (Fs.stripPrefix dst q) as [rel|] eqn:E.
  - rewrite !Hq, copied_source by done. unfold Fs.copied. rewrite E.
    by destruct (d !! (src ++ rel)).
  - rewrite Hq. unfold Fs.copied. rewrite E. by case_bool_decide.
Qed.

(** The checks are sound. *)
Lemma wfb_sound d : Fs.wfb d = true -> Fs.wf d.
Proof.
  unfold Fs.wfb. intros H. apply andb_prop in H as [Hroot Hall].
  split; [by apply bool_decide_eq_true in Hroot|].
  intros p x [k Hk]. apply elem_of_map_to_list in Hk.
  rewrite forallb_forall in Hall.
  specialize (Hall (p ++ [x], k)). cbn in Hall.
  unfold Fs.dirname in Hall. rewrite reverse_snoc, reverse_involutive in Hall.
  eapply bool_decide_eq_true. apply Hall. by apply list_elem_of_In.
Qed.

Lemma clearForb_sound d p : Fs.clearForb d p = true -> Fs.clearFor d p.
Proof.
  unfold Fs.clearForb. rewrite forallb_forall. intros H q data [r Hr].
  apply stripPrefix_Some in Hr. subst p. intros Hq.
  specialize (H (length q)). rewrite take_app_length, Hq in H.
  assert (false = true) by (apply H; apply in_seq; rewrite length_app; lia).
  discriminate.
Qed.

Lemma compatibleb_sound d src dst :
  Fs.compatibleb d src dst = true -> Fs.compatible d src dst.
Proof.
  unfold Fs.compatibleb. rewrite forallb_forall. intros H rel k k' Hk Hk'.
  specialize (H (src ++ rel, k)). cbn in H.
  rewrite stripPrefix_app, Hk' in H.
  eapply bool_decide_eq_true. apply H.
  apply list_elem_of_In. by apply elem_of_map_to_list.
Qed.

(** X19: [copyDirectory] of a directory to a destination that is not
    inside it, with no file in the way of the destination and nothing in
    it of another sort than what is copied over it, comes to an end
    without an error (with fuel beyond the length of the longest path)
    and leaves the file system described by [Fs.copied]: everything of
    the source is below the destination at the same relative path, and
    the source and everything else is as before. *)
Theorem copyDirectory_copies_tree
    (d : gmap (list string) Fs.Kind) (src dst : list string) (fuel : nat) :
  Fs.wf d -> d !! src = Some Fs.IsDir ->
  Fs.apart src dst -> Fs.clearFor d dst -> Fs.compatible d src dst ->
  Fs.depth d <= fuel ->
  exists d', Fs.copyDirectory fuel src dst d = Some (Done tt, d') /\
             Fs.wf d' /\
             (forall q, d' !! q = Fs.copied d src dst q) /\
             (forall rel k, d !! (src ++ rel) = Some k ->
                            d' !! (dst ++ rel) = Some k) /\
             (forall rel, d' !! (src ++ rel) = d !! (src ++ rel)).
Proof.
  intros Hwf Hsrc Hapart Hclear Hcompat Hfuel.
  destruct (copyDirectory_spec fuel src dst d) as (d' & Hrun & Hwf' & Hq);
    try done; [by apply depth_shallow|].
  exists d'. split; [exact Hrun|]. split; [exact Hwf'|].
  split; [exact Hq|]. split.
  - intros rel k Hk. rewrite Hq. unfold Fs.copied.
    by rewrite stripPrefix_app, Hk.
  - intros rel. rewrite Hq. by apply copied_source.
Qed.

Lemma copyDirectory_copies_tree_witness :
  exists d', Fs.copyDirectory 5 ["templates"; "small"] ["builds"; "BLD-2"]
               Fs.disk0 = Some (Done tt, d') /\
             d' !! ["builds"; "BLD-2"; "config"; "db.json"] =
               Some (Fs.IsFile "{}").
Proof.
  destruct (copyDirectory_copies_tree Fs.disk0 ["templates"; "small"]
              ["builds"; "BLD-2"] 5) as (d' & Hrun & _ & _ & Hcopy & _).
  - apply wfb_sound. vm_compute. reflexivity.
  - vm_compute. reflexivity.
  - split; vm_compute; reflexivity.
  - apply clearForb_sound. vm_compute. reflexivity.
  - apply compatibleb_sound. vm_compute. reflexivity.
  - vm_compute. lia.
  - exists d'. split; [exact Hrun|].
    apply (Hcopy ["config"; "db.json"]). vm_compute. reflexivity.
Defined.

(** X20: the copy merges and never removes: what the destination had at a
    relative path where the source has nothing is still there afterwards,
    so the files that an earlier attempt left in the build directory
    survive a new copy of the template. *)
Theorem copyDirectory_keeps_stale_entries
    (d : gmap (list string) Fs.Kind) (src dst rel : list string)
    (k : Fs.Kind) (fuel : nat) :
  Fs.wf d -> d !! src = Some Fs.IsDir ->
  Fs.apart src dst -> Fs.clearFor d dst -> Fs.compatible d src dst ->
  Fs.depth d <= fuel ->
  d !! (dst ++ rel) = Some k -> d !! (src ++ rel) = None ->
  exists d', Fs.copyDirectory fuel src dst d = Some (Done tt, d') /\
             d' !! (dst ++ rel) = Some k.
Proof.
  intros Hwf Hsrc Hapart Hclear Hcompat Hfuel Hk Hnone.
  destruct (copyDirectory_spec fuel src dst d) as (d' & Hrun & _ & Hq);
    try done; [by apply depth_shallow|].
  exists d'. split; [exact Hrun|]. rewrite Hq. unfold Fs.copied.
  by rewrite stripPrefix_app, Hnone.
Qed.

Lemma copyDirectory_keeps_stale_entries_witness :
  exists d', Fs.copyDirectory 5 ["templates"; "small"] ["builds"; "BLD-1"]
               Fs.disk0 = Some (Done tt, d') /\
             d' !! (["builds"; "BLD-1"] ++ ["stale.log"]) =
               Some (Fs.IsFile "log").
Proof.
  apply copyDirectory_keeps_stale_entries.
  - apply wfb_sound. vm_compute. reflexivity.
  - vm_compute. reflexivity.
  - split; vm_compute; reflexivity.
  - apply clearForb_sound. vm_compute. reflexivity.
  - apply compatibleb_sound. vm_compute. reflexivity.
  - vm_compute. lia.
  - vm_compute. reflexivity.
  - vm_compute. reflexivity.
Defined.

(** X21: when the source does not exist (and is not a directory on the
    way to the destination), the copy is rejected with [ENOENT] by
    [readdir], after the destination has been created: the destination
    is a directory afterwards, and nothing but it and the directories
    above it has changed. *)
Theorem copyDirectory_missing_source
    (d : gmap (list string) Fs.Kind) (src dst : list string) (fuel : nat) :
  d !! src = None -> Fs.stripPrefix src dst = None -> Fs.clearFor d dst ->
  exists d', Fs.copyDirectory (S fuel) src dst d =
               Some (Threw "ENOENT: no such file or directory, scandir", d') /\
             d' !! dst = Some Fs.IsDir /\
             (forall q, Fs.stripPrefix q dst = None -> d' !! q = d !! q).
Proof.
  intros Hsrc Hsd Hclear.
  destruct (mkdir_spec dst d Hclear) as (d1 & Hmk & Hq1).
  exists d1. split; [|split].
  - cbn [Fs.copyDirectory]. unfold Fs.bindF at 1. unfold Fs.liftF at 1.
    rewrite Hmk. unfold Fs.bindF at 1. unfold Fs.liftF at 1.
    unfold Fs.readdir. rewrite Hq1, decide_False, Hsrc; [done|].
    rewrite Hsd. by intros [? ?].
  - rewrite Hq1, decide_True; [done|]. rewrite stripPrefix_refl. eauto.
  - intros q Hq. rewrite Hq1, decide_False; [done|].
    rewrite Hq. by intros [? ?].
Qed.

Lemma copyDirectory_missing_source_witness :
  exists d', Fs.copyDirectory 1 ["templates"; "medium"] ["builds"; "BLD-2"]
               Fs.disk0 =
               Some (Threw "ENOENT: no such file or directory, scandir", d') /\
             d' !! ["builds"; "BLD-2"] = Some Fs.IsDir.
Proof.
  destruct (copyDirectory_missing_source Fs.disk0 ["templates"; "medium"]
              ["builds"; "BLD-2"] 0) as (d' & Hrun & Hdst & _).
  - vm_compute. reflexivity.
  - vm_compute. reflexivity.
  - apply clearForb_sound. vm_compute. reflexivity.
  - exists d'. split; [exact Hrun|exact Hdst].
Defined.

(** X22: copying a second time changes nothing: the copy of the copy is
    the file system that the first copy left. *)
Theorem copyDirectory_twice
    (d : gmap (list string) Fs.Kind) (src dst : list string) (fuel : nat) :
  Fs.wf d -> d !! src = Some Fs.IsDir ->
  Fs.apart src dst -> Fs.clearFor d dst -> Fs.compatible d src dst ->
  Fs.depth d <= fuel ->
  exists d', Fs.copyDirectory fuel src dst d = Some (Done tt, d') /\
             Fs.copyDirectory fuel src dst d' = Some (Done tt, d').
Proof.
  intros Hwf Hsrc Hapart Hclear Hcompat Hfuel.
  pose proof (depth_shallow d src fuel Hfuel) as Hdepth.
  destruct (copyDirectory_spec fuel src dst d) as (d' & Hrun & Hwf' & Hq);
    try done.
  assert (forall rel, d' !! (src ++ rel) = d !! (src ++ rel)) as Hs.
  { intros rel. rewrite Hq. by apply copied_source. }
  destruct (copyDirectory_spec fuel src dst d') as (d'' & Hrun' & _ & Hq');
    try done.
  - specialize (Hs []). rewrite app_nil_r in Hs. by rewrite Hs.
  - intros q data Habove. rewrite Hq. unfold Fs.copied.
    destruct (Fs.stripPrefix dst q) as [rel|] eqn:E.
    + destruct Habove as [r Hr]. apply stripPrefix_Some in E, Hr.
      assert (rel = []) as ->.
      { rewrite E, <- app_assoc in Hr. rewrite <- (app_nil_r dst) in Hr at 1.
        apply app_inv_head in Hr. by destruct rel. }
      rewrite app_nil_r, Hsrc. discriminate.
    + by rewrite bool_decide_eq_true_2.
  - intros rel k k'. rewrite Hs, (Hq (dst ++ rel)). unfold Fs.copied.
    rewrite stripPrefix_app. intros ->. by intros [= <-].
  - intros rel Hlen. rewrite Hs. by apply Hdepth.
  - exists d'. split; [exact Hrun|]. rewrite Hrun'. do 2 f_equal.
    apply map_eq. intros q. rewrite Hq', Hq. by apply copied_idem.
Qed.

Lemma copyDirectory_twice_witness :
  exists d', Fs.copyDirectory 5 ["templates"; "small"] ["builds"; "BLD-1"]
               Fs.disk0 = Some (Done tt, d') /\
             Fs.copyDirectory 5 ["templates"; "small"] ["builds"; "BLD-1"]
               d' = Some (Done tt, d').
Proof.
  apply copyDirectory_twice.
  - apply wfb_sound. vm_compute. reflexivity.
  - vm_compute. reflexivity.
  - split; vm_compute; reflexivity.
  - apply clearForb_sound. vm_compute. reflexivity.
  - apply compatibleb_sound. vm_compute. reflexivity.
  - vm_compute. lia.
Defined.
